(** * rs-finder: the RS_PN lookup script [rs_fr_lookup_v10.py]

    A shallow embedding of the validators, the raw-scan extractor, the
    lookup state machine and the batch loop of the script, and the
    properties of them that its specification states.  The older script
    [rs_fr_lookup_local.py] differs from it in how it finds its input
    file only; the embedding stands for both.

    Python [str] values are modelled as [string]: a sequence of code
    points below 256 (Latin-1), the repertoire every character class of
    the script's regular expressions is written in ([A-Za-z],
    [À-ÖØ-öø-ÿ], [0-9], whitespace, punctuation).  On that repertoire
    [str.lower] acts character by character, and [str.strip],
    [str.split] and the regular-expression class [\s] agree on which
    characters are whitespace. *)

From Stdlib Require Import Ascii String NArith Bool DecimalString.
From stdpp Require Import base decidable option list gmap strings sorting.

Open Scope string_scope.

(** ** Characters *)

Module Char.

Definition code (c : ascii) : N := N_of_ascii c.

Definition in_range (lo hi : N) (c : ascii) : bool :=
  ((lo <=? code c) && (code c <=? hi))%N.

(** [str.isspace] per character, which is also [\s] of a [str] pattern:
    TAB..CR, FS..US, SPACE, NEL and NBSP. *)
Definition is_space (c : ascii) : bool :=
  in_range 9 13 c || in_range 28 32 c || (code c =? 133)%N || (code c =? 160)%N.

(** [\d] *)
Definition is_digit (c : ascii) : bool := in_range 48 57 c.

(** [[A-Za-z0-9]] *)
Definition is_alnum (c : ascii) : bool :=
  in_range 65 90 c || in_range 97 122 c || in_range 48 57 c.

(** [[A-Za-zÀ-ÖØ-öø-ÿ]] *)
Definition is_letter (c : ascii) : bool :=
  in_range 65 90 c || in_range 97 122 c ||
  in_range 192 214 c || in_range 216 246 c || in_range 248 255 c.

(** [[-_\/\.]] *)
Definition is_punct (c : ascii) : bool :=
  (code c =? 45)%N || (code c =? 95)%N || (code c =? 47)%N || (code c =? 46)%N.

(** [[\s,;/]] *)
Definition is_sep (c : ascii) : bool :=
  is_space c || (code c =? 44)%N || (code c =? 59)%N || (code c =? 47)%N.

(** [str.isdigit] per character: the decimal digits and the superscripts
    two, three and one. *)
Definition is_digit_like (c : ascii) : bool :=
  in_range 48 57 c || (code c =? 178)%N || (code c =? 179)%N || (code c =? 185)%N.

(** [str.lower] per character: A-Z, À-Ö and Ø-Þ move up by 32. *)
Definition lower (c : ascii) : ascii :=
  if in_range 65 90 c || in_range 192 214 c || in_range 216 222 c
  then ascii_of_N (code c + 32)
  else c.

Definition lit (c : ascii) : ascii -> bool := Ascii.eqb c.

(** a literal character under [re.I] *)
Definition lit_nocase (c : ascii) : ascii -> bool :=
  fun x => Ascii.eqb (lower x) (lower c).

Definition any : ascii -> bool := fun _ => true.

End Char.

(** ** Strings *)

Module Str.

Definition truthy (s : string) : bool :=
  match s with EmptyString => false | String _ _ => true end.

Fixpoint any (p : ascii -> bool) (s : string) : bool :=
  match s with
  | EmptyString => false
  | String c s' => p c || any p s'
  end.

Fixpoint all (p : ascii -> bool) (s : string) : bool :=
  match s with
  | EmptyString => true
  | String c s' => p c && all p s'
  end.

Fixpoint map (f : ascii -> ascii) (s : string) : string :=
  match s with
  | EmptyString => EmptyString
  | String c s' => String (f c) (map f s')
  end.

(** [s.lower()] *)
Definition lower (s : string) : string := map Char.lower s.

(** [s.lstrip()] *)
Fixpoint lstrip (s : string) : string :=
  match s with
  | EmptyString => EmptyString
  | String c s' => if Char.is_space c then lstrip s' else s
  end.

(** [s.rstrip()] *)
Fixpoint rstrip (s : string) : string :=
  match s with
  | EmptyString => EmptyString
  | String c s' =>
      match rstrip s' with
      | EmptyString => if Char.is_space c then EmptyString else String c EmptyString
      | r => String c r
      end
  end.

(** [s.strip()] *)
Definition strip (s : string) : string := rstrip (lstrip s).

Definition starts_word (s : string) : bool :=
  match s with
  | EmptyString => false
  | String c _ => negb (Char.is_space c)
  end.

Definition cons_word (c : ascii) (ws : list string) : list string :=
  match ws with
  | [] => [String c EmptyString]
  | w :: ws' => String c w :: ws'
  end.

(** [s.split()]: the maximal runs of non-whitespace characters. *)
Fixpoint split (s : string) : list string :=
  match s with
  | EmptyString => []
  | String c s' =>
      if Char.is_space c then split s'
      else if starts_word s' then cons_word c (split s')
      else String c EmptyString :: split s'
  end.

(** [s.startswith(p)] *)
Fixpoint startswith (p s : string) : bool :=
  match p, s with
  | EmptyString, _ => true
  | String a p', String b s' => Ascii.eqb a b && startswith p' s'
  | String _ _, EmptyString => false
  end.

(** [sub in s] *)
Fixpoint contains (sub s : string) : bool :=
  startswith sub s ||
  match s with
  | EmptyString => false
  | String _ s' => contains sub s'
  end.

(** [s.replace] of the space character by nothing *)
Fixpoint remove_spaces (s : string) : string :=
  match s with
  | EmptyString => EmptyString
  | String c s' =>
      if Ascii.eqb c " " then remove_spaces s' else String c (remove_spaces s')
  end.

(** [s[:n]] *)
Fixpoint take (n : nat) (s : string) : string :=
  match n, s with
  | S n', String c s' => String c (take n' s')
  | _, _ => EmptyString
  end.

(** [s[n:]] *)
Fixpoint drop (n : nat) (s : string) : string :=
  match n, s with
  | S n', String _ s' => drop n' s'
  | _, _ => s
  end.

(** [s.find(sub)], [None] for -1 *)
Fixpoint find (sub s : string) : option nat :=
  if startswith sub s then Some 0
  else match s with
       | EmptyString => None
       | String _ s' => S <$> find sub s'
       end.

(** [s.isdigit()] *)
Definition isdigit (s : string) : bool := truthy s && all Char.is_digit_like s.

(** Used to state properties: a string that does not start with
    whitespace, the input after the longest run of characters of a class,
    and the length of that run. *)
Definition no_lead (s : string) : bool :=
  match s with
  | EmptyString => true
  | String c _ => negb (Char.is_space c)
  end.

(** a string that does not end with whitespace *)
Fixpoint no_trail (s : string) : bool :=
  match s with
  | EmptyString => true
  | String c EmptyString => negb (Char.is_space c)
  | String _ s' => no_trail s'
  end.

Fixpoint after_run (cls : ascii -> bool) (s : string) : string :=
  match s with
  | EmptyString => EmptyString
  | String c s' => if cls c then after_run cls s' else s
  end.

Fixpoint run_length (cls : ascii -> bool) (s : string) : nat :=
  match s with
  | EmptyString => 0
  | String c s' => if cls c then S (run_length cls s') else 0
  end.

(** Used to state what a split on runs of a class returns: the pieces
    of [s] between its maximal runs of characters of the class, the empty
    pieces before a leading run and after a trailing one included. *)
Definition starts_in (cls : ascii -> bool) (s : string) : bool :=
  match s with
  | EmptyString => false
  | String c _ => cls c
  end.

Fixpoint fields (cls : ascii -> bool) (s : string) : list string :=
  match s with
  | EmptyString => [EmptyString]
  | String c s' =>
      if cls c then
        if starts_in cls s' then fields cls s' else EmptyString :: fields cls s'
      else cons_word c (fields cls s')
  end.

(** [tok] put in front of the first piece *)
Definition prepend (tok : string) (ts : list string) : list string :=
  match ts with
  | [] => [tok]
  | t :: ts' => (tok ++ t) :: ts'
  end.

End Str.

(** ** Regular expressions

    Every pattern of the script is a sequence of single-character classes
    under a bounded or unbounded repetition, greedy or lazy, with at most
    one capturing group.  [match_items] is the backtracking matcher of
    [re] on such sequences: a greedy repetition takes as many characters
    as it can and gives them back one at a time, a lazy one takes as few
    as it may and adds one at a time. *)

Module Re.

Inductive item : Type :=
| Rep (cls : ascii -> bool) (lo : nat) (hi : option nat) (greedy : bool)
| GOpen
| GClose
| Eos.

Definition regex : Type := list item.

Definition hi_ok (hi : option nat) : bool :=
  match hi with Some 0 => false | _ => true end.

Definition hi_pred (hi : option nat) : option nat := Nat.pred <$> hi.

Section Repeat.
Context {R : Type} (cls : ascii -> bool) (k : string -> option R).

Definition stop (lo : nat) (s : string) : option R :=
  match lo with 0 => k s | S _ => None end.

Fixpoint rep_greedy (lo : nat) (hi : option nat) (s : string) : option R :=
  match s with
  | String c s' =>
      if cls c && hi_ok hi then
        match rep_greedy (Nat.pred lo) (hi_pred hi) s' with
        | Some r => Some r
        | None => stop lo s
        end
      else stop lo s
  | EmptyString => stop lo s
  end.

Fixpoint rep_lazy (lo : nat) (hi : option nat) (s : string) : option R :=
  let more :=
    match s with
    | String c s' =>
        if cls c && hi_ok hi then rep_lazy (Nat.pred lo) (hi_pred hi) s'
        else None
    | EmptyString => None
    end in
  match stop lo s with
  | Some r => Some r
  | None => more
  end.
End Repeat.

(** The state of a match attempt: [g] is the input at the point where the
    group opened, [cap] the text the group captured. The result is the
    captured text and the input left after the match. *)
Fixpoint match_items (r : regex) (g cap s : string) : option (string * string) :=
  match r with
  | [] => Some (cap, s)
  | Rep cls lo hi true :: r' => rep_greedy cls (match_items r' g cap) lo hi s
  | Rep cls lo hi false :: r' => rep_lazy cls (match_items r' g cap) lo hi s
  | GOpen :: r' => match_items r' s cap s
  | GClose :: r' =>
      match_items r' g (Str.take (String.length g - String.length s) g) s
  | Eos :: r' =>
      match s with
      | EmptyString => match_items r' g cap s
      | String _ _ => None
      end
  end.

(** [re.match]: the captured group and the rest of the input. *)
Definition match_here (r : regex) (s : string) : option (string * string) :=
  match_items r EmptyString EmptyString s.

(** [re.fullmatch(r, s)] is not [None]. *)
Definition fullmatch (r : regex) (s : string) : bool :=
  bool_decide (is_Some (match_here (r ++ [Eos])%list s)).

(** [re.search]: the leftmost position with a match; the result is the
    group of that match. *)
Fixpoint search (r : regex) (s : string) : option string :=
  match match_here r s with
  | Some (cap, _) => Some cap
  | None =>
      match s with
      | EmptyString => None
      | String _ s' => search r s'
      end
  end.

(** [re.search(r, s)] used as a truth value. *)
Definition test (r : regex) (s : string) : bool :=
  bool_decide (is_Some (search r s)).

(** The scanning loop of [re.findall], [re.split] and [re.sub]: a match
    is tried at each position that the previous match has not consumed;
    [skip] counts the characters of the previous match still to pass. *)
Fixpoint findall_from (r : regex) (skip : nat) (s : string) : list string :=
  match skip, s with
  | S n, String _ s' => findall_from r n s'
  | S _, EmptyString => []
  | 0, _ =>
      match match_here r s, s with
      | Some (cap, rest), String _ s' =>
          cap :: findall_from r (String.length s' - String.length rest) s'
      | Some (cap, _), EmptyString => [cap]
      | None, String _ s' => findall_from r 0 s'
      | None, EmptyString => []
      end
  end.

(** [re.findall(r, s)] for a pattern with one group. *)
Definition findall (r : regex) (s : string) : list string := findall_from r 0 s.

(** [re.split(r, s)] for a pattern that matches no empty string and has
    no group; [tok] holds the characters of the current token. *)
Fixpoint split_from (r : regex) (skip : nat) (tok : string) (s : string)
  : list string :=
  match skip, s with
  | S n, String _ s' => split_from r n tok s'
  | S _, EmptyString => [tok]
  | 0, EmptyString => [tok]
  | 0, String c s' =>
      match match_here r s with
      | Some (_, rest) =>
          if Nat.ltb (String.length rest) (String.length s) then
            tok ::
              split_from r (String.length s' - String.length rest) EmptyString s'
          else split_from r 0 (tok ++ String c EmptyString) s'
      | None => split_from r 0 (tok ++ String c EmptyString) s'
      end
  end.

Definition split (r : regex) (s : string) : list string :=
  split_from r 0 EmptyString s.

(** [re.sub(r, repl, s)] for a pattern that matches no empty string. *)
Fixpoint sub_from (r : regex) (repl : string) (skip : nat) (s : string) : string :=
  match skip, s with
  | S n, String _ s' => sub_from r repl n s'
  | _, EmptyString => EmptyString
  | 0, String c s' =>
      match match_here r s with
      | Some (_, rest) =>
          if Nat.ltb (String.length rest) (String.length s) then
            repl ++ sub_from r repl (String.length s' - String.length rest) s'
          else String c (sub_from r repl 0 s')
      | None => String c (sub_from r repl 0 s')
      end
  end.

Definition sub (r : regex) (repl s : string) : string := sub_from r repl 0 s.

(** Building patterns. *)
Definition one (cls : ascii -> bool) : item := Rep cls 1 (Some 1) true.
Definition star (cls : ascii -> bool) : item := Rep cls 0 None true.
Definition plus (cls : ascii -> bool) : item := Rep cls 1 None true.
Definition opt (cls : ascii -> bool) : item := Rep cls 0 (Some 1) true.
Definition rep (cls : ascii -> bool) (lo hi : nat) : item := Rep cls lo (Some hi) true.
Definition lazy_star (cls : ascii -> bool) : item := Rep cls 0 None false.

Definition lit (s : string) : regex :=
  (fun c => one (Char.lit c)) <$> list_ascii_of_string s.

Definition lit_nocase (s : string) : regex :=
  (fun c => one (Char.lit_nocase c)) <$> list_ascii_of_string s.

End Re.

(** ** Helpers and heuristics of the script *)

(** [norm]: runs of whitespace become one space, then [strip]. *)
Definition norm (t : string) : string :=
  Str.strip (Re.sub [Re.plus Char.is_space] " " t).

Definition _rejection_substrings : list string :=
  [ "contains svhc"; "cadmium"; "lead"; "cas no"; "ah"; " v "; " volt"; "volts";
    "amp"; "capacity"; "rechargeable"; "watt"; "battery"; "description" ].

Definition re_letter : Re.regex := [Re.one Char.is_letter].
Definition re_alnum : Re.regex := [Re.one Char.is_alnum].
Definition re_digit : Re.regex := [Re.one Char.is_digit].
Definition re_punct : Re.regex := [Re.one Char.is_punct].
Definition re_digits_2_20 : Re.regex := [Re.rep Char.is_digit 2 20].
Definition re_seps : Re.regex := [Re.plus Char.is_sep].

(** The truth value of an optional hint: [None] and the empty string are
    false. *)
Definition hint_truthy (h : option string) : bool :=
  match h with
  | Some s => Str.truthy s
  | None => false
  end.

(** [str(rs_pn_hint)] *)
Definition hint_str (h : option string) : string :=
  match h with
  | Some s => s
  | None => "None"
  end.

Definition looks_like_brand (s : string) : bool :=
  if negb (Str.truthy s) then false
  else
    let s := Str.strip s in
    Re.test re_letter s && Nat.ltb 1 (String.length s).

Definition is_valid_mpn_from_field (candidate : string) (rs_pn_hint : option string)
  : bool :=
  if negb (Str.truthy candidate) then false
  else
    let s := Str.strip candidate in
    if Nat.ltb 6 (List.length (Str.split s)) then false
    else
      let lower := Str.lower s in
      if existsb (fun bad => Str.contains bad lower) _rejection_substrings then false
      else if negb (Re.test re_alnum s) then false
      else if hint_truthy rs_pn_hint &&
              String.eqb (Str.lower (Str.remove_spaces s))
                         (Str.lower (hint_str rs_pn_hint))
      then false
      else true.

Definition heuristic_mpn_candidate (tok : string) (rs_pn_hint : option string)
  : bool :=
  if negb (Str.truthy tok) then false
  else
    let s := Str.strip tok in
    if Nat.ltb 4 (List.length (Str.split s)) then false
    else if Str.contains ":" s then false
    else if negb (Re.test re_alnum s) then false
    else if Re.fullmatch re_digits_2_20 s then
      if hint_truthy rs_pn_hint && String.eqb s (hint_str rs_pn_hint) then false
      else true
    else
      let has_letter := Re.test re_letter s in
      let has_digit := Re.test re_digit s in
      let has_punct := Re.test re_punct s in
      if (has_letter && has_digit) || (has_punct && (has_letter || has_digit))
      then true
      else if has_letter && Nat.leb 3 (String.length s)
              && Nat.eqb (List.length (Str.split s)) 1
      then true
      else false.

(** The retry on split tokens that follows a failed strict validation,
    written out at each of its call sites in the script: when the MPN is
    not empty and not strictly valid, the loop over
    [re.split(r"[\s,;/]+", mpn)] stops at the first token that passes
    [heuristic_mpn_candidate] and takes it as the MPN, and the [else] of
    the loop empties the MPN. *)
Definition first_loose_token (mpn rs_pn : string) : option string :=
  List.find (fun tok => heuristic_mpn_candidate tok (Some rs_pn))
            (Re.split re_seps mpn).

Definition sanitize_mpn (mpn rs_pn : string) : string :=
  if Str.truthy mpn && negb (is_valid_mpn_from_field mpn (Some rs_pn)) then
    match first_loose_token mpn rs_pn with
    | Some tok => tok
    | None => ""
    end
  else mpn.

(** "Success" of a pair of fields, the test that guards every [OK(...)]
    return:
    [(brand and looks_like_brand(brand)) or
     (mpn and (is_valid_mpn_from_field(mpn, rs_pn) or
               heuristic_mpn_candidate(mpn, rs_pn)))] *)
Definition fields_ok (brand mpn rs_pn : string) : bool :=
  (Str.truthy brand && looks_like_brand brand) ||
  (Str.truthy mpn &&
     (is_valid_mpn_from_field mpn (Some rs_pn) ||
      heuristic_mpn_candidate mpn (Some rs_pn))).

(** [brand and "rs" in brand.lower() and "pro" in brand.lower()] *)
Definition is_rs_pro (brand : string) : bool :=
  Str.truthy brand && Str.contains "rs" (Str.lower brand)
  && Str.contains "pro" (Str.lower brand).

(** ** URLs

    The joined and quoted URLs are kept symbolic: the script only hands
    them to the fetcher and to the output row. *)
Inductive url : Type :=
| Url (s : string)
| UrlJoin (base rel : string)      (* urllib.parse.urljoin(base, rel) *)
| UrlQuoted (base term : string).  (* base + urllib.parse.quote_plus(term) *)

Definition site : string := "https://fr.rs-online.com".

(** The truth value of a link: [None] and the empty string are false; a
    URL joined onto [site] or built on a non-empty base is never empty. *)
Definition link_truthy (l : option url) : bool :=
  match l with
  | None => false
  | Some (Url s) => Str.truthy s
  | Some (UrlJoin _ _) => true
  | Some (UrlQuoted _ _) => true
  end.

(** The result of the search-page extractors:
    [(product_link, brand, mpn, status)]. *)
Definition found : Type := option url * string * string * string.

(** ** Raw-scan extractor *)

Definition dquote : ascii := ascii_of_N 34.
Definition squote : ascii := ascii_of_N 39.
Definition backslash : ascii := ascii_of_N 92.

Definition is_quote (c : ascii) : bool := Ascii.eqb c dquote || Ascii.eqb c squote.
Definition not_gt (c : ascii) : bool := negb (Ascii.eqb c ">").
Definition not_lt (c : ascii) : bool := negb (Ascii.eqb c "<").

(** the class of every character but the two quotes, whitespace, [>]
    and the backslash *)
Definition is_link_char (c : ascii) : bool :=
  negb (is_quote c || Char.is_space c || Ascii.eqb c ">" || Ascii.eqb c backslash).

(** [(/web/p/(?:Q+))], with [Q] the class [is_link_char] *)
Definition re_product_link : Re.regex :=
  ([Re.GOpen] ++ Re.lit "/web/p/" ++ [Re.plus is_link_char; Re.GClose])%list.

(** [data-testid=Qbrand-linkQ[^>]*>.*?<span[^>]*>([^<]{1,80})] with [Q]
    either quote, flags [re.I|re.S] *)
Definition re_brand : Re.regex :=
  (Re.lit_nocase "data-testid=" ++ [Re.one is_quote]
   ++ Re.lit_nocase "brand-link" ++ [Re.one is_quote]
   ++ [Re.star not_gt; Re.one (Char.lit ">"); Re.lazy_star Char.any]
   ++ Re.lit_nocase "<span"
   ++ [Re.star not_gt; Re.one (Char.lit ">");
       Re.GOpen; Re.rep not_lt 1 80; Re.GClose])%list.

(** [dd[^>]*data-testid=Qmpn-desktopQ[^>]*>([^<]{1,80})],
    flags [re.I|re.S] *)
Definition re_mpn_dd : Re.regex :=
  (Re.lit_nocase "dd" ++ [Re.star not_gt]
   ++ Re.lit_nocase "data-testid=" ++ [Re.one is_quote]
   ++ Re.lit_nocase "mpn-desktop" ++ [Re.one is_quote]
   ++ [Re.star not_gt; Re.one (Char.lit ">");
       Re.GOpen; Re.rep not_lt 1 80; Re.GClose])%list.

(** [dt[^>]*data-testid=Qmpn-desktopQ[^>]*>[^<]*</dt>\s*<dd[^>]*>([^<]{1,80})],
    flags [re.I|re.S] *)
Definition re_mpn_dt : Re.regex :=
  (Re.lit_nocase "dt" ++ [Re.star not_gt]
   ++ Re.lit_nocase "data-testid=" ++ [Re.one is_quote]
   ++ Re.lit_nocase "mpn-desktop" ++ [Re.one is_quote]
   ++ [Re.star not_gt; Re.one (Char.lit ">"); Re.star not_lt]
   ++ Re.lit_nocase "</dt>" ++ [Re.star Char.is_space]
   ++ Re.lit_nocase "<dd"
   ++ [Re.star not_gt; Re.one (Char.lit ">");
       Re.GOpen; Re.rep not_lt 1 80; Re.GClose])%list.

(** [rs\s*pro], flag [re.I] *)
Definition re_rs_pro : Re.regex :=
  (Re.lit_nocase "rs" ++ [Re.star Char.is_space] ++ Re.lit_nocase "pro")%list.

(** [(\d{2,4}[-]\d{2,4}[-]?\d{0,4})] *)
Definition re_dist : Re.regex :=
  [Re.GOpen; Re.rep Char.is_digit 2 4; Re.one (Char.lit "-");
   Re.rep Char.is_digit 2 4; Re.opt (Char.lit "-"); Re.rep Char.is_digit 0 4;
   Re.GClose].

(** [raw[left:right]] around the first place [m] occurs at:
    [idx = raw.find(m); left = max(0, idx-800); right = min(len(raw), idx+800)] *)
Definition window (raw m : string) : string :=
  let idx : Z := match Str.find m raw with Some i => Z.of_nat i | None => (-1)%Z end in
  let left := Z.max 0 (idx - 800) in
  let right := Z.min (Z.of_nat (String.length raw)) (idx + 800) in
  Str.drop (Z.to_nat left) (Str.take (Z.to_nat right) raw).

Definition snippet_brand (snippet : string) : string :=
  match Re.search re_brand snippet with
  | Some g => Str.strip g
  | None => ""
  end.

Definition snippet_mpn (snippet rs_pn : string) : string :=
  let mmpn :=
    match Re.search re_mpn_dd snippet with
    | Some g => Some g
    | None => Re.search re_mpn_dt snippet
    end in
  match mmpn with
  | Some g =>
      let cand := Str.strip g in
      if is_valid_mpn_from_field cand (Some rs_pn) then cand
      else match first_loose_token cand rs_pn with
           | Some tok => tok
           | None => ""
           end
  | None => ""
  end.

Definition snippet_dist (snippet brand mpn rs_pn : string) : string :=
  if negb (Str.truthy mpn) && (is_rs_pro brand || Re.test re_rs_pro snippet) then
    match Re.search re_dist snippet with
    | Some g =>
        let cand := Str.strip g in
        if is_valid_mpn_from_field cand (Some rs_pn) then cand else mpn
    | None => mpn
    end
  else mpn.

(** The brand and the MPN read off the window around [m]. *)
Definition snippet_fields (raw rs_pn m : string) : string * string :=
  let snippet := window raw m in
  let brand := snippet_brand snippet in
  let mpn := snippet_mpn snippet rs_pn in
  (brand, snippet_dist snippet brand mpn rs_pn).

(** The body of [for m in matches]: the first match that contains the
    RS_PN and yields a brand or an MPN returns. *)
Fixpoint scan_matches (raw rs_pn : string) (ms : list string) : option found :=
  match ms with
  | [] => None
  | m :: ms' =>
      if Str.contains rs_pn m then
        let '(brand, mpn) := snippet_fields raw rs_pn m in
        if Str.truthy brand || Str.truthy mpn
        then Some (Some (UrlJoin site m), brand, mpn, "OK(raw-snippet)")
        else scan_matches raw rs_pn ms'
      else scan_matches raw rs_pn ms'
  end.

(** Used to state properties: [m] holds the RS_PN and its window yields
    a brand or an MPN. *)
Definition snippet_hit (raw rs_pn m : string) : bool :=
  Str.contains rs_pn m &&
  (Str.truthy (fst (snippet_fields raw rs_pn m))
   || Str.truthy (snd (snippet_fields raw rs_pn m))).

Definition aggressive_search_scan (search_html rs_pn : string) : found :=
  let raw := search_html in
  let matches := Re.findall re_product_link raw in
  match matches with
  | [] => (None, "", "", "NO_RAW_LINKS")
  | first :: _ =>
      match scan_matches raw rs_pn matches with
      | Some r => r
      | None => (Some (UrlJoin site first), "", "", "OK(raw-first)")
      end
  end.

(** ** The parsed document

    The operations of the HTML parsing library that the extractors call,
    as an interface: the extractors are written once, over any
    implementation of it. *)
Class Soup (node : Type) : Type := {
  (** [BeautifulSoup(html, "html.parser")] *)
  parse : string -> node;
  (** [tag.name] *)
  name : node -> string;
  (** [tag.parent] *)
  parent : node -> option node;
  (** [a["href"]] *)
  href : node -> string;
  (** [tag.get_text(sep, strip=True)] *)
  get_text : string -> node -> string;
  (** [soup.find_all("a", href=True)] *)
  find_all_links : node -> list node;
  (** [tag.find(name)] *)
  find_tag : node -> string -> option node;
  (** [tag.find_all(name)] *)
  find_all_tag : node -> string -> list node;
  (** [tag.find(name, {"data-testid": value})] *)
  find_testid : node -> string -> string -> option node;
  (** [tag.find(predicate)] *)
  find_where : node -> (node -> bool) -> option node;
  (** [tag.find_next_sibling(name)], [tag.find_next_sibling()] *)
  find_next_sibling : node -> option string -> option node
}.

(** the label text, with e-acute at its second and fourth place *)
Definition label_reference_fabricant : string :=
  "r" ++ String (ascii_of_N 233) ("f" ++ String (ascii_of_N 233) "rence fabricant").

Section Extractors.
Context {node : Type} `{Soup node}.

(** [tag.get_text(strip=True)] as a truth value *)
Definition has_text (t : node) : bool := Str.truthy (get_text "" t).

(** [norm(tag.get_text(" ", strip=True))] *)
Definition field_text (t : node) : string := norm (get_text " " t).

(** [nxt = dt.find_next_sibling("dd")] and its text, when it has some *)
Definition next_dd_text (dt : node) : option string :=
  match find_next_sibling dt (Some "dd") with
  | Some nxt => if has_text nxt then Some (field_text nxt) else None
  | None => None
  end.

(** the loop [for dt in container.find_all("dt")] of the distrelec helper *)
Fixpoint distrelec_by_label (dts : list node) : string :=
  match dts with
  | [] => ""
  | dt :: rest =>
      if Str.contains "distrelec" (Str.lower (get_text " " dt)) then
        match next_dd_text dt with
        | Some t => t
        | None => distrelec_by_label rest
        end
      else distrelec_by_label rest
  end.

Definition extract_distrelec_from_container (container : node) : string :=
  let by_dt :=
    match find_testid container "dt" "distrelec-desktop" with
    | Some dt => next_dd_text dt
    | None => None
    end in
  let rest :=
    match by_dt with
    | Some t => t
    | None => distrelec_by_label (find_all_tag container "dt")
    end in
  match find_testid container "dd" "distrelec-desktop" with
  | Some dd => if has_text dd then field_text dd else rest
  | None => rest
  end.

(** [span.get_text(strip=True) if span else tag.get_text(" ", strip=True)],
    normalised *)
Definition span_or_own_text (t : node) : string :=
  norm (match find_tag t "span" with
        | Some span => get_text "" span
        | None => get_text " " t
        end).

(** [container.find("dt", {"data-testid": "mpn-desktop"}) or
     container.find(lambda t: t.name == "dt" and <label> in text.lower())] *)
Definition find_mpn_dt (container : node) : option node :=
  match find_testid container "dt" "mpn-desktop" with
  | Some dt => Some dt
  | None =>
      find_where container
        (fun t => String.eqb (name t) "dt" &&
                  Str.contains label_reference_fabricant
                               (Str.lower (get_text " " t)))
  end.

(** [if is_valid_mpn_from_field(candidate, rs_pn_hint): mpn = candidate] *)
Definition strict (candidate : string) (rs_pn_hint : option string) : string :=
  if is_valid_mpn_from_field candidate rs_pn_hint then candidate else "".

(** the same with the product page's [else]: a candidate of digits that
    is not the RS_PN is kept *)
Definition strict_or_digits (candidate : string) (rs_pn_hint : option string)
  : string :=
  if is_valid_mpn_from_field candidate rs_pn_hint then candidate
  else if Str.isdigit candidate &&
          (negb (hint_truthy rs_pn_hint) ||
           negb (String.eqb candidate (hint_str rs_pn_hint)))
  then candidate
  else "".

(** the in-house brand substitution:
    [if (not mpn) and brand and "rs" in ... and "pro" in ...] *)
Definition with_distrelec (container : node) (brand mpn : string)
    (rs_pn_hint : option string) : string :=
  if negb (Str.truthy mpn) && is_rs_pro brand then
    let dist := extract_distrelec_from_container container in
    if Str.truthy dist && is_valid_mpn_from_field dist rs_pn_hint
    then dist else mpn
  else mpn.

(** Brand and MPN of a card: the body of the ancestor walk. *)
Definition card_fields (container : node) (rs_pn : string) : string * string :=
  let brand :=
    match find_testid container "a" "brand-link" with
    | Some brand_a => span_or_own_text brand_a
    | None => ""
    end in
  let by_dt :=
    match find_mpn_dt container with
    | Some dtmpn =>
        match next_dd_text dtmpn with
        | Some candidate => strict candidate (Some rs_pn)
        | None => ""
        end
    | None => ""
    end in
  let mpn :=
    match find_testid container "dd" "mpn-desktop" with
    | Some ddmpn =>
        if has_text ddmpn then strict (field_text ddmpn) (Some rs_pn) else by_dt
    | None => by_dt
    end in
  let mpn := with_distrelec container brand mpn (Some rs_pn) in
  (brand, sanitize_mpn mpn rs_pn).

(** Brand and MPN of the element after the anchor. *)
Definition sibling_fields (sibling : node) (rs_pn : string) : string * string :=
  let brand :=
    match find_testid sibling "a" "brand-link" with
    | Some brand_a => span_or_own_text brand_a
    | None => ""
    end in
  let mpn :=
    match find_testid sibling "dd" "mpn-desktop" with
    | Some ddmpn =>
        if has_text ddmpn then strict (field_text ddmpn) (Some rs_pn) else ""
    | None => ""
    end in
  let mpn := with_distrelec sibling brand mpn (Some rs_pn) in
  (brand, sanitize_mpn mpn rs_pn).

(** [for _ in range(4)]: up to four levels, from the anchor upwards. *)
Fixpoint walk_up (levels : nat) (container : option node)
    (product_url : url) (rs_pn : string) : option found :=
  match levels, container with
  | S levels', Some c =>
      let up := walk_up levels' (parent c) product_url rs_pn in
      if existsb (String.eqb (name c)) ["article"; "li"; "div"] then
        let '(brand, mpn) := card_fields c rs_pn in
        if fields_ok brand mpn rs_pn
        then Some (Some product_url, brand, mpn, "OK(search-card)")
        else up
      else up
  | _, _ => None
  end.

Definition try_sibling (anchor : node) (product_url : url) (rs_pn : string)
  : option found :=
  match find_next_sibling anchor None with
  | Some sibling =>
      let '(brand, mpn) := sibling_fields sibling rs_pn in
      if fields_ok brand mpn rs_pn
      then Some (Some product_url, brand, mpn, "OK(search-sibling)")
      else None
  | None => None
  end.

(** A candidate link: [(score, a, full)]. *)
Definition candidate : Type := nat * node * url.

Definition candidate_of (rs_pn : string) (a : node) : option candidate :=
  let href := href a in
  if Str.contains "/web/p/" href then
    let full := if Str.startswith "http" href then Url href else UrlJoin site href in
    let score :=
      1 + (if Str.contains rs_pn href || Str.contains rs_pn (get_text " " a)
           then 10 else 0) in
    Some (score, a, full)
  else None.

(** [candidates.sort(key=lambda x: x[0], reverse=True)]: by descending
    score, candidates of one score in their order in the page. *)
Fixpoint insert_by_score (x : candidate) (l : list candidate) : list candidate :=
  match l with
  | [] => [x]
  | y :: l' =>
      if Nat.ltb (fst (fst x)) (fst (fst y)) then y :: insert_by_score x l'
      else x :: l
  end.

Definition sort_by_score (l : list candidate) : list candidate :=
  foldr insert_by_score [] l.

Fixpoint try_candidates (cs : list candidate) (rs_pn : string) : option found :=
  match cs with
  | [] => None
  | (_, anchor, product_url) :: cs' =>
      match walk_up 4 (Some anchor) product_url rs_pn with
      | Some r => Some r
      | None =>
          match try_sibling anchor product_url rs_pn with
          | Some r => Some r
          | None => try_candidates cs' rs_pn
          end
      end
  end.

Definition parse_search_page_for_fields (search_html rs_pn : string) : found :=
  let soup := parse search_html in
  let anchors := find_all_links soup in
  let candidates := omap (candidate_of rs_pn) anchors in
  match sort_by_score candidates with
  | [] => (None, "", "", "SEARCH_NO_PRODUCT_LINK")
  | ((_, _, top) :: _) as candidates =>
      match try_candidates candidates rs_pn with
      | Some r => r
      | None => (Some top, "", "", "OK_FOUND_anchor_no_card_fields")
      end
  end.

(** Returns [(mpn, brand)]. *)
Definition parse_product_page_for_fields (html_text : string)
    (rs_pn_hint : option string) : string * string :=
  let soup := parse html_text in
  let brand :=
    match find_testid soup "a" "brand-link" with
    | Some a_brand => if has_text a_brand then span_or_own_text a_brand else ""
    | None => ""
    end in
  let brand :=
    if negb (Str.truthy brand) then
      match find_testid soup "dd" "brand-desktop" with
      | Some dd_brand => span_or_own_text dd_brand
      | None => brand
      end
    else brand in
  let by_dt :=
    match find_mpn_dt soup with
    | Some dtmpn =>
        match next_dd_text dtmpn with
        | Some candidate => strict_or_digits candidate rs_pn_hint
        | None => ""
        end
    | None => ""
    end in
  let mpn :=
    match find_testid soup "dd" "mpn-desktop" with
    | Some ddmpn =>
        if has_text ddmpn then strict_or_digits (field_text ddmpn) rs_pn_hint
        else by_dt
    | None => by_dt
    end in
  let mpn := with_distrelec soup brand mpn rs_pn_hint in
  (mpn, brand).

End Extractors.

(** ** The fetcher and the effects of a lookup

    The lookup reads the network and writes diagnostic pages.  Both are
    threaded through a state: the number of [requests.get] calls made so
    far and the calls of [write_text] made so far.  What the network
    answers is given from outside, call by call.  The state keeps the
    writes as a log, not the directory they go to: a later write under a
    name replaces the file of that name, and a write that fails is caught
    where it is made and only reported. *)

Inductive reply : Type :=
| Raised (e : string)                          (* an exception, as [str(e)] *)
| Response (status_code : N) (text : string).

Record world : Type := World {
  gets : nat;                                  (* calls of [requests.get] made *)
  failed_pages : list (string * string)        (* calls of [write_text] under
                                                  [failed_pages/], oldest
                                                  first: file name, text *)
}.

Definition M (A : Type) : Type := world -> A * world.

Definition ret {A : Type} (a : A) : M A := fun w => (a, w).

Definition bind {A B : Type} (m : M A) (f : A -> M B) : M B :=
  fun w => let '(a, w') := m w in f a w'.

Notation "'let*' x ':=' m 'in' k" := (bind m (fun x => k))
  (at level 10, x pattern, m at level 100, k at level 200).

Definition MAX_RETRIES : nat := 3.

(** [str(n)] of a status code *)
Definition str_of_code (n : N) : string := NilZero.string_of_uint (N.to_uint n).

Section Lookup.
Context {node : Type} `{Soup node}.

(** [requests_get k u]: the outcome of [requests.get(u, ...)] when it is
    the [k]-th call. *)
Variable requests_get : nat -> url -> reply.

Definition get (u : url) : M reply :=
  fun w => (requests_get (gets w) u,
            {| gets := S (gets w); failed_pages := failed_pages w |}).

(** [attempts_left] counts the attempts left after this one; the
    exception of the last attempt is raised again. *)
Fixpoint safe_get_from (attempts_left : nat) (u : url) : M reply :=
  let* r := get u in
  match r, attempts_left with
  | Response code text, _ => ret (Response code text)
  | Raised e, 0 => ret (Raised e)
  | Raised _, S n => safe_get_from n u
  end.

Definition safe_get (u : url) : M reply := safe_get_from (MAX_RETRIES - 1) u.

(** One call of [write_text], on [failed_pages/{rs_pn}_{suffix}.html];
    the [try] around it catches a write that fails, so that the helper
    itself never raises. *)
Definition save_failed_html (rs_pn html_text suffix : string) : M unit :=
  fun w => (tt, {| gets := gets w;
                   failed_pages :=
                     failed_pages w ++ [(rs_pn ++ "_" ++ suffix ++ ".html", html_text)]
                |}).

Definition search_rs_for_part_combined (rs_pn : string) : M found :=
  let url := UrlQuoted "https://fr.rs-online.com/web/c/?searchTerm=" rs_pn in
  let* r := safe_get url in
  match r with
  | Raised e => ret (None, "", "", "SEARCH_ERROR:" ++ e)
  | Response code text =>
      if negb (N.eqb code 200) then
        let* _ := save_failed_html rs_pn text ("search_http_" ++ str_of_code code) in
        ret (None, "", "", "SEARCH_HTTP_" ++ str_of_code code)
      else
        let '(product_link, brand, mpn, status) :=
          parse_search_page_for_fields text rs_pn in
        if link_truthy product_link && (Str.truthy brand || Str.truthy mpn)
        then ret (product_link, brand, mpn, status)
        else
          let '(pl2, b2, m2, st2) := aggressive_search_scan text rs_pn in
          if link_truthy pl2 then
            if Str.truthy b2 || Str.truthy m2 then ret (pl2, b2, m2, st2)
            else ret (pl2, "", "", st2)
          else
            let* _ := save_failed_html rs_pn text "search_no_link_raw" in
            ret (None, "", "", "SEARCH_NO_PRODUCT_LINK")
  end.

(** The result of a lookup: [(mpn, brand, product_url, status)]. *)
Definition info : Type := string * string * url * string.

Definition no_url : url := Url "".

(** the last stage: follow the product link *)
Definition follow_link (rs_pn : string) (product_link : url) : M info :=
  let* r2 := safe_get product_link in
  match r2 with
  | Raised e => ret ("", "", product_link, "ERROR_FETCH_PRODUCT:" ++ e)
  | Response code text =>
      if negb (N.eqb code 200) then
        let* _ := save_failed_html rs_pn text ("product_http_" ++ str_of_code code) in
        ret ("", "", product_link, "PRODUCT_HTTP_" ++ str_of_code code)
      else
        let '(mpn2, brand2) := parse_product_page_for_fields text (Some rs_pn) in
        if fields_ok brand2 mpn2 rs_pn
        then ret (mpn2, brand2, product_link, "OK(search->product)")
        else
          let* _ := save_failed_html rs_pn text "product_fields_missing_after_search" in
          ret ("", "", product_link, "PRODUCT_PAGE_FIELDS_MISSING")
  end.

(** the middle stage: the search page *)
Definition search_stage (rs_pn : string) : M info :=
  let* (product_link, brand_s, mpn_s, status) := search_rs_for_part_combined rs_pn in
  match product_link with
  | Some link =>
      if negb (link_truthy product_link) then ret ("", "", no_url, status)
      else if fields_ok brand_s mpn_s rs_pn then
        let mpn_clean := sanitize_mpn mpn_s rs_pn in
        ret (mpn_clean, brand_s, link, "OK(search:" ++ status ++ ")")
      else follow_link rs_pn link
  | None => ret ("", "", no_url, status)
  end.

Definition fetch_rs_info (rs_pn : string) : M info :=
  let direct_url := Url ("https://fr.rs-online.com/web/p/" ++ rs_pn ++ "/") in
  let* r := safe_get direct_url in
  match r with
  | Raised e => ret ("", "", no_url, "ERROR_DIRECT:" ++ e)
  | Response code text =>
      if N.eqb code 200 then
        let '(mpn, brand) := parse_product_page_for_fields text (Some rs_pn) in
        if fields_ok brand mpn rs_pn
        then ret (mpn, brand, direct_url, "OK(direct)")
        else
          let* _ := save_failed_html rs_pn text "direct_fields_missing" in
          search_stage rs_pn
      else search_stage rs_pn
  end.

End Lookup.

(** ** The batch loop *)

Record row : Type := Row {
  RS_PN : string;
  Manufacturer_PN : string;
  Brand : string;
  Product_URL : url;
  Status : string
}.

(** [fieldnames] of the [csv.DictWriter] *)
Definition FIELDNAMES : list string :=
  ["RS_PN"; "Manufacturer_PN"; "Brand"; "Product_URL"; "Status"].

(** The output file, by what has been written to it: [None] while it
    does not exist; else whether it begins with the header line, and the
    rows written to it.  The script writes the header only when it
    creates the file, so an output file that was there and empty gets
    rows and no header.  A file of any other content is not
    represented. *)
Record csv_file : Type := CsvFile {
  header : bool;
  data_rows : list row
}.

Definition output : Type := option csv_file.

Definition rows_of (f : output) : list row :=
  match f with
  | Some c => data_rows c
  | None => []
  end.

(** pandas, as the resume helper uses it.  [read_csv c] is what
    [pd.read_csv(output_file, dtype=str)] makes of the file: [None] when
    it raises, else a frame, given by the names of its columns and, for a
    name, by [df[name].astype(str).tolist()]. *)
Record frame : Type := Frame {
  columns : list string;
  column : string -> list string
}.

Class Pandas : Type := { read_csv : csv_file -> option frame }.

Definition load_already_done {pd : Pandas} (output_file : output) : gset string :=
  match output_file with
  | None => ∅                          (* [os.path.exists] is false *)
  | Some file =>
      match read_csv file with
      | None => ∅                      (* [except Exception: pass] *)
      | Some df_done =>
          if bool_decide ("RS_PN" ∈ columns df_done)
          then list_to_set (Str.strip <$> column df_done "RS_PN")
          else ∅
      end
  end.

(** [header = not os.path.exists(OUTPUT_FILE)], [open(OUTPUT_FILE, "a")],
    the header when the file is new, the row *)
Definition append_row (f : output) (r : row) : output :=
  match f with
  | Some c => Some (CsvFile (header c) (data_rows c ++ [r]))
  | None => Some (CsvFile true [r])
  end.

Section Batch.
Context {pd : Pandas}.
(** The lookup as the loop sees it: it returns its four values or
    raises ([inl e], with [e] the text of the exception). *)
Variable fetch : string -> M (string + (string * string * url * string)).

(** the [try]/[except Exception] around the lookup, and the row *)
Definition lookup_row (rs_pn : string) : M row :=
  let* r := fetch rs_pn in
  match r with
  | inr (mpn, brand, product_url, status) =>
      ret (Row rs_pn mpn brand product_url status)
  | inl e =>
      ret (Row rs_pn "" "" (Url "") ("EXCEPTION:" ++ e))
  end.

Fixpoint batch_loop (already_done : gset string) (rs_list : list string)
    (f : output) : M output :=
  match rs_list with
  | [] => ret f
  | rs_pn :: rest =>
      if negb (Str.truthy rs_pn) then batch_loop already_done rest f
      else if bool_decide (rs_pn ∈ already_done) then batch_loop already_done rest f
      else
        let* r := lookup_row rs_pn in
        batch_loop already_done rest (append_row f r)
  end.

(** [input] is the RS_PN column of the input file, blank cells as empty
    strings; [None] when no input file is found. *)
Definition main (input : option (list string)) (f : output) : M output :=
  match input with
  | None => ret f
  | Some cells =>
      let rs_list := Str.strip <$> cells in
      let already_done := load_already_done f in
      batch_loop already_done rs_list f
  end.
End Batch.

(** The script's [main]: the loop around [fetch_rs_info]. *)
Definition run {node : Type} `{Soup node} {pd : Pandas}
    (requests_get : nat -> url -> reply)
  : option (list string) -> output -> M output :=
  main (fun rs_pn => let* r := fetch_rs_info requests_get rs_pn in ret (inr r)).


(** ** Vocabulary of the properties *)

(** A status that is tagged as a success. *)
Definition is_success (status : string) : bool := Str.startswith "OK(" status.

(** An MPN as the search-page extractors return it: empty, or strictly
    valid, or a single split token that passes the loose heuristic. *)
Definition mpn_sound (mpn rs_pn : string) : Prop :=
  mpn = ""
  \/ is_valid_mpn_from_field mpn (Some rs_pn) = true
  \/ (heuristic_mpn_candidate mpn (Some rs_pn) = true
      /\ Str.any Char.is_sep mpn = false).

(** what a result of a search-page extractor is required to satisfy *)
Definition found_sound (rs_pn : string) (r : found) : Prop :=
  mpn_sound r.1.2 rs_pn.

(** what a lookup tagged as a success is required to satisfy *)
Definition info_ok (rs_pn : string) (r : string * string * url * string) : Prop :=
  is_success r.2 = true ->
  looks_like_brand r.1.1.2 = true
  \/ is_valid_mpn_from_field r.1.1.1 (Some rs_pn) = true
  \/ heuristic_mpn_candidate r.1.1.1 (Some rs_pn) = true.

(** [post m P]: [P] holds of the value of [m], from any state. *)
Definition post {A} (m : M A) (P : A -> Prop) : Prop := forall w, P (m w).1.

(** the identifiers a run looks up: not blank, not already done *)
Definition todo (already_done : gset string) (rs_pn : string) : bool :=
  Str.truthy rs_pn && negb (bool_decide (rs_pn ∈ already_done)).

(** the row the loop writes for an outcome of the lookup *)
Definition row_of (rs_pn : string)
    (r : string + (string * string * url * string)) : row :=
  match r with
  | inr (mpn, brand, product_url, status) => Row rs_pn mpn brand product_url status
  | inl e => Row rs_pn "" "" (Url "") ("EXCEPTION:" ++ e)
  end.

Definition append_rows (f : output) (rows : list row) : output :=
  foldl append_row f rows.

(** [lookups fetch w ids rows w']: looking up the identifiers [ids] one
    after the other from the state [w], each lookup starting in the state
    the one before it ended in, writes the rows [rows] and ends in [w']. *)
Inductive lookups (fetch : string -> M (string + (string * string * url * string)))
  : world -> list string -> list row -> world -> Prop :=
| lookups_nil w : lookups fetch w [] [] w
| lookups_cons w rs_pn ids r rows w1 w2 :
    lookup_row fetch rs_pn w = (r, w1) ->
    lookups fetch w1 ids rows w2 ->
    lookups fetch w (rs_pn :: ids) (r :: rows) w2.

(** the number of times [x] occurs in [l] *)
Definition occurrences (x : string) (l : list string) : nat :=
  List.length (List.filter (String.eqb x) l).

(** an output file that the script began: none yet, or one under the
    header *)
Definition under_header (f : output) : Prop :=
  match f with
  | Some c => header c = true
  | None => True
  end.

(** [reads_back plain]: pandas reads a file under the header back as it
    was written, when its rows are [plain]: the frame has a column RS_PN,
    and this column holds the RS_PN cells of the rows, in their order.
    What is plain is for pandas to say; an identifier that it takes for a
    missing value (NA, for one) is not. *)
Definition reads_back {pd : Pandas} (plain : row -> Prop) : Prop :=
  forall rows, Forall plain rows ->
    exists df, read_csv (CsvFile true rows) = Some df
               /\ "RS_PN" ∈ columns df
               /\ column df "RS_PN" = RS_PN <$> rows.

(** an alphabetic character, as the specification of [looks_like_brand]
    has it: a letter of Unicode, which below 256 is what [str.isalpha]
    answers.  These are the letters of [Char.is_letter] and three more:
    the ordinal indicators (170, 186) and the micro sign (181). *)
Definition is_alphabetic (c : ascii) : bool :=
  Char.in_range 65 90 c || Char.in_range 97 122 c
  || (Char.code c =? 170)%N || (Char.code c =? 181)%N || (Char.code c =? 186)%N
  || Char.in_range 192 214 c || Char.in_range 216 246 c || Char.in_range 248 255 c.

(** [looks_like_brand] as its specification words it: stripped, the
    string is not empty, holds an alphabetic character and is longer than
    one character *)
Definition looks_like_brand_as_specified (s : string) : bool :=
  let s := Str.strip s in
  Str.truthy s && Str.any is_alphabetic s && Nat.ltb 1 (String.length s).

(** ** Fixtures *)

Definition world0 : world := {| gets := 0; failed_pages := [] |}.

(** a lookup that raises for one identifier and succeeds for the others *)
Definition fetch_fixed : string -> M (string + (string * string * url * string)) :=
  fun rs_pn w =>
    if String.eqb rs_pn "666-666" then (inl "boom", w)
    else (inr ("MPN-1", "ACME", Url "https://fr.rs-online.com/web/p/1/", "OK(direct)"), w).

(** The soup of a document without markup: it has no element, and its
    text is the document. *)
Definition plain_text : Soup string := {|
  parse := fun html => html;
  name := fun _ => "[document]";
  parent := fun _ => None;
  href := fun _ => "";
  get_text := fun _ t => Str.strip t;
  find_all_links := fun _ => [];
  find_tag := fun _ _ => None;
  find_all_tag := fun _ _ => [];
  find_testid := fun _ _ _ => None;
  find_where := fun _ _ => None;
  find_next_sibling := fun _ _ => None
|}.

(** A reader for the examples: it takes the first line of the file for
    the names of the columns and returns the cells of the lines under it
    as they were written; it raises on an empty file.  A URL is shown as
    its parts written one after the other. *)
Definition url_shown (u : url) : string :=
  match u with
  | Url s => s
  | UrlJoin base rel => base ++ rel
  | UrlQuoted base term => base ++ term
  end.

Definition cells_of (r : row) : list string :=
  [RS_PN r; Manufacturer_PN r; Brand r; url_shown (Product_URL r); Status r].

Fixpoint index_of (name : string) (names : list string) : option nat :=
  match names with
  | [] => None
  | n :: names' =>
      if String.eqb name n then Some 0 else S <$> index_of name names'
  end.

Definition pandas_fixed : Pandas := {|
  read_csv := fun c =>
    match ((if header c then [FIELDNAMES] else []) ++ (cells_of <$> data_rows c))%list with
    | [] => None
    | names :: data =>
        Some (Frame names
                (fun name =>
                   match index_of name names with
                   | Some k => (fun cells => nth k cells "") <$> data
                   | None => []
                   end))
    end
|}.

(** a network on which the product page is missing and the search
    answers with a line of text *)
Definition requests_get_fixed : nat -> url -> reply :=
  fun _ u =>
    match u with
    | Url _ => Response 404 "Not Found"
    | UrlQuoted _ _ => Response 200 "RS PRO 12-345 /web/p/123-456/"
    | UrlJoin _ _ => Raised "timed out"
    end.

(** ** Vocabulary of the further properties *)

(** [sep.join(ws)] *)
Fixpoint join (sep : string) (ws : list string) : string :=
  match ws with
  | [] => ""
  | [w] => w
  | w :: ws' => w ++ sep ++ join sep ws'
  end.

(** every maximal run of whitespace replaced by one space *)
Fixpoint squeeze (s : string) : string :=
  match s with
  | EmptyString => EmptyString
  | String c s' =>
      if Char.is_space c then
        if Str.starts_in Char.is_space s' then squeeze s'
        else String " " (squeeze s')
      else String c (squeeze s')
  end.

(** a word: not empty, without whitespace *)
Definition wordlike (w : string) : Prop :=
  w <> "" /\ Str.any Char.is_space w = false.

(** a pattern without group marks *)
Definition group_free (r : Re.regex) : bool :=
  forallb (fun i => match i with Re.GOpen | Re.GClose => false | _ => true end) r.

(** the characters the items of a pattern accept *)
Definition accepts (r : Re.regex) (c : ascii) : bool :=
  existsb (fun i => match i with Re.Rep cls _ _ _ => cls c | _ => false end) r.

(** the most characters a pattern can take, when every repetition in it
    is bounded *)
Fixpoint span_bound (r : Re.regex) : option nat :=
  match r with
  | [] => Some 0
  | Re.Rep _ _ (Some hi) _ :: r' => Nat.add hi <$> span_bound r'
  | Re.Rep _ _ None _ :: _ => None
  | _ :: r' => span_bound r'
  end.

(** a field as the raw scan returns it: at most 80 characters, none of
    them [<], no whitespace at either end *)
Definition short_field (s : string) : Prop :=
  String.length s <= 80 /\ Str.all not_lt s = true /\ Str.strip s = s.

(** the score of a candidate link *)
Definition score {node : Type} (c : candidate (node := node)) : nat := c.1.1.

(** an MPN of the card extractors: normalised, and empty or strictly valid *)
Definition strict_mpn (rs_pn_hint : option string) (mpn : string) : Prop :=
  norm mpn = mpn /\ (mpn = "" \/ is_valid_mpn_from_field mpn rs_pn_hint = true).

(** a result that carries the fields of a card *)
Definition card_hit (rs_pn : string) (u : url) (r : found) : Prop :=
  exists brand mpn,
    fields_ok brand mpn rs_pn = true
    /\ norm brand = brand
    /\ strict_mpn (Some rs_pn) mpn
    /\ (r = (Some u, brand, mpn, "OK(search-card)")
        \/ r = (Some u, brand, mpn, "OK(search-sibling)")).

(** [effect m P]: from any state, [m] makes some number [n] of calls of
    [requests.get] and the calls [new] of [write_text], and [P a n new]
    holds of its value [a]. *)
Definition effect {A} (m : M A)
    (P : A -> nat -> list (string * string) -> Prop) : Prop :=
  forall w, exists n new,
    gets (m w).2 = gets w + n
    /\ failed_pages (m w).2 = (failed_pages w ++ new)%list
    /\ P (m w).1 n new.

(** the writes [new] are all on files named after [rs_pn] *)
Definition named_after (rs_pn : string) (new : list (string * string)) : Prop :=
  Forall (fun p => Str.startswith (rs_pn ++ "_") p.1 = true) new.

(** what a stage that makes one fetch does: at most [MAX_RETRIES] calls,
    at most one page, named after the identifier *)
Definition one_fetch (rs_pn : string) (n : nat) (new : list (string * string)) : Prop :=
  1 <= n <= MAX_RETRIES /\ List.length new <= 1 /\ named_after rs_pn new.

(** the outcome of the last two stages *)
Definition bare_or_linked (r : info) : Prop :=
  (is_success r.2 = false -> r.1.1.1 = "" /\ r.1.1.2 = "")
  /\ (is_success r.2 = true -> link_truthy (Some r.1.2) = true).

(** the lookup of [run], as the loop sees it *)
Definition fetch_of {node : Type} `{Soup node} (requests_get : nat -> url -> reply)
  : string -> M (string + (string * string * url * string)) :=
  fun rs_pn => let* r := fetch_rs_info requests_get rs_pn in ret (inr r).

(** a row of a lookup that ended well, or of one that found nothing *)
Definition row_settled (r : row) : Prop :=
  (is_success (Status r) = true
   /\ link_truthy (Some (Product_URL r)) = true
   /\ (looks_like_brand (Brand r) = true
       \/ is_valid_mpn_from_field (Manufacturer_PN r) (Some (RS_PN r)) = true
       \/ heuristic_mpn_candidate (Manufacturer_PN r) (Some (RS_PN r)) = true))
  \/ (is_success (Status r) = false /\ Manufacturer_PN r = "" /\ Brand r = "").

(** * Properties *)

(** ** Strings *)

Module StrFacts.

Lemma truthy_true s : Str.truthy s = true <-> s <> "".
Proof. destruct s; simpl; split; congruence. Qed.

Lemma truthy_false s : Str.truthy s = false <-> s = "".
Proof. destruct s; simpl; split; congruence. Qed.

Lemma lstrip_no_lead s : Str.no_lead (Str.lstrip s) = true.
Proof.
  induction s as [|c s IH]; simpl; [done|].
  destruct (Char.is_space c) eqn:E; [done|]. simpl. by rewrite E.
Qed.

Lemma lstrip_id s : Str.no_lead s = true -> Str.lstrip s = s.
Proof. destruct s as [|c s]; simpl; [done|]. by destruct (Char.is_space c). Qed.

Lemma rstrip_no_lead s : Str.no_lead s = true -> Str.no_lead (Str.rstrip s) = true.
Proof.
  destruct s as [|c s]; simpl; [done|]. intros E.
  destruct (Str.rstrip s); [|done].
  destruct (Char.is_space c) eqn:Ec; simpl; [done|]. by rewrite Ec.
Qed.

Lemma rstrip_idem s : Str.rstrip (Str.rstrip s) = Str.rstrip s.
Proof.
  induction s as [|c s IH]; simpl; [done|].
  destruct (Str.rstrip s) as [|d r] eqn:E.
  - destruct (Char.is_space c) eqn:Ec; simpl; [done|]. by rewrite Ec.
  - change (Str.rstrip (String c (String d r)) = String c (String d r)).
    cbn [Str.rstrip]. cbn [Str.rstrip] in IH. by rewrite IH.
Qed.

Lemma strip_idem s : Str.strip (Str.strip s) = Str.strip s.
Proof.
  unfold Str.strip.
  rewrite (lstrip_id (Str.rstrip (Str.lstrip s))).
  - apply rstrip_idem.
  - apply rstrip_no_lead, lstrip_no_lead.
Qed.

Lemma all_no_lead p s :
  (forall c, p c = true -> Char.is_space c = false) ->
  Str.all p s = true -> Str.no_lead s = true.
Proof.
  intros Hp. destruct s as [|c s]; simpl; [done|].
  intros [Hc _]%andb_true_iff. by rewrite (Hp c Hc).
Qed.

Lemma rstrip_id_all p s :
  (forall c, p c = true -> Char.is_space c = false) ->
  Str.all p s = true -> Str.rstrip s = s.
Proof.
  intros Hp. induction s as [|c s IH]; simpl; [done|].
  intros [Hc Hs]%andb_true_iff. rewrite (IH Hs).
  destruct s; [|done]. by rewrite (Hp c Hc).
Qed.

Lemma strip_id_all p s :
  (forall c, p c = true -> Char.is_space c = false) ->
  Str.all p s = true -> Str.strip s = s.
Proof.
  intros Hp Hs. unfold Str.strip.
  rewrite (lstrip_id s); eauto using all_no_lead, rstrip_id_all.
Qed.

Lemma split_all p s :
  (forall c, p c = true -> Char.is_space c = false) ->
  Str.all p s = true -> s <> "" -> Str.split s = [s].
Proof.
  intros Hp. induction s as [|c s IH]; [done|]. simpl.
  intros [Hc Hs]%andb_true_iff _. rewrite (Hp c Hc).
  destruct s as [|d s]; [done|].
  rewrite IH by done. simpl in Hs. apply andb_true_iff in Hs as [Hd _].
  simpl. by rewrite (Hp d Hd).
Qed.

Lemma digit_not_space c : Char.is_digit c = true -> Char.is_space c = false.
Proof.
  destruct c as [[] [] [] [] [] [] [] []]; vm_compute; congruence.
Qed.

Lemma digit_alnum c : Char.is_digit c = true -> Char.is_alnum c = true.
Proof.
  destruct c as [[] [] [] [] [] [] [] []]; vm_compute; congruence.
Qed.

Lemma digit_not_colon c : Char.is_digit c = true -> Ascii.eqb ":" c = false.
Proof.
  destruct c as [[] [] [] [] [] [] [] []]; vm_compute; congruence.
Qed.

Lemma any_of_all (p q : ascii -> bool) s :
  (forall c, p c = true -> q c = true) ->
  Str.all p s = true -> s <> "" -> Str.any q s = true.
Proof.
  intros Hpq. destruct s as [|c s]; [done|]. simpl.
  intros [Hc _]%andb_true_iff _. by rewrite (Hpq c Hc).
Qed.

Lemma contains_char_all (p : ascii -> bool) (x : ascii) s :
  (forall c, p c = true -> Ascii.eqb x c = false) ->
  Str.all p s = true -> Str.contains (String x "") s = false.
Proof.
  intros Hp. induction s as [|c s IH]; simpl; [done|].
  intros [Hc Hs]%andb_true_iff. by rewrite (IH Hs), (Hp c Hc).
Qed.

End StrFacts.

Module ReFacts.
Import Re.

Lemma rep_greedy_done {R} cls (k : string -> option R) s :
  rep_greedy cls k 0 (Some 0) s = k s.
Proof. destruct s as [|c s]; simpl; [done|]. by rewrite andb_false_r. Qed.

Lemma match_one cls r g cap s :
  match_items (one cls :: r) g cap s =
  match s with
  | String c s' => if cls c then match_items r g cap s' else None
  | EmptyString => None
  end.
Proof.
  unfold one. cbn [match_items]. destruct s as [|c s]; [done|].
  cbn [rep_greedy hi_ok hi_pred fmap option_fmap option_map Nat.pred stop].
  rewrite andb_true_r. destruct (cls c); [|done].
  rewrite rep_greedy_done. by destruct (match_items r g cap s).
Qed.

Lemma match_here_one cls s :
  is_Some (match_here [one cls] s) <->
  exists c s', s = String c s' /\ cls c = true.
Proof.
  unfold match_here. rewrite match_one. destruct s as [|c s].
  - split; [by intros [? ?]|by intros (? & ? & ? & ?)].
  - destruct (cls c) eqn:E; simpl.
    + split; [eauto|done].
    + split; [by intros [? ?]|]. intros (? & ? & [= <- <-] & ?). congruence.
Qed.

Lemma search_one cls s : is_Some (search [one cls] s) <-> Str.any cls s = true.
Proof.
  induction s as [|c s IH]; cbn [search Str.any].
  - unfold match_here. rewrite match_one. split; [by intros [? ?]|done].
  - unfold match_here in *. rewrite match_one.
    destruct (cls c) eqn:E; simpl.
    + split; [done|eauto].
    + apply IH.
Qed.

(** [re.search] of a one-character class finds a character of the class. *)
Lemma test_one cls s : test [one cls] s = Str.any cls s.
Proof.
  unfold test. destruct (Str.any cls s) eqn:E.
  - apply bool_decide_eq_true, search_one, E.
  - apply bool_decide_eq_false. rewrite search_one. congruence.
Qed.

Lemma rep_greedy_all {R} cls (k : string -> option R) lo hi s :
  Str.all cls s = true ->
  lo <= String.length s <= hi ->
  (forall t, t <> "" -> k t = None) ->
  rep_greedy cls k lo (Some hi) s = k "".
Proof.
  intros Hall Hlen Hk. revert lo hi Hall Hlen.
  induction s as [|c s IH]; intros lo hi Hall Hlen; simpl in *.
  - assert (lo = 0) as -> by lia. done.
  - apply andb_true_iff in Hall as [Hc Hs]. rewrite Hc.
    destruct hi as [|hi]; [lia|]. simpl.
    rewrite IH; [|done|lia].
    destruct (k "") eqn:E; [done|].
    destruct lo; simpl; [|done]. by apply Hk.
Qed.

Lemma rep_greedy_all_inv {R} cls (k : string -> option R) lo hi s :
  (forall t, t <> "" -> k t = None) ->
  is_Some (rep_greedy cls k lo (Some hi) s) ->
  Str.all cls s = true /\ lo <= String.length s <= hi.
Proof.
  intros Hk. revert lo hi.
  induction s as [|c s IH]; intros lo hi; simpl.
  - destruct lo; simpl; [intros _; split; [done|lia]|by intros [? ?]].
  - assert (stop k lo (String c s) = None) as ->.
    { destruct lo; simpl; [by apply Hk|done]. }
    destruct (cls c) eqn:Ec; simpl; [|by intros [? ?]].
    destruct hi as [|hi]; simpl; [by intros [? ?]|].
    destruct (rep_greedy cls k (Nat.pred lo) (Some hi) s) eqn:E; [|by intros [? ?]].
    intros _. destruct (IH (Nat.pred lo) hi) as [Ha Hl]; [by rewrite E|].
    split; [done|lia].
Qed.

(** [re.fullmatch] of a bounded repetition of a class: the whole string
    is in the class and its length is within the bounds. *)
Lemma fullmatch_rep cls lo hi s :
  fullmatch [rep cls lo hi] s = true <->
  Str.all cls s = true /\ lo <= String.length s <= hi.
Proof.
  unfold fullmatch, match_here, rep. cbn [app match_items].
  rewrite bool_decide_eq_true.
  set (k := fun s0 : string => match s0 with
            | "" => Some ("", s0) | String _ _ => None end).
  assert (Hk : forall t, t <> "" -> k t = None) by (by intros [|??]).
  split.
  - by apply rep_greedy_all_inv.
  - intros [Ha Hl]. rewrite rep_greedy_all by done. done.
Qed.

End ReFacts.

Module SplitFacts.
Import Re.

Lemma after_run_length cls s :
  String.length (Str.after_run cls s) + Str.run_length cls s = String.length s.
Proof.
  induction s as [|c s IH]; simpl; [done|].
  destruct (cls c); simpl; lia.
Qed.

(** A greedy unbounded repetition before a continuation that never fails
    takes the whole run. *)
Lemma rep_greedy_run {R} cls (f : string -> R) lo s :
  rep_greedy cls (fun t => Some (f t)) lo None s =
  if Nat.leb lo (Str.run_length cls s) then Some (f (Str.after_run cls s)) else None.
Proof.
  revert lo. induction s as [|c s IH]; intros lo; simpl.
  - by destruct lo.
  - destruct (cls c); simpl.
    + rewrite IH. destruct lo as [|lo]; simpl.
      * done.
      * destruct (Nat.leb lo (Str.run_length cls s)); done.
    + by destruct lo.
Qed.

Lemma match_here_plus cls s :
  match_here [plus cls] s =
  match s with
  | String c s' => if cls c then Some ("", Str.after_run cls s') else None
  | EmptyString => None
  end.
Proof.
  unfold match_here, plus. cbn [match_items].
  rewrite (rep_greedy_run cls (fun t => ("", t))).
  destruct s as [|c s]; simpl; [done|]. by destruct (cls c).
Qed.

Lemma app_cons c s t : String c s ++ t = String c (s ++ t).
Proof. reflexivity. Qed.

Lemma app_empty_r s : s ++ "" = s.
Proof. induction s as [|c s IH]; [done|]. by rewrite app_cons, IH. Qed.

Lemma any_app p s t : Str.any p (s ++ t) = Str.any p s || Str.any p t.
Proof.
  induction s as [|c s IH]; [done|].
  rewrite app_cons. simpl. by rewrite IH, orb_assoc.
Qed.

Lemma app_assoc_char s c t : (s ++ String c "") ++ t = s ++ String c t.
Proof. induction s as [|d s IH]; [done|]. by rewrite !app_cons, IH. Qed.

(** No token of a split on runs of a class holds a character of it. *)
Lemma split_from_free cls skip tok s :
  Str.any cls tok = false ->
  Forall (fun t => Str.any cls t = false) (split_from [plus cls] skip tok s).
Proof.
  revert skip tok. induction s as [|c s IH]; intros skip tok Htok.
  - destruct skip; simpl; by constructor.
  - destruct skip as [|n]; [|by apply IH].
    cbn [split_from]. rewrite match_here_plus.
    destruct (cls c) eqn:Ec.
    + assert (Nat.ltb (String.length (Str.after_run cls s))
                      (String.length (String c s)) = true) as ->.
      { apply Nat.ltb_lt. pose proof (after_run_length cls s). simpl. lia. }
      constructor; [done|]. by apply IH.
    + apply IH. rewrite any_app. simpl. by rewrite Htok, Ec.
Qed.

Lemma split_free cls s :
  Forall (fun t => Str.any cls t = false) (split [plus cls] s).
Proof. by apply split_from_free. Qed.

(** A string free of the class is its own single token. *)
Lemma split_from_id cls tok s :
  Str.any cls s = false -> split_from [plus cls] 0 tok s = [tok ++ s].
Proof.
  revert tok. induction s as [|c s IH]; intros tok; cbn [split_from Str.any].
  - intros _. by rewrite app_empty_r.
  - intros [Hc Hs]%orb_false_iff.
    rewrite match_here_plus, Hc, IH by done. by rewrite app_assoc_char.
Qed.

Lemma split_id cls s : Str.any cls s = false -> split [plus cls] s = [s].
Proof. intros Hs. unfold split. by rewrite split_from_id. Qed.

End SplitFacts.

Module FieldsFacts.
Import Re.

Lemma fields_cons cls s : exists t ts, Str.fields cls s = t :: ts.
Proof.
  induction s as [|c s (t & ts & IH)]; simpl; [by eexists _, _|].
  destruct (cls c).
  - destruct (Str.starts_in cls s); [by exists t, ts|by eexists _, _].
  - rewrite IH. by eexists _, _.
Qed.

Lemma fields_starts_in cls s :
  Str.starts_in cls s = true -> exists ts, Str.fields cls s = "" :: ts.
Proof.
  induction s as [|c s IH]; [done|]. cbn [Str.starts_in Str.fields].
  intros ->. destruct (Str.starts_in cls s); [by apply IH|by eexists].
Qed.

Lemma prepend_empty cls s : Str.prepend "" (Str.fields cls s) = Str.fields cls s.
Proof. by destruct (fields_cons cls s) as (t & ts & ->). Qed.

Lemma run_length_not_starts cls s :
  Str.starts_in cls s = false -> Str.run_length cls s = 0.
Proof. destruct s as [|c s]; [done|]. simpl. by intros ->. Qed.

Lemma split_from_fields cls s :
  (forall tok, split_from [plus cls] 0 tok s = Str.prepend tok (Str.fields cls s))
  /\ (Str.starts_in cls s = true ->
      split_from [plus cls] (Str.run_length cls s) "" s = tail (Str.fields cls s)).
Proof.
  induction s as [|c s [IH1 IH2]].
  - split; [|done]. intros tok. cbn. by rewrite SplitFacts.app_empty_r.
  - assert (Hrun : cls c = true ->
      split_from [plus cls] (Str.run_length cls s) "" s
      = tail (Str.fields cls (String c s))).
    { intros Hc. cbn [Str.fields]. rewrite Hc.
      destruct (Str.starts_in cls s) eqn:Es; [by apply IH2|].
      rewrite (run_length_not_starts _ _ Es), IH1. cbn [tail].
      apply prepend_empty. }
    split.
    + intros tok. cbn [split_from]. rewrite SplitFacts.match_here_plus.
      destruct (cls c) eqn:Ec.
      * pose proof (SplitFacts.after_run_length cls s) as Hl.
        assert (Nat.ltb (String.length (Str.after_run cls s))
                        (String.length (String c s)) = true) as ->.
        { apply Nat.ltb_lt. simpl. lia. }
        replace (String.length s - String.length (Str.after_run cls s))
          with (Str.run_length cls s) by lia.
        rewrite (Hrun eq_refl).
        destruct (fields_starts_in cls (String c s)) as (ts & ->); [done|].
        cbn. by rewrite SplitFacts.app_empty_r.
      * rewrite IH1. cbn [Str.fields]. rewrite Ec.
        destruct (fields_cons cls s) as (t & ts & ->). cbn.
        by rewrite SplitFacts.app_assoc_char.
    + cbn [Str.starts_in Str.run_length]. intros Hc. rewrite Hc.
      cbn [split_from]. by apply Hrun.
Qed.

(** [re.split] on the runs of a class returns the pieces between the
    runs. *)
Lemma split_fields cls s : split [plus cls] s = Str.fields cls s.
Proof.
  unfold split. rewrite (proj1 (split_from_fields cls s)). apply prepend_empty.
Qed.

End FieldsFacts.

Module EdgeFacts.

Lemma lower_space c : Char.is_space (Char.lower c) = Char.is_space c.
Proof. destruct c as [[] [] [] [] [] [] [] []]; by vm_compute. Qed.

Lemma lstrip_lower s : Str.lstrip (Str.lower s) = Str.lower (Str.lstrip s).
Proof.
  induction s as [|c s IH]; [done|]. cbn [Str.lower Str.map Str.lstrip].
  rewrite lower_space. by destruct (Char.is_space c).
Qed.

Lemma rstrip_lower s : Str.rstrip (Str.lower s) = Str.lower (Str.rstrip s).
Proof.
  induction s as [|c s IH]; [done|]. cbn [Str.lower Str.map Str.rstrip].
  change (Str.map Char.lower s) with (Str.lower s). rewrite IH, lower_space.
  destruct (Str.rstrip s); [|done]. by destruct (Char.is_space c).
Qed.

Lemma strip_lower s : Str.strip (Str.lower s) = Str.lower (Str.strip s).
Proof. unfold Str.strip. by rewrite lstrip_lower, rstrip_lower. Qed.

Lemma startswith_nil_r p : Str.startswith p "" = true -> p = "".
Proof. by destruct p. Qed.

Lemma contains_nil_r p : Str.contains p "" = true -> p = "".
Proof. simpl. rewrite orb_false_r. apply startswith_nil_r. Qed.

(** a string that is not empty and neither begins nor ends with
    whitespace stays inside what [strip] keeps *)
Lemma contains_lstrip p s :
  p <> "" -> Str.no_lead p = true ->
  Str.contains p s = true -> Str.contains p (Str.lstrip s) = true.
Proof.
  intros Hne Hp. induction s as [|c s IH]; [done|].
  cbn [Str.lstrip]. destruct (Char.is_space c) eqn:Ec; [|done].
  cbn [Str.contains]. intros [Hs|Hs]%orb_true_iff; [|by apply IH].
  destruct p as [|a p]; [done|]. cbn [Str.startswith] in Hs.
  apply andb_true_iff in Hs as [Ha _]. apply Ascii.eqb_eq in Ha as ->.
  simpl in Hp. by rewrite Ec in Hp.
Qed.

Lemma startswith_rstrip p s :
  p <> "" -> Str.no_trail p = true ->
  Str.startswith p s = true -> Str.startswith p (Str.rstrip s) = true.
Proof.
  intros Hne. revert s. induction p as [|a p IH]; [done|]. intros s Hp Hs.
  destruct s as [|b s]; [done|]. cbn [Str.startswith] in Hs.
  apply andb_true_iff in Hs as [Hab Hs]. apply Ascii.eqb_eq in Hab as <-.
  cbn [Str.rstrip]. destruct p as [|a' p].
  - simpl in Hp. destruct (Str.rstrip s).
    + destruct (Char.is_space a); [done|]. simpl. by rewrite Ascii.eqb_refl.
    + simpl. by rewrite Ascii.eqb_refl.
  - assert (Hr : Str.startswith (String a' p) (Str.rstrip s) = true)
      by (by apply IH).
    destruct (Str.rstrip s) as [|d r]; [done|].
    cbn [Str.startswith]. rewrite Ascii.eqb_refl. exact Hr.
Qed.

Lemma contains_rstrip p s :
  p <> "" -> Str.no_trail p = true ->
  Str.contains p s = true -> Str.contains p (Str.rstrip s) = true.
Proof.
  intros Hne Hp. induction s as [|c s IH]; [done|].
  cbn [Str.contains]. intros [Hs|Hs]%orb_true_iff.
  - apply (startswith_rstrip p (String c s) Hne Hp) in Hs.
    destruct (Str.rstrip (String c s)); simpl; by rewrite Hs.
  - apply IH in Hs. cbn [Str.rstrip].
    destruct (Str.rstrip s) as [|d r] eqn:Er.
    + apply contains_nil_r in Hs. done.
    + cbn [Str.contains]. cbn [Str.contains] in Hs. rewrite Hs. apply orb_true_r.
Qed.

Lemma contains_strip p s :
  p <> "" -> Str.no_lead p = true -> Str.no_trail p = true ->
  Str.contains p s = true -> Str.contains p (Str.strip s) = true.
Proof.
  intros Hne Hl Ht Hs. unfold Str.strip.
  by apply contains_rstrip, contains_lstrip.
Qed.

End EdgeFacts.

(** ** Validators *)

Lemma looks_like_brand_spec s :
  looks_like_brand s = true <->
  Str.strip s <> "" /\ Str.any Char.is_letter (Str.strip s) = true
  /\ 1 < String.length (Str.strip s).
Proof.
  unfold looks_like_brand, re_letter. rewrite ReFacts.test_one.
  destruct s as [|c s]; cbn [Str.truthy negb].
  - split; [done|]. by intros [? _].
  - rewrite andb_true_iff, Nat.ltb_lt. split.
    + intros [Ha Hl]. split_and!; try done.
      intros E. rewrite E in Hl. simpl in Hl. lia.
    + intros (_ & Ha & Hl). done.
Qed.

Lemma letter_is_alphabetic c : Char.is_letter c = true -> is_alphabetic c = true.
Proof.
  unfold Char.is_letter, is_alphabetic.
  intros [[[[H|H]%orb_true_iff|H]%orb_true_iff|H]%orb_true_iff|H]%orb_true_iff;
    rewrite H; rewrite ?orb_true_r; done.
Qed.

Lemma any_alphabetic_letter s :
  Str.any (fun c => is_alphabetic c && negb (Char.is_letter c)) s = false ->
  Str.any is_alphabetic s = Str.any Char.is_letter s.
Proof.
  induction s as [|c s IH]; [done|]. cbn [Str.any].
  intros [Hc Hs]%orb_false_iff. rewrite (IH Hs). f_equal.
  destruct (Char.is_letter c) eqn:E; [by apply letter_is_alphabetic|].
  by rewrite andb_true_r in Hc.
Qed.

Lemma any_letter_alphabetic s :
  Str.any Char.is_letter s = true -> Str.any is_alphabetic s = true.
Proof.
  induction s as [|c s IH]; [done|]. cbn [Str.any].
  intros [Hc|Hs]%orb_true_iff.
  - by rewrite (letter_is_alphabetic c Hc).
  - by rewrite (IH Hs), orb_true_r.
Qed.

Lemma looks_like_brand_letters s :
  looks_like_brand s =
  Str.truthy (Str.strip s) && Str.any Char.is_letter (Str.strip s)
  && Nat.ltb 1 (String.length (Str.strip s)).
Proof.
  unfold looks_like_brand, re_letter. rewrite ReFacts.test_one.
  destruct s as [|c s]; [done|]. cbn [Str.truthy negb].
  destruct (Str.strip (String c s)) as [|c' s']; [done|]. done.
Qed.

(** C9, as the code has it. [looks_like_brand] is true exactly for the
    strings that, once stripped, are not empty, hold a letter of
    [A-Za-zÀ-ÖØ-öø-ÿ] and are longer than one character; it is true of
    RS PRO and false of the empty string and of the one-digit string 3.
    Every string it accepts holds an alphabetic character, and it agrees
    with the wording of the specification on every string whose
    alphabetic characters are all of that class. *)
Theorem looks_like_brand_exact :
  (forall s,
     looks_like_brand s = true <->
     Str.strip s <> "" /\ Str.any Char.is_letter (Str.strip s) = true
     /\ 1 < String.length (Str.strip s))
  /\ looks_like_brand "RS PRO" = true
  /\ looks_like_brand "" = false
  /\ looks_like_brand "3" = false
  /\ (forall s, looks_like_brand s = true -> looks_like_brand_as_specified s = true)
  /\ (forall s,
        Str.any (fun c => is_alphabetic c && negb (Char.is_letter c)) (Str.strip s)
        = false ->
        looks_like_brand s = looks_like_brand_as_specified s).
Proof.
  split; [apply looks_like_brand_spec|].
  split; [by vm_compute|]. split; [by vm_compute|]. split; [by vm_compute|].
  split.
  - intros s. rewrite looks_like_brand_letters. unfold looks_like_brand_as_specified.
    intros [[Ht Ha]%andb_true_iff Hl]%andb_true_iff.
    by rewrite Ht, (any_letter_alphabetic _ Ha), Hl.
  - intros s Hs. rewrite looks_like_brand_letters.
    unfold looks_like_brand_as_specified. by rewrite (any_alphabetic_letter _ Hs).
Qed.

(** C9, a string on which the claim fails: two micro signs. Stripped, the
    string is not empty, holds an alphabetic character and is longer than
    one character, and [looks_like_brand] is false of it. *)
Lemma looks_like_brand_misses_the_micro_sign :
  let s := String (ascii_of_N 181) (String (ascii_of_N 181) "") in
  Str.strip s <> ""
  /\ Str.any is_alphabetic (Str.strip s) = true
  /\ 1 < String.length (Str.strip s)
  /\ looks_like_brand_as_specified s = true
  /\ looks_like_brand s = false.
Proof.
  cbv zeta. split; [by vm_compute|]. split; [by vm_compute|].
  split; [vm_compute; lia|]. split; by vm_compute.
Qed.

(** C7. A candidate that, stripped, splits into more than six words, or
    whose stripped lower-cased form contains a substring of the rejection
    list, is not a valid MPN, whatever the hint. *)
Theorem is_valid_mpn_rejects_long_or_listed candidate rs_pn_hint :
  6 < List.length (Str.split (Str.strip candidate))
  \/ (exists bad, bad ∈ _rejection_substrings
                  /\ Str.contains bad (Str.lower (Str.strip candidate)) = true) ->
  is_valid_mpn_from_field candidate rs_pn_hint = false.
Proof.
  intros Hc. unfold is_valid_mpn_from_field.
  destruct (Str.truthy candidate); cbn [negb]; [|done].
  destruct Hc as [Hlong|(bad & Hin & Hbad)].
  - apply Nat.ltb_lt in Hlong. by rewrite Hlong.
  - destruct (Nat.ltb 6 _); [done|].
    assert (existsb (fun bad => Str.contains bad (Str.lower (Str.strip candidate)))
                    _rejection_substrings = true) as ->; [|done].
    apply existsb_exists. exists bad. by rewrite <- list_elem_of_In.
Qed.

Lemma is_valid_mpn_rejects_long_or_listed_witness :
  is_valid_mpn_from_field "a b c d e f g" (Some "1") = false
  /\ is_valid_mpn_from_field "Rechargeable 9V" None = false.
Proof.
  split.
  - apply is_valid_mpn_rejects_long_or_listed. left. vm_compute. lia.
  - apply is_valid_mpn_rejects_long_or_listed. right.
    exists "rechargeable". split; [|by vm_compute].
    apply list_elem_of_In. simpl. auto 20.
Defined.

(** An entry of the rejection list that neither begins nor ends with
    whitespace rejects a candidate whose own lower-cased form, before any
    stripping, contains it. *)
Lemma is_valid_mpn_rejects_listed_unstripped candidate rs_pn_hint bad :
  bad ∈ _rejection_substrings ->
  Str.no_lead bad = true -> Str.no_trail bad = true ->
  Str.contains bad (Str.lower candidate) = true ->
  is_valid_mpn_from_field candidate rs_pn_hint = false.
Proof.
  intros Hin Hl Ht Hc. unfold is_valid_mpn_from_field.
  destruct (negb (Str.truthy candidate)); [done|].
  destruct (Nat.ltb 6 _); [done|].
  assert (existsb (fun bad => Str.contains bad (Str.lower (Str.strip candidate)))
                  _rejection_substrings = true) as ->; [|done].
  apply existsb_exists. exists bad. split; [by apply list_elem_of_In|].
  rewrite <- EdgeFacts.strip_lower. apply EdgeFacts.contains_strip; try done.
  intros ->. apply list_elem_of_In in Hin. simpl in Hin. intuition discriminate.
Qed.

(** The two entries that begin with a space are tested on the stripped
    candidate only. *)
Example is_valid_mpn_edge_entries :
  Str.contains " volt" (Str.lower " volt") = true
  /\ is_valid_mpn_from_field " volt" None = true
  /\ Str.contains " v " (Str.lower "1 v ") = true
  /\ is_valid_mpn_from_field "1 v " None = true.
Proof. by vm_compute. Qed.

(** C6. A token of 2 to 20 decimal digits passes the loose heuristic
    unless it is the RS_PN hint itself, character for character. *)
Theorem heuristic_accepts_digits tok rs_pn :
  Str.all Char.is_digit tok = true ->
  2 <= String.length tok <= 20 ->
  heuristic_mpn_candidate tok (Some rs_pn) = negb (String.eqb tok rs_pn)
  /\ heuristic_mpn_candidate tok None = true.
Proof.
  intros Hd Hl.
  assert (Hne : tok <> "") by (intros ->; simpl in Hl; lia).
  assert (Hfull : Re.fullmatch re_digits_2_20 tok = true).
  { apply ReFacts.fullmatch_rep. done. }
  assert (Hpre : forall h,
    heuristic_mpn_candidate tok h =
    negb (hint_truthy h && String.eqb tok (hint_str h))).
  { intros h. unfold heuristic_mpn_candidate.
    rewrite (proj2 (StrFacts.truthy_true tok) Hne). cbn [negb].
    rewrite (StrFacts.strip_id_all _ _ StrFacts.digit_not_space Hd).
    rewrite (StrFacts.split_all _ _ StrFacts.digit_not_space Hd Hne).
    cbn [List.length Nat.ltb Nat.leb].
    rewrite (StrFacts.contains_char_all _ _ _ StrFacts.digit_not_colon Hd).
    unfold re_alnum. rewrite ReFacts.test_one.
    rewrite (StrFacts.any_of_all _ _ _ StrFacts.digit_alnum Hd Hne).
    cbn [negb]. rewrite Hfull. by destruct (_ && _). }
  split; [|by rewrite Hpre].
  rewrite Hpre. cbn [hint_truthy hint_str].
  destruct (Str.truthy rs_pn) eqn:E; [done|].
  apply StrFacts.truthy_false in E as ->. cbn [andb negb].
  destruct tok; [done|]. done.
Qed.

Lemma heuristic_accepts_digits_witness :
  heuristic_mpn_candidate "2777" (Some "1234567") = true
  /\ heuristic_mpn_candidate "1234567" (Some "1234567") = false.
Proof.
  split.
  - apply (heuristic_accepts_digits "2777" "1234567"); [by vm_compute|simpl; lia].
  - apply (heuristic_accepts_digits "1234567" "1234567"); [by vm_compute|simpl; lia].
Defined.

(** What the strict validator does reject: a candidate that, stripped,
    with its spaces removed and lower-cased, is the lower-cased hint. *)
Lemma is_valid_mpn_rejects_echo candidate rs_pn :
  rs_pn <> "" ->
  Str.lower (Str.remove_spaces (Str.strip candidate)) = Str.lower rs_pn ->
  is_valid_mpn_from_field candidate (Some rs_pn) = false.
Proof.
  intros Hne E. unfold is_valid_mpn_from_field.
  destruct (negb (Str.truthy candidate)); [done|].
  destruct (Nat.ltb 6 _); [done|]. destruct (existsb _ _); [done|].
  destruct (negb (Re.test re_alnum _)); [done|].
  cbn [hint_truthy hint_str]. rewrite (proj2 (StrFacts.truthy_true rs_pn) Hne), E.
  by rewrite String.eqb_refl.
Qed.

(** C1. The strict validator accepts a candidate that is the RS_PN hint
    itself when the RS_PN holds a space, and a candidate that differs
    from such an RS_PN by the space only: the spaces are removed from
    the candidate and not from the hint. *)
Theorem is_valid_mpn_echoes_spaced_rs_pn :
  is_valid_mpn_from_field "12 34" (Some "12 34") = true
  /\ is_valid_mpn_from_field "1234" (Some "12 34") = true.
Proof. by vm_compute. Qed.

(** ** The retry on split tokens *)

(** [List.find] is the loop that stops at the first hit. *)
Lemma find_first {A} (f : A -> bool) (l : list A) :
  match List.find f l with
  | Some x => exists pre post, l = (pre ++ x :: post)%list
                /\ Forall (fun y => f y = false) pre /\ f x = true
  | None => Forall (fun y => f y = false) l
  end.
Proof.
  induction l as [|a l IH]; simpl; [by constructor|].
  destruct (f a) eqn:Ea.
  - exists [], l. by repeat split.
  - destruct (List.find f l) as [x|].
    + destruct IH as (pre & post & -> & Hpre & Hx).
      exists (a :: pre), post. repeat split; [|done]. by constructor.
    + by constructor.
Qed.

Lemma first_loose_token_spec mpn rs_pn :
  match first_loose_token mpn rs_pn with
  | Some tok =>
      heuristic_mpn_candidate tok (Some rs_pn) = true
      /\ Str.any Char.is_sep tok = false
      /\ exists pre post, Re.split re_seps mpn = (pre ++ tok :: post)%list
           /\ Forall (fun t => heuristic_mpn_candidate t (Some rs_pn) = false) pre
  | None =>
      Forall (fun t => heuristic_mpn_candidate t (Some rs_pn) = false)
             (Re.split re_seps mpn)
  end.
Proof.
  unfold first_loose_token.
  pose proof (find_first (fun tok => heuristic_mpn_candidate tok (Some rs_pn))
                (Re.split re_seps mpn)) as Hf.
  destruct (List.find _ _) as [tok|]; [|done].
  destruct Hf as (pre & post & E & Hpre & Htok).
  split; [done|]. split; [|by exists pre, post].
  pose proof (SplitFacts.split_free Char.is_sep mpn) as Hfree.
  unfold re_seps in E. rewrite E in Hfree.
  apply Forall_app in Hfree as [_ Hfree]. by apply Forall_cons in Hfree as [? _].
Qed.

(** C8. An MPN that is not empty and fails the strict validation is
    split at the runs of whitespace, comma, semicolon and slash (the
    tokens are the pieces between the runs, and none holds one of these
    characters), and is replaced by the first token, in the order of the
    split, that passes the loose heuristic; when no token passes, it is
    replaced by the empty string. *)
Theorem sanitize_mpn_first_passing_token mpn rs_pn :
  mpn <> "" ->
  is_valid_mpn_from_field mpn (Some rs_pn) = false ->
  let toks := Re.split re_seps mpn in
  toks = Str.fields Char.is_sep mpn
  /\ Forall (fun t => Str.any Char.is_sep t = false) toks
  /\ ((exists pre tok post,
         toks = (pre ++ tok :: post)%list
         /\ Forall (fun t => heuristic_mpn_candidate t (Some rs_pn) = false) pre
         /\ heuristic_mpn_candidate tok (Some rs_pn) = true
         /\ sanitize_mpn mpn rs_pn = tok)
      \/ (Forall (fun t => heuristic_mpn_candidate t (Some rs_pn) = false) toks
          /\ sanitize_mpn mpn rs_pn = "")).
Proof.
  intros Hne Hbad toks. split; [apply FieldsFacts.split_fields|].
  split; [apply SplitFacts.split_free|].
  unfold sanitize_mpn. rewrite (proj2 (StrFacts.truthy_true mpn) Hne), Hbad.
  cbn [negb andb].
  pose proof (first_loose_token_spec mpn rs_pn) as Hf.
  destruct (first_loose_token mpn rs_pn) as [tok|].
  - left. destruct Hf as (Htok & _ & pre & post & E & Hpre).
    by exists pre, tok, post.
  - by right.
Qed.

Lemma sanitize_mpn_first_passing_token_witness :
  "1 ah, AB-12/x" <> ""
  /\ is_valid_mpn_from_field "1 ah, AB-12/x" (Some "999") = false
  /\ let toks := Re.split re_seps "1 ah, AB-12/x" in
     toks = Str.fields Char.is_sep "1 ah, AB-12/x"
     /\ Forall (fun t => Str.any Char.is_sep t = false) toks
     /\ ((exists pre tok post,
            toks = (pre ++ tok :: post)%list
            /\ Forall (fun t => heuristic_mpn_candidate t (Some "999") = false) pre
            /\ heuristic_mpn_candidate tok (Some "999") = true
            /\ sanitize_mpn "1 ah, AB-12/x" "999" = tok)
         \/ (Forall (fun t => heuristic_mpn_candidate t (Some "999") = false) toks
             /\ sanitize_mpn "1 ah, AB-12/x" "999" = "")).
Proof.
  assert (H1 : "1 ah, AB-12/x" <> "") by discriminate.
  assert (H2 : is_valid_mpn_from_field "1 ah, AB-12/x" (Some "999") = false)
    by (vm_compute; reflexivity).
  exact (conj H1 (conj H2 (sanitize_mpn_first_passing_token _ _ H1 H2))).
Defined.

(** ** Raw-scan extractor *)

Module ScanFacts.
Import Re.




Lemma scan_matches_spec raw rs_pn ms :
  match scan_matches raw rs_pn ms with
  | Some r =>
      exists pre m post, ms = (pre ++ m :: post)%list
        /\ Forall (fun m' => snippet_hit raw rs_pn m' = false) pre
        /\ snippet_hit raw rs_pn m = true
        /\ r = (Some (UrlJoin site m), fst (snippet_fields raw rs_pn m),
                snd (snippet_fields raw rs_pn m), "OK(raw-snippet)")
  | None => Forall (fun m' => snippet_hit raw rs_pn m' = false) ms
  end.
Proof.
  induction ms as [|m ms IH]; cbn [scan_matches]; [by constructor|].
  assert (Hstep : snippet_hit raw rs_pn m = false ->
    match scan_matches raw rs_pn ms with
    | Some r =>
        exists pre m0 post, (m :: ms) = (pre ++ m0 :: post)%list
          /\ Forall (fun m' => snippet_hit raw rs_pn m' = false) pre
          /\ snippet_hit raw rs_pn m0 = true
          /\ r = (Some (UrlJoin site m0), fst (snippet_fields raw rs_pn m0),
                  snd (snippet_fields raw rs_pn m0), "OK(raw-snippet)")
    | None => Forall (fun m' => snippet_hit raw rs_pn m' = false) (m :: ms)
    end).
  { intros Hm. destruct (scan_matches raw rs_pn ms) as [r|].
    - destruct IH as (pre & m0 & post & -> & Hpre & Hm0 & ->).
      exists (m :: pre), m0, post. repeat split; [|done]. by constructor.
    - by constructor. }
  destruct (Str.contains rs_pn m) eqn:Ec.
  2:{ apply Hstep. unfold snippet_hit. by rewrite Ec. }
  destruct (snippet_fields raw rs_pn m) as [brand mpn] eqn:Ef.
  destruct (Str.truthy brand || Str.truthy mpn) eqn:Et.
  2:{ apply Hstep. unfold snippet_hit. by rewrite Ec, Ef. }
  exists [], m, ms. rewrite Ef. unfold snippet_hit. rewrite Ec, Ef.
  split; [done|]. split; [apply Forall_nil_2|]. split; done.
Qed.

Lemma drop_drop n k s : Str.drop n (Str.drop k s) = Str.drop (k + n) s.
Proof.
  revert s. induction k as [|k IH]; intros s; [done|].
  destruct s as [|c s]; [by destruct n|]. apply IH.
Qed.


Lemma startswith_length p s :
  Str.startswith p s = true -> String.length p <= String.length s.
Proof.
  revert s. induction p as [|a p IH]; intros s; [simpl; lia|].
  destruct s as [|b s]; [done|]. cbn [Str.startswith String.length].
  intros [_ E]%andb_true_iff. apply IH in E. lia.
Qed.

Lemma startswith_take p k s :
  String.length p <= k -> Str.startswith p (Str.take k s) = Str.startswith p s.
Proof.
  revert k s. induction p as [|a p IH]; intros k s Hk; [by destruct k, s|].
  destruct k as [|k]; [simpl in Hk; lia|]. destruct s as [|b s]; [done|].
  cbn [Str.take Str.startswith]. f_equal. apply IH. simpl in Hk. lia.
Qed.

Lemma startswith_take_self k s : Str.startswith (Str.take k s) s = true.
Proof.
  revert s. induction k as [|k IH]; intros s; [by destruct s|].
  destruct s as [|c s]; [done|]. cbn [Str.take Str.startswith].
  by rewrite Ascii.eqb_refl, IH.
Qed.

Lemma contains_take_drop k n s : Str.contains (Str.take k (Str.drop n s)) s = true.
Proof.
  revert s. induction n as [|n IH]; intros s.
  - cbn [Str.drop]. destruct s as [|c s]; cbn [Str.contains];
      by rewrite startswith_take_self.
  - destruct s as [|c s].
    + by destruct k.
    + cbn [Str.drop Str.contains]. by rewrite IH, orb_true_r.
Qed.

Lemma length_take k s : k <= String.length s -> String.length (Str.take k s) = k.
Proof.
  revert s. induction k as [|k IH]; intros s Hk; [by destruct s|].
  destruct s as [|c s]; [simpl in Hk; lia|]. cbn [Str.take String.length].
  f_equal. apply IH. simpl in Hk. lia.
Qed.

Lemma length_drop k s : String.length (Str.drop k s) = String.length s - k.
Proof.
  revert s. induction k as [|k IH]; intros s; [simpl; lia|].
  destruct s as [|c s]; [done|]. apply IH.
Qed.


End ScanFacts.



(** C3. A document on which the scan does not do what the claim says:
    its second link holds the RS_PN, the window of that link yields no
    brand and no MPN, and the scan falls back to the first link, which
    does not hold the RS_PN. *)
Lemma aggressive_search_scan_falls_back_past_rs_pn :
  let raw := "<a href='/web/p/999'>a</a> <a href='/web/p/123'>b</a>" in
  Re.findall re_product_link raw = ["/web/p/999"; "/web/p/123"]
  /\ Str.contains "123" "/web/p/123" = true
  /\ aggressive_search_scan raw "123" =
     (Some (UrlJoin site "/web/p/999"), "", "", "OK(raw-first)").
Proof. by vm_compute. Qed.

(** ** The batch loop *)

Section BatchFacts.
Variable fetch : string -> M (string + (string * string * url * string)).

Lemma lookup_row_spec rs_pn w :
  lookup_row fetch rs_pn w = (row_of rs_pn (fetch rs_pn w).1, (fetch rs_pn w).2).
Proof.
  unfold lookup_row, bind, ret.
  destruct (fetch rs_pn w) as [[e|[[[mpn brand] u] status]] w']; done.
Qed.

Lemma RS_PN_row_of rs_pn r : RS_PN (row_of rs_pn r) = rs_pn.
Proof. by destruct r as [e|[[[??]?]?]]. Qed.

Lemma rows_of_append_row f r : rows_of (append_row f r) = (rows_of f ++ [r])%list.
Proof. by destruct f. Qed.

Lemma rows_of_append_rows f rows :
  rows_of (append_rows f rows) = (rows_of f ++ rows)%list.
Proof.
  revert f. induction rows as [|r rows IH]; intros f; simpl.
  - by rewrite app_nil_r.
  - unfold append_rows in *. rewrite IH, rows_of_append_row.
    by rewrite <- app_assoc.
Qed.

(** The loop looks up the identifiers to look up, in their order, and
    appends their rows. *)
Lemma batch_loop_spec already_done rs_list f w :
  exists rows,
    (batch_loop fetch already_done rs_list f w).1 = append_rows f rows
    /\ lookups fetch w (List.filter (todo already_done) rs_list) rows
               (batch_loop fetch already_done rs_list f w).2.
Proof.
  revert f w. induction rs_list as [|rs_pn rest IH]; intros f w.
  - exists []. split; [done|constructor].
  - cbn [batch_loop List.filter]. unfold todo at 1 3.
    destruct (Str.truthy rs_pn); cbn [negb andb]; [|apply IH].
    destruct (bool_decide (rs_pn ∈ already_done)); cbn [negb]; [apply IH|].
    unfold bind. destruct (lookup_row fetch rs_pn w) as [r w1] eqn:El.
    destruct (IH (append_row f r) w1) as (rows & E & HF).
    exists (r :: rows). split; [done|]. by econstructor.
Qed.

Lemma lookups_column w ids rows w' :
  lookups fetch w ids rows w' -> RS_PN <$> rows = ids.
Proof.
  induction 1 as [|w rs_pn ids r rows w1 w2 El _ IH]; [done|].
  cbn [fmap list_fmap]. rewrite lookup_row_spec in El. injection El as <- _.
  by rewrite RS_PN_row_of, <- IH.
Qed.

Lemma batch_loop_nothing_to_do already_done rs_list f w :
  List.filter (todo already_done) rs_list = [] ->
  batch_loop fetch already_done rs_list f w = (f, w).
Proof.
  revert f w. induction rs_list as [|rs_pn rest IH]; intros f w; [done|].
  cbn [batch_loop List.filter]. unfold todo at 1.
  destruct (Str.truthy rs_pn); cbn [negb andb]; [|apply IH].
  destruct (bool_decide (rs_pn ∈ already_done)); cbn [negb]; [apply IH|done].
Qed.

(** the RS_PN column of the rows a run appends *)
Lemma batch_loop_column already_done rs_list f w :
  RS_PN <$> rows_of (batch_loop fetch already_done rs_list f w).1 =
  ((RS_PN <$> rows_of f) ++ List.filter (todo already_done) rs_list)%list.
Proof.
  destruct (batch_loop_spec already_done rs_list f w) as (rows & -> & HF).
  rewrite rows_of_append_rows, fmap_app. f_equal. by eapply lookups_column.
Qed.
End BatchFacts.

Lemma occurrences_app x l1 l2 :
  occurrences x (l1 ++ l2) = occurrences x l1 + occurrences x l2.
Proof. unfold occurrences. by rewrite List.filter_app, length_app. Qed.

Lemma occurrences_filter p x l :
  p x = true -> occurrences x (List.filter p l) = occurrences x l.
Proof.
  intros Hp. unfold occurrences. induction l as [|y l IH]; [done|]. simpl.
  destruct (String.eqb x y) eqn:E.
  - apply String.eqb_eq in E as <-. rewrite Hp. simpl.
    rewrite String.eqb_refl. simpl. by rewrite IH.
  - destruct (p y); simpl; [by rewrite E|done].
Qed.

Lemma occurrences_In x l : 0 < occurrences x l <-> In x l.
Proof.
  unfold occurrences. induction l as [|y l IH]; simpl; [split; [lia|done]|].
  destruct (String.eqb x y) eqn:E; simpl.
  - apply String.eqb_eq in E. split; [auto|intros _; apply Nat.lt_0_succ].
  - apply String.eqb_neq in E. rewrite IH. split; [auto|]. intros [?|?]; congruence.
Qed.

Lemma occurrences_NoDup x l : NoDup l -> occurrences x l <= 1.
Proof.
  induction 1 as [|y l Hy Hl IH]; [unfold occurrences; simpl; lia|].
  unfold occurrences in *. simpl. destruct (String.eqb x y) eqn:E; [|done].
  apply String.eqb_eq in E as <-. simpl.
  destruct (List.length (List.filter (String.eqb x) l)) eqn:En; [lia|].
  exfalso. apply Hy, list_elem_of_In, occurrences_In. unfold occurrences. lia.
Qed.

Lemma under_header_append_row f r : under_header f -> under_header (append_row f r).
Proof. by destruct f. Qed.

Lemma under_header_append_rows f rows :
  under_header f -> under_header (append_rows f rows).
Proof.
  revert f. induction rows as [|r rows IH]; intros f Hf; [done|].
  apply (IH (append_row f r)), under_header_append_row, Hf.
Qed.

(** Under the header and with plain rows, the resume set is the RS_PN
    column of the rows, stripped. *)
Lemma load_already_done_rows {pd : Pandas} plain f :
  reads_back plain -> under_header f -> Forall plain (rows_of f) ->
  load_already_done f = list_to_set (Str.strip <$> (RS_PN <$> rows_of f)).
Proof.
  intros Hread Hf Hplain. destruct f as [[h rows]|]; [|done].
  cbn in Hf, Hplain. subst h.
  destruct (Hread rows Hplain) as (df & E & Hc & Hcol).
  unfold load_already_done. rewrite E, bool_decide_true by done.
  by rewrite Hcol.
Qed.

(** the reader of the examples reads back what was written *)
Lemma pandas_fixed_reads_back : reads_back (pd := pandas_fixed) (fun _ => True).
Proof.
  intros rows _. eexists. split; [reflexivity|]. split; [by left|].
  cbn. induction rows as [|r rows IH]; [done|]. cbn. by rewrite IH.
Qed.

Lemma todo_true already_done rs_pn :
  todo already_done rs_pn = true <-> rs_pn <> "" /\ rs_pn ∉ already_done.
Proof.
  unfold todo. rewrite andb_true_iff, negb_true_iff, bool_decide_eq_false.
  by rewrite StrFacts.truthy_true.
Qed.

(** C5. A lookup that raises is turned into a row: the identifier,
    empty MPN, brand and URL, and the exception as a status; the state
    the lookup left is the state the loop goes on from. Whatever the
    lookups do, raise included, the run looks up every identifier to look
    up (not blank, not already done), in the order of the input, and
    appends exactly the row of each. *)
Theorem main_keeps_going_after_exception {pd : Pandas} fetch cells f w :
  (forall rs_pn w0 e,
     (fetch rs_pn w0).1 = inl e ->
     lookup_row fetch rs_pn w0 =
       (Row rs_pn "" "" (Url "") ("EXCEPTION:" ++ e), (fetch rs_pn w0).2))
  /\ exists rows,
       rows_of (main fetch (Some cells) f w).1 = (rows_of f ++ rows)%list
       /\ RS_PN <$> rows =
            List.filter (todo (load_already_done f)) (Str.strip <$> cells)
       /\ lookups fetch w
            (List.filter (todo (load_already_done f)) (Str.strip <$> cells))
            rows (main fetch (Some cells) f w).2.
Proof.
  split.
  - intros rs_pn w0 e E. rewrite lookup_row_spec, E. done.
  - cbn [main].
    destruct (batch_loop_spec fetch (load_already_done f) (Str.strip <$> cells) f w)
      as (rows & -> & HF).
    exists rows. split; [apply rows_of_append_rows|].
    split; [by eapply lookups_column|done].
Qed.

(** C10. The set of identifiers already done is fixed when the loop
    starts: an identifier that is not blank and not in it gets one more
    row for each of its occurrences in the input, so that two occurrences
    leave duplicate RS_PN rows in the output of the run. *)
Theorem main_writes_a_row_per_occurrence {pd : Pandas} fetch cells f w rs_pn :
  rs_pn <> "" ->
  rs_pn ∉ load_already_done f ->
  let column := RS_PN <$> rows_of (main fetch (Some cells) f w).1 in
  occurrences rs_pn column =
    occurrences rs_pn (RS_PN <$> rows_of f) + occurrences rs_pn (Str.strip <$> cells)
  /\ (2 <= occurrences rs_pn (Str.strip <$> cells) -> ~ NoDup column).
Proof.
  intros Hne Hnew column.
  assert (E : occurrences rs_pn column =
    occurrences rs_pn (RS_PN <$> rows_of f) + occurrences rs_pn (Str.strip <$> cells)).
  { unfold column. cbn [main]. rewrite batch_loop_column, occurrences_app.
    f_equal. apply occurrences_filter. by apply todo_true. }
  split; [done|].
  intros Htwice Hnodup. apply (occurrences_NoDup rs_pn) in Hnodup. lia.
Qed.


Lemma filter_todo_done (done : gset string) (l : list string) :
  (forall x, In x l -> x <> "" -> x ∈ done) ->
  List.filter (todo done) l = [].
Proof.
  induction l as [|x l IH]; intros Hl; [done|]. simpl.
  destruct (todo done x) eqn:E.
  - apply todo_true in E as [Hne Hnot]. destruct Hnot. apply Hl; [by left|done].
  - apply IH. intros y Hy. apply Hl. by right.
Qed.

Lemma filter_todo_truthy (done : gset string) (l : list string) :
  List.filter (todo done) l =
  List.filter (fun x => negb (bool_decide (x ∈ done))) (List.filter Str.truthy l).
Proof.
  induction l as [|x l IH]; [done|]. simpl. unfold todo at 1.
  destruct (Str.truthy x); simpl; [|done].
  destruct (negb _); by rewrite IH.
Qed.

Lemma NoDup_bool_filter {A} (p : A -> bool) (l : list A) :
  NoDup l -> NoDup (List.filter p l).
Proof.
  induction 1 as [|x l Hx Hl IH]; simpl; [constructor|].
  destruct (p x); [|done]. constructor; [|done].
  intros Hin. apply Hx. by apply list_elem_of_In, List.filter_In in Hin as [?%list_elem_of_In _].
Qed.

(** C4, as the code has it. Let the output file be absent or under the
    header when the first run starts, and let pandas read back as written
    the rows the output holds after that run. Then a second run over the
    same input looks nothing up and leaves the output as the first run
    left it: every identifier of the input is by then in the resume set
    and is skipped. The output has no duplicate RS_PN rows when the input
    has no repeated identifier and the output had no duplicate before the
    first run. *)
Theorem main_second_run_appends_nothing {pd : Pandas} (plain : row -> Prop)
    fetch1 fetch2 cells f w1 w2 :
  let f1 := (main fetch1 (Some cells) f w1).1 in
  reads_back plain ->
  under_header f ->
  Forall plain (rows_of f1) ->
  main fetch2 (Some cells) f1 w2 = (f1, w2)
  /\ (NoDup (List.filter Str.truthy (Str.strip <$> cells)) ->
      NoDup (RS_PN <$> rows_of f) ->
      NoDup (RS_PN <$> rows_of f1)).
Proof.
  intros f1 Hread Hf Hplain1.
  assert (Hcol : RS_PN <$> rows_of f1 =
    ((RS_PN <$> rows_of f)
       ++ List.filter (todo (load_already_done f)) (Str.strip <$> cells))%list).
  { unfold f1. cbn [main]. apply batch_loop_column. }
  assert (Hf1 : under_header f1).
  { unfold f1. cbn [main].
    destruct (batch_loop_spec fetch1 (load_already_done f) (Str.strip <$> cells) f w1)
      as (rows & -> & _).
    by apply under_header_append_rows. }
  assert (Hplain : Forall plain (rows_of f)).
  { revert Hplain1. unfold f1. cbn [main].
    destruct (batch_loop_spec fetch1 (load_already_done f) (Str.strip <$> cells) f w1)
      as (rows & -> & _).
    rewrite rows_of_append_rows. by intros [? _]%Forall_app. }
  pose proof (load_already_done_rows plain f Hread Hf Hplain) as Hdone.
  pose proof (load_already_done_rows plain f1 Hread Hf1 Hplain1) as Hdone1.
  split.
  - cbn [main]. apply batch_loop_nothing_to_do, filter_todo_done.
    intros x Hx Hne.
    rewrite Hdone1, Hcol, fmap_app, list_to_set_app_L.
    destruct (decide (x ∈ load_already_done f)) as [Hin|Hout].
    + apply elem_of_union_l. by rewrite <- Hdone.
    + apply elem_of_union_r, elem_of_list_to_set, list_elem_of_fmap.
      exists x. split.
      * apply list_elem_of_In, list_elem_of_fmap in Hx as (c & -> & _).
        by rewrite StrFacts.strip_idem.
      * apply list_elem_of_In, List.filter_In. split; [done|]. by apply todo_true.
  - intros Hin Hout. rewrite Hcol. apply NoDup_app. split_and!; [done| |].
    + intros x Hx Hx'.
      apply list_elem_of_In, List.filter_In in Hx' as [Hc [_ Hnot]%todo_true].
      apply Hnot. rewrite Hdone.
      apply elem_of_list_to_set, list_elem_of_fmap. exists x. split; [|done].
      apply list_elem_of_In, list_elem_of_fmap in Hc as (c & -> & _).
      by rewrite StrFacts.strip_idem.
    + rewrite filter_todo_truthy. by apply NoDup_bool_filter.
Qed.

Lemma main_second_run_appends_nothing_witness :
  let cells := ["123-456"; " 666-666 "; ""] in
  let f1 := (run (H := plain_text) (pd := pandas_fixed) requests_get_fixed
               (Some cells) None world0).1 in
  reads_back (pd := pandas_fixed) (fun _ => True)
  /\ under_header None
  /\ Forall (fun _ => True) (rows_of f1)
  /\ run (H := plain_text) (pd := pandas_fixed) requests_get_fixed (Some cells) f1 world0
     = (f1, world0)
  /\ NoDup (RS_PN <$> rows_of f1).
Proof.
  intros cells f1.
  assert (Hplain : Forall (fun _ : row => True) (rows_of f1)).
  { apply Forall_forall. done. }
  destruct (main_second_run_appends_nothing (pd := pandas_fixed) (fun _ => True)
              (fun rs_pn =>
                 let* r := fetch_rs_info (H := plain_text) requests_get_fixed rs_pn in
                 ret (inr r))
              (fun rs_pn =>
                 let* r := fetch_rs_info (H := plain_text) requests_get_fixed rs_pn in
                 ret (inr r))
              cells None world0 world0 pandas_fixed_reads_back I Hplain) as [H1 H2].
  split; [exact pandas_fixed_reads_back|]. split; [exact I|].
  split; [exact Hplain|]. split; [exact H1|]. apply H2.
  - apply (bool_decide_unpack _). vm_compute. exact I.
  - constructor.
Defined.

(** C4, an input on which the claim fails: an identifier that occurs
    twice in the input is written twice by the first run, and the output
    after the second run still holds both rows. *)
Lemma main_twice_leaves_duplicates :
  let cells := ["123-456"; "123-456"] in
  let f1 := (run (H := plain_text) (pd := pandas_fixed) requests_get_fixed
               (Some cells) None world0).1 in
  let f2 := (run (H := plain_text) (pd := pandas_fixed) requests_get_fixed
               (Some cells) f1 world0).1 in
  RS_PN <$> rows_of f2 = ["123-456"; "123-456"]
  /\ ~ NoDup (RS_PN <$> rows_of f2).
Proof.
  assert (E : RS_PN <$> rows_of
                (run (H := plain_text) (pd := pandas_fixed) requests_get_fixed
                   (Some ["123-456"; "123-456"])
                   (run (H := plain_text) (pd := pandas_fixed) requests_get_fixed
                      (Some ["123-456"; "123-456"]) None world0).1
                   world0).1 = ["123-456"; "123-456"]) by (by vm_compute).
  cbv zeta. rewrite E. split; [done|].
  intros Hn. apply NoDup_cons in Hn as [Hn _]. apply Hn. by left.
Qed.

(** An output file that was there and empty: the first run writes its
    row under no header, the second run finds no column RS_PN, takes
    nothing for done and writes the row again. *)
Lemma main_twice_on_an_empty_file :
  let cells := ["123-456"] in
  let f1 := (run (H := plain_text) (pd := pandas_fixed) requests_get_fixed
               (Some cells) (Some (CsvFile false [])) world0).1 in
  let f2 := (run (H := plain_text) (pd := pandas_fixed) requests_get_fixed
               (Some cells) f1 world0).1 in
  (exists r, f1 = Some (CsvFile false [r]) /\ RS_PN r = "123-456")
  /\ load_already_done (pd := pandas_fixed) f1 = ∅
  /\ RS_PN <$> rows_of f2 = ["123-456"; "123-456"].
Proof.
  cbv zeta. split; [eexists; split; by vm_compute|].
  split; by vm_compute.
Qed.

Lemma main_keeps_going_after_exception_witness :
  let cells := ["123-456"; " 666-666 "; "789-012"] in
  (fetch_fixed "666-666" world0).1 = inl "boom"
  /\ lookup_row fetch_fixed "666-666" world0 =
       (Row "666-666" "" "" (Url "") "EXCEPTION:boom", world0)
  /\ exists rows,
       rows_of (main (pd := pandas_fixed) fetch_fixed (Some cells) None world0).1
       = ([] ++ rows)%list
       /\ RS_PN <$> rows = ["123-456"; "666-666"; "789-012"]
       /\ lookups fetch_fixed world0 ["123-456"; "666-666"; "789-012"] rows
            (main (pd := pandas_fixed) fetch_fixed (Some cells) None world0).2.
Proof.
  intros cells.
  destruct (main_keeps_going_after_exception (pd := pandas_fixed)
              fetch_fixed cells None world0)
    as [Hexc Hrows].
  split; [reflexivity|]. split; [exact (Hexc "666-666" world0 "boom" eq_refl)|].
  exact Hrows.
Defined.

Lemma main_writes_a_row_per_occurrence_witness :
  let column :=
    RS_PN <$> rows_of (run (H := plain_text) (pd := pandas_fixed) requests_get_fixed
                         (Some ["123-456"; "123-456 "]) None world0).1 in
  occurrences "123-456" column = 0 + 2
  /\ (2 <= 2 -> ~ NoDup column).
Proof.
  apply (main_writes_a_row_per_occurrence (pd := pandas_fixed)
           (fun rs_pn =>
              let* r := fetch_rs_info (H := plain_text) requests_get_fixed rs_pn in
              ret (inr r))
           ["123-456"; "123-456 "] None world0 "123-456").
  - discriminate.
  - apply not_elem_of_empty.
Defined.

(** ** The lookup state machine *)

Section LookupFacts.
Context {node : Type} `{Soup node}.
Variable requests_get : nat -> url -> reply.

Lemma post_ret {A} (a : A) (P : A -> Prop) : P a -> post (ret a) P.
Proof. by intros Ha w. Qed.

Lemma post_bind {A B} (m : M A) (f : A -> M B) (P : B -> Prop) :
  (forall a, post (f a) P) -> post (bind m f) P.
Proof. intros Hf w. unfold bind. destruct (m w) as [a w']. apply Hf. Qed.

Lemma sanitize_mpn_sound mpn rs_pn :
  mpn_sound mpn rs_pn -> sanitize_mpn mpn rs_pn = mpn.
Proof.
  unfold sanitize_mpn. intros [->|[Hv|[Hh Hfree]]]; [done|by rewrite Hv, andb_false_r|].
  destruct (Str.truthy mpn && negb _); [|done].
  unfold first_loose_token, re_seps.
  rewrite (SplitFacts.split_id _ _ Hfree). simpl. by rewrite Hh.
Qed.

Lemma strict_sound candidate rs_pn :
  strict candidate (Some rs_pn) = ""
  \/ is_valid_mpn_from_field (strict candidate (Some rs_pn)) (Some rs_pn) = true.
Proof.
  unfold strict. destruct (is_valid_mpn_from_field candidate _) eqn:E; auto.
Qed.

Lemma with_distrelec_sound (c : node) brand mpn rs_pn :
  (mpn = "" \/ is_valid_mpn_from_field mpn (Some rs_pn) = true) ->
  with_distrelec c brand mpn (Some rs_pn) = ""
  \/ is_valid_mpn_from_field (with_distrelec c brand mpn (Some rs_pn)) (Some rs_pn)
     = true.
Proof.
  intros Hm. unfold with_distrelec.
  destruct (negb (Str.truthy mpn) && is_rs_pro brand); [|done].
  destruct (Str.truthy _ && is_valid_mpn_from_field _ _) eqn:E; [|done].
  apply andb_true_iff in E as [_ E]. by right.
Qed.

Lemma sound_of_strict mpn rs_pn :
  mpn = "" \/ is_valid_mpn_from_field mpn (Some rs_pn) = true ->
  mpn_sound (sanitize_mpn mpn rs_pn) rs_pn.
Proof.
  intros Hm.
  assert (Hs : mpn_sound mpn rs_pn) by (destruct Hm; [by left|by right; left]).
  by rewrite sanitize_mpn_sound.
Qed.

Lemma card_fields_sound (c : node) rs_pn :
  mpn_sound (card_fields c rs_pn).2 rs_pn.
Proof.
  unfold card_fields. cbn [snd].
  apply sound_of_strict, with_distrelec_sound.
  destruct (find_testid c "dd" "mpn-desktop") as [dd|].
  - destruct (has_text dd); [apply strict_sound|].
    destruct (find_mpn_dt c) as [dt|]; [|by left].
    destruct (next_dd_text dt); [apply strict_sound|by left].
  - destruct (find_mpn_dt c) as [dt|]; [|by left].
    destruct (next_dd_text dt); [apply strict_sound|by left].
Qed.

Lemma sibling_fields_sound (c : node) rs_pn :
  mpn_sound (sibling_fields c rs_pn).2 rs_pn.
Proof.
  unfold sibling_fields. cbn [snd].
  apply sound_of_strict, with_distrelec_sound.
  destruct (find_testid c "dd" "mpn-desktop") as [dd|]; [|by left].
  destruct (has_text dd); [apply strict_sound|by left].
Qed.

Lemma walk_up_sound levels (c : option node) u rs_pn r :
  walk_up levels c u rs_pn = Some r -> found_sound rs_pn r.
Proof.
  revert c. induction levels as [|n IH]; intros c; [done|].
  destruct c as [c|]; [|done]. cbn [walk_up].
  pose proof (card_fields_sound c rs_pn) as Hc.
  destruct (existsb _ _); [|apply IH].
  destruct (card_fields c rs_pn) as [brand mpn].
  destruct (fields_ok brand mpn rs_pn); [|apply IH].
  by intros [= <-].
Qed.

Lemma try_sibling_sound (a : node) u rs_pn r :
  try_sibling a u rs_pn = Some r -> found_sound rs_pn r.
Proof.
  unfold try_sibling. destruct (find_next_sibling a None) as [s|]; [|done].
  pose proof (sibling_fields_sound s rs_pn) as Hs.
  destruct (sibling_fields s rs_pn) as [brand mpn].
  destruct (fields_ok brand mpn rs_pn); [|done].
  by intros [= <-].
Qed.

Lemma try_candidates_sound (cs : list candidate) rs_pn r :
  try_candidates cs rs_pn = Some r -> found_sound rs_pn r.
Proof.
  induction cs as [|[[score a] u] cs IH]; [done|]. cbn [try_candidates].
  destruct (walk_up 4 (Some a) u rs_pn) eqn:Ew.
  { intros [= <-]. eapply walk_up_sound, Ew. }
  destruct (try_sibling a u rs_pn) eqn:Es.
  { intros [= <-]. eapply try_sibling_sound, Es. }
  apply IH.
Qed.

Lemma parse_search_page_sound html rs_pn :
  found_sound rs_pn (parse_search_page_for_fields html rs_pn).
Proof.
  unfold parse_search_page_for_fields.
  destruct (sort_by_score _) as [|[[score a] top] cs]; [by left|].
  destruct (try_candidates _ rs_pn) eqn:Et; [|by left].
  eapply try_candidates_sound, Et.
Qed.

Lemma snippet_fields_sound raw rs_pn m :
  mpn_sound (snippet_fields raw rs_pn m).2 rs_pn.
Proof.
  unfold snippet_fields. cbn [snd].
  set (snippet := window raw m).
  assert (Hm : mpn_sound (snippet_mpn snippet rs_pn) rs_pn).
  { unfold snippet_mpn.
    destruct (match Re.search re_mpn_dd snippet with
              | Some g => Some g | None => Re.search re_mpn_dt snippet end)
      as [g|]; [|by left].
    destruct (is_valid_mpn_from_field (Str.strip g) (Some rs_pn)) eqn:Ev.
    - by right; left.
    - pose proof (first_loose_token_spec (Str.strip g) rs_pn) as Hf.
      destruct (first_loose_token _ _) as [tok|]; [|by left].
      destruct Hf as (Ht & Hfree & _). by right; right. }
  unfold snippet_dist.
  destruct (negb _ && _); [|done].
  destruct (Re.search re_dist snippet) as [g|]; [|done].
  destruct (is_valid_mpn_from_field (Str.strip g) (Some rs_pn)) eqn:Ev; [|done].
  by right; left.
Qed.

Lemma aggressive_search_scan_sound raw rs_pn :
  found_sound rs_pn (aggressive_search_scan raw rs_pn).
Proof.
  unfold aggressive_search_scan.
  destruct (Re.findall re_product_link raw) as [|first rest]; [by left|].
  pose proof (ScanFacts.scan_matches_spec raw rs_pn (first :: rest)) as Hs.
  destruct (scan_matches raw rs_pn (first :: rest)) as [r|]; [|by left].
  destruct Hs as (pre & m & post & _ & _ & _ & ->).
  apply snippet_fields_sound.
Qed.

Lemma startswith_app p s e :
  String.length p <= String.length s ->
  Str.startswith p (s ++ e) = Str.startswith p s.
Proof.
  revert s. induction p as [|a p IH]; intros s Hl; [by destruct s|].
  destruct s as [|b s]; [simpl in Hl; lia|].
  rewrite SplitFacts.app_cons. cbn [Str.startswith]. f_equal.
  apply IH. simpl in Hl. lia.
Qed.

Lemma is_success_app_false (p e : string) :
  is_success p = false -> 3 <= String.length p -> is_success (p ++ e) = false.
Proof. unfold is_success. intros E Hl. by rewrite startswith_app. Qed.

(** a status built on a failure tag is no success *)
Ltac not_success :=
  unfold info_ok, ret; cbn [fst snd]; intros;
  try match goal with
      | Hs : is_success (_ ++ _) = true |- _ =>
          rewrite is_success_app_false in Hs;
          [discriminate | reflexivity | simpl; lia]
      end;
  try (apply is_success_app_false; [reflexivity | simpl; lia]).

(** The search wrapper returns a sound MPN, and a success status only
    together with a link. *)
Lemma search_rs_for_part_combined_sound rs_pn :
  post (search_rs_for_part_combined requests_get rs_pn)
       (fun r => found_sound rs_pn r
                 /\ (link_truthy r.1.1.1 = false -> is_success r.2 = false)).
Proof.
  unfold search_rs_for_part_combined. apply post_bind. intros [e|code text].
  { apply post_ret. split; [by left|]. not_success. }
  destruct (negb (N.eqb code 200)).
  { apply post_bind. intros _. apply post_ret. split; [by left|]. not_success. }
  pose proof (parse_search_page_sound text rs_pn) as Hp.
  destruct (parse_search_page_for_fields text rs_pn) as [[[pl b] m] st].
  destruct (link_truthy pl && _) eqn:Eg.
  { apply post_ret. split; [done|]. cbn. intros E. by rewrite E in Eg. }
  pose proof (aggressive_search_scan_sound text rs_pn) as Ha.
  destruct (aggressive_search_scan text rs_pn) as [[[pl2 b2] m2] st2].
  destruct (link_truthy pl2) eqn:El.
  - destruct (Str.truthy b2 || Str.truthy m2);
      apply post_ret; (split; [done || by left|]); cbn; congruence.
  - apply post_bind. intros _. apply post_ret. split; [by left|done].
Qed.

Lemma fields_ok_passes brand mpn rs_pn :
  fields_ok brand mpn rs_pn = true ->
  looks_like_brand brand = true
  \/ is_valid_mpn_from_field mpn (Some rs_pn) = true
  \/ heuristic_mpn_candidate mpn (Some rs_pn) = true.
Proof.
  unfold fields_ok.
  intros [[_ ?]%andb_true_iff|[_ [?|?]%orb_true_iff]%andb_true_iff]%orb_true_iff;
    auto.
Qed.

Lemma follow_link_ok rs_pn link :
  post (follow_link requests_get rs_pn link) (info_ok rs_pn).
Proof.
  unfold follow_link. apply post_bind. intros [e|code text].
  { apply post_ret. not_success. }
  destruct (negb (N.eqb code 200)).
  { apply post_bind. intros _. apply post_ret. not_success. }
  destruct (parse_product_page_for_fields text (Some rs_pn)) as [mpn2 brand2].
  destruct (fields_ok brand2 mpn2 rs_pn) eqn:Eok.
  - apply post_ret. intros _. by apply fields_ok_passes.
  - apply post_bind. intros _. apply post_ret. by intros ?.
Qed.

Lemma search_stage_ok rs_pn :
  post (search_stage requests_get rs_pn) (info_ok rs_pn).
Proof.
  unfold search_stage. intros w. unfold bind.
  pose proof (search_rs_for_part_combined_sound rs_pn w) as [Hs Hl].
  destruct (search_rs_for_part_combined requests_get rs_pn w)
    as [[[[pl b] m] st] w'].
  unfold found_sound in Hs. cbn [fst snd] in Hs, Hl. destruct pl as [link|].
  2:{ unfold info_ok, ret. cbn [fst snd]. intros E. rewrite Hl in E; done. }
  destruct (link_truthy (Some link)) eqn:El; cbn [negb].
  2:{ unfold info_ok, ret. cbn [fst snd]. intros E. rewrite Hl in E; done. }
  destruct (fields_ok b m rs_pn) eqn:Eok.
  - unfold info_ok, ret. cbn [fst snd]. intros _.
    rewrite (sanitize_mpn_sound _ _ Hs). by apply fields_ok_passes.
  - apply follow_link_ok.
Qed.

Lemma fetch_rs_info_ok rs_pn :
  post (fetch_rs_info requests_get rs_pn) (info_ok rs_pn).
Proof.
  unfold fetch_rs_info. apply post_bind. intros [e|code text].
  { apply post_ret. not_success. }
  destruct (N.eqb code 200); [|apply search_stage_ok].
  destruct (parse_product_page_for_fields text (Some rs_pn)) as [mpn brand].
  destruct (fields_ok brand mpn rs_pn) eqn:Eok.
  - apply post_ret. intros _. by apply fields_ok_passes.
  - apply post_bind. intros _. apply search_stage_ok.
Qed.
End LookupFacts.

(** C2. Whatever the pages fetched, a lookup that returns a status
    tagged as a success, one that begins with OK(, returns a brand that
    passes [looks_like_brand] or an MPN that passes the strict or the
    loose validation against the RS_PN. *)
Theorem fetch_rs_info_success_has_valid_field
    {node : Type} `{Soup node} (requests_get : nat -> url -> reply)
    (rs_pn : string) (w : world) (mpn brand status : string) (product_url : url)
    (w' : world) :
  fetch_rs_info requests_get rs_pn w = (mpn, brand, product_url, status, w') ->
  Str.startswith "OK(" status = true ->
  looks_like_brand brand = true
  \/ is_valid_mpn_from_field mpn (Some rs_pn) = true
  \/ heuristic_mpn_candidate mpn (Some rs_pn) = true.
Proof.
  intros E. pose proof (fetch_rs_info_ok requests_get rs_pn w) as Hok.
  rewrite E in Hok. exact Hok.
Qed.

Lemma fetch_rs_info_success_has_valid_field_witness :
  fetch_rs_info (H := plain_text) requests_get_fixed "123-456" world0 =
    ("12-345", "", UrlJoin site "/web/p/123-456/", "OK(search:OK(raw-snippet))",
     {| gets := 2; failed_pages := [] |})
  /\ Str.startswith "OK(" "OK(search:OK(raw-snippet))" = true
  /\ (looks_like_brand "" = true
      \/ is_valid_mpn_from_field "12-345" (Some "123-456") = true
      \/ heuristic_mpn_candidate "12-345" (Some "123-456") = true).
Proof.
  assert (E : fetch_rs_info (H := plain_text) requests_get_fixed "123-456" world0 =
    ("12-345", "", UrlJoin site "/web/p/123-456/", "OK(search:OK(raw-snippet))",
     {| gets := 2; failed_pages := [] |})) by (vm_compute; reflexivity).
  assert (S : Str.startswith "OK(" "OK(search:OK(raw-snippet))" = true)
    by reflexivity.
  exact (conj E (conj S
    (fetch_rs_info_success_has_valid_field (H := plain_text)
       requests_get_fixed "123-456" world0 _ _ _ _ _ E S))).
Defined.

(** * Further properties *)

(** ** Validators *)

Module ValidatorFacts.

Lemma rejection_none_in_empty :
  existsb (fun bad => Str.contains bad "") _rejection_substrings = false.
Proof. reflexivity. Qed.

Lemma strip_empty_cases s :
  Str.strip s = "" -> s = "" \/ Str.truthy s = true.
Proof. destruct s; auto. Qed.

Lemma lower_idem_char c : Char.lower (Char.lower c) = Char.lower c.
Proof. destruct c as [[] [] [] [] [] [] [] []]; by vm_compute. Qed.

Lemma lower_alnum c : Char.is_alnum (Char.lower c) = Char.is_alnum c.
Proof. destruct c as [[] [] [] [] [] [] [] []]; by vm_compute. Qed.

Lemma lower_is_blank c : Ascii.eqb (Char.lower c) " " = Ascii.eqb c " ".
Proof. destruct c as [[] [] [] [] [] [] [] []]; by vm_compute. Qed.

Lemma lower_idem s : Str.lower (Str.lower s) = Str.lower s.
Proof.
  unfold Str.lower. induction s as [|c s IH]; [done|]. cbn [Str.map].
  by rewrite lower_idem_char, IH.
Qed.

Lemma truthy_lower s : Str.truthy (Str.lower s) = Str.truthy s.
Proof. by destruct s. Qed.

Lemma any_alnum_lower s :
  Str.any Char.is_alnum (Str.lower s) = Str.any Char.is_alnum s.
Proof.
  unfold Str.lower. induction s as [|c s IH]; [done|]. cbn [Str.map Str.any].
  by rewrite lower_alnum, IH.
Qed.

Lemma remove_spaces_lower s :
  Str.remove_spaces (Str.lower s) = Str.lower (Str.remove_spaces s).
Proof.
  unfold Str.lower. induction s as [|c s IH]; [done|].
  cbn [Str.map Str.remove_spaces]. rewrite lower_is_blank.
  destruct (Ascii.eqb c " "); [done|]. cbn [Str.map]. by rewrite IH.
Qed.

Lemma starts_word_lower s : Str.starts_word (Str.lower s) = Str.starts_word s.
Proof. destruct s as [|c s]; [done|]. simpl. by rewrite EdgeFacts.lower_space. Qed.

Lemma split_lower s : Str.split (Str.lower s) = Str.lower <$> Str.split s.
Proof.
  induction s as [|c s IH]; [done|].
  change (Str.lower (String c s)) with (String (Char.lower c) (Str.lower s)).
  cbn [Str.split]. rewrite EdgeFacts.lower_space, starts_word_lower, IH.
  destruct (Char.is_space c); [done|].
  destruct (Str.starts_word s); [|done]. by destruct (Str.split s).
Qed.

End ValidatorFacts.

(** X1. The three validators look at the stripped string only: leading
    and trailing whitespace of the candidate changes none of them. *)
Theorem validators_ignore_surrounding_whitespace s rs_pn_hint :
  looks_like_brand (Str.strip s) = looks_like_brand s
  /\ is_valid_mpn_from_field (Str.strip s) rs_pn_hint
     = is_valid_mpn_from_field s rs_pn_hint
  /\ heuristic_mpn_candidate (Str.strip s) rs_pn_hint
     = heuristic_mpn_candidate s rs_pn_hint.
Proof.
  unfold looks_like_brand, is_valid_mpn_from_field, heuristic_mpn_candidate.
  rewrite StrFacts.strip_idem.
  destruct (Str.strip s) as [|c t] eqn:E.
  - destruct s as [|d s]; [done|]. cbn [Str.truthy negb].
    split_and!; reflexivity.
  - destruct s as [|d s]; [done|]. done.
Qed.

(** X2. On the strings of the model (Latin-1), the strict validation
    does not depend on the case of the candidate, nor on the case of the
    hint. *)
Theorem is_valid_mpn_case_insensitive candidate rs_pn :
  (forall rs_pn_hint,
     is_valid_mpn_from_field (Str.lower candidate) rs_pn_hint
     = is_valid_mpn_from_field candidate rs_pn_hint)
  /\ is_valid_mpn_from_field candidate (Some (Str.lower rs_pn))
     = is_valid_mpn_from_field candidate (Some rs_pn).
Proof.
  split.
  - intros h. unfold is_valid_mpn_from_field, re_alnum.
    rewrite ValidatorFacts.truthy_lower, !EdgeFacts.strip_lower.
    rewrite ValidatorFacts.split_lower, length_fmap, ValidatorFacts.lower_idem.
    rewrite !ReFacts.test_one, ValidatorFacts.any_alnum_lower.
    by rewrite ValidatorFacts.remove_spaces_lower, ValidatorFacts.lower_idem.
  - unfold is_valid_mpn_from_field. cbn [hint_truthy hint_str].
    by rewrite ValidatorFacts.truthy_lower, ValidatorFacts.lower_idem.
Qed.

Module EchoFacts.

Lemma blank_is_space c : Ascii.eqb c " " = true -> Char.is_space c = true.
Proof. intros ->%Ascii.eqb_eq. reflexivity. Qed.

Lemma remove_spaces_lstrip s :
  Str.no_lead (Str.remove_spaces s) = true ->
  Str.remove_spaces (Str.lstrip s) = Str.remove_spaces s.
Proof.
  induction s as [|c s IH]; [done|]. cbn [Str.remove_spaces Str.lstrip].
  destruct (Ascii.eqb c " ") eqn:Eb.
  - rewrite (blank_is_space c Eb). apply IH.
  - cbn [Str.no_lead]. intros ->%negb_true_iff. cbn [Str.remove_spaces].
    by rewrite Eb.
Qed.

Lemma remove_spaces_rstrip s :
  Str.no_trail (Str.remove_spaces s) = true ->
  Str.remove_spaces (Str.rstrip s) = Str.remove_spaces s.
Proof.
  induction s as [|c s IH]; [done|]. cbn [Str.remove_spaces Str.rstrip].
  destruct (Ascii.eqb c " ") eqn:Eb.
  - intros Ht. specialize (IH Ht). rewrite (blank_is_space c Eb).
    destruct (Str.rstrip s) as [|d r]; [done|].
    cbn [Str.remove_spaces]. rewrite Eb. exact IH.
  - intros Ht.
    assert (Ht' : Str.no_trail (Str.remove_spaces s) = true).
    { cbn [Str.no_trail] in Ht. by destruct (Str.remove_spaces s). }
    specialize (IH Ht').
    destruct (Str.rstrip s) as [|d r].
    + cbn [Str.remove_spaces] in IH. rewrite <- IH in Ht |- *.
      cbn [Str.no_trail] in Ht. apply negb_true_iff in Ht. rewrite Ht.
      cbn [Str.remove_spaces]. by rewrite Eb.
    + cbn [Str.remove_spaces]. rewrite Eb. cbn [Str.remove_spaces] in IH.
      by rewrite IH.
Qed.

Lemma rstrip_no_trail s : Str.no_trail (Str.rstrip s) = true.
Proof.
  induction s as [|c s IH]; [done|]. cbn [Str.rstrip].
  destruct (Str.rstrip s) as [|d r].
  - destruct (Char.is_space c) eqn:Ec; [done|]. simpl. by rewrite Ec.
  - exact IH.
Qed.

Lemma no_lead_map_lower s : Str.no_lead (Str.lower s) = Str.no_lead s.
Proof. destruct s as [|c s]; [done|]. simpl. by rewrite EdgeFacts.lower_space. Qed.

Lemma no_trail_map_lower s : Str.no_trail (Str.lower s) = Str.no_trail s.
Proof.
  induction s as [|c s IH]; [done|].
  change (Str.lower (String c s)) with (String (Char.lower c) (Str.lower s)).
  destruct s as [|d s]; [simpl; by rewrite EdgeFacts.lower_space|].
  exact IH.
Qed.

Lemma any_space_false_all s :
  Str.any Char.is_space s = false ->
  Str.all (fun c => negb (Char.is_space c)) s = true.
Proof.
  induction s as [|c s IH]; [done|]. simpl.
  intros [-> Hs]%orb_false_iff. by rewrite IH.
Qed.

Lemma remove_spaces_id s :
  Str.any Char.is_space s = false -> Str.remove_spaces s = s.
Proof.
  induction s as [|c s IH]; [done|]. simpl.
  intros [Hc Hs]%orb_false_iff. rewrite IH by done.
  destruct (Ascii.eqb c " ") eqn:Eb; [|done].
  by rewrite (blank_is_space c Eb) in Hc.
Qed.

Lemma strip_id_no_space s : Str.any Char.is_space s = false -> Str.strip s = s.
Proof.
  intros Hs. apply (StrFacts.strip_id_all (fun c => negb (Char.is_space c))).
  - by intros c ->%negb_true_iff.
  - by apply any_space_false_all.
Qed.

End EchoFacts.

(** X3. Against an RS_PN that holds no whitespace, the strict validation
    rejects every candidate that equals the RS_PN once the spaces are
    removed and the case is ignored, wherever the candidate holds its
    spaces. *)
Theorem is_valid_mpn_never_echoes_unspaced_rs_pn candidate rs_pn :
  rs_pn <> "" ->
  Str.any Char.is_space rs_pn = false ->
  Str.lower (Str.remove_spaces candidate) = Str.lower (Str.remove_spaces rs_pn) ->
  is_valid_mpn_from_field candidate (Some rs_pn) = false.
Proof.
  intros Hne Hns E. rewrite (EchoFacts.remove_spaces_id rs_pn Hns) in E.
  apply is_valid_mpn_rejects_echo; [done|].
  assert (Hlead : Str.no_lead (Str.remove_spaces candidate) = true).
  { rewrite <- EchoFacts.no_lead_map_lower, E, EchoFacts.no_lead_map_lower.
    rewrite <- (EchoFacts.strip_id_no_space rs_pn Hns).
    apply StrFacts.rstrip_no_lead, StrFacts.lstrip_no_lead. }
  assert (Htrail : Str.no_trail (Str.remove_spaces candidate) = true).
  { rewrite <- EchoFacts.no_trail_map_lower, E, EchoFacts.no_trail_map_lower.
    rewrite <- (EchoFacts.strip_id_no_space rs_pn Hns).
    apply EchoFacts.rstrip_no_trail. }
  unfold Str.strip.
  rewrite EchoFacts.remove_spaces_rstrip.
  - by rewrite EchoFacts.remove_spaces_lstrip.
  - by rewrite EchoFacts.remove_spaces_lstrip.
Qed.

Lemma is_valid_mpn_never_echoes_unspaced_rs_pn_witness :
  "123-4567" <> ""
  /\ Str.any Char.is_space "123-4567" = false
  /\ Str.lower (Str.remove_spaces " 123 -4567 ")
     = Str.lower (Str.remove_spaces "123-4567")
  /\ is_valid_mpn_from_field " 123 -4567 " (Some "123-4567") = false.
Proof.
  assert (H1 : "123-4567" <> "") by discriminate.
  assert (H2 : Str.any Char.is_space "123-4567" = false) by reflexivity.
  assert (H3 : Str.lower (Str.remove_spaces " 123 -4567 ")
               = Str.lower (Str.remove_spaces "123-4567")) by reflexivity.
  exact (conj H1 (conj H2 (conj H3
    (is_valid_mpn_never_echoes_unspaced_rs_pn _ _ H1 H2 H3)))).
Defined.

(** ** Normalisation *)

Module NormFacts.
Import Re.

Lemma sub_from_squeeze s :
  sub_from [plus Char.is_space] " " 0 s = squeeze s
  /\ (Str.starts_in Char.is_space s = true ->
      String " " (sub_from [plus Char.is_space] " "
                    (Str.run_length Char.is_space s) s) = squeeze s).
Proof.
  induction s as [|c s [IH1 IH2]]; [done|].
  assert (Hrun : Char.is_space c = true ->
    String " " (sub_from [plus Char.is_space] " "
                  (Str.run_length Char.is_space s) s) = squeeze (String c s)).
  { intros Hc. cbn [squeeze]. rewrite Hc.
    destruct (Str.starts_in Char.is_space s) eqn:Es; [by apply IH2|].
    by rewrite (FieldsFacts.run_length_not_starts _ _ Es), IH1. }
  split.
  - cbn [sub_from]. rewrite SplitFacts.match_here_plus.
    destruct (Char.is_space c) eqn:Ec.
    + pose proof (SplitFacts.after_run_length Char.is_space s) as Hl.
      assert (Nat.ltb (String.length (Str.after_run Char.is_space s))
                      (String.length (String c s)) = true) as ->.
      { apply Nat.ltb_lt. simpl. lia. }
      replace (String.length s - String.length (Str.after_run Char.is_space s))
        with (Str.run_length Char.is_space s) by lia.
      rewrite <- (Hrun eq_refl). reflexivity.
    + cbn [squeeze]. by rewrite Ec, IH1.
  - cbn [Str.starts_in Str.run_length]. intros Hc. rewrite Hc.
    cbn [sub_from]. by apply Hrun.
Qed.

Lemma sub_squeeze s : sub [plus Char.is_space] " " s = squeeze s.
Proof. apply sub_from_squeeze. Qed.

Lemma squeeze_no_lead s : Str.no_lead s = true -> Str.no_lead (squeeze s) = true.
Proof.
  destruct s as [|c s]; [done|]. simpl. intros Hc.
  apply negb_true_iff in Hc. rewrite Hc. simpl. by rewrite Hc.
Qed.

Lemma lstrip_squeeze s : Str.lstrip (squeeze s) = squeeze (Str.lstrip s).
Proof.
  induction s as [|c s IH]; [done|]. cbn [squeeze Str.lstrip].
  destruct (Char.is_space c) eqn:Ec.
  - destruct (Str.starts_in Char.is_space s); [done|].
    cbn [Str.lstrip]. by replace (Char.is_space " ") with true by reflexivity.
  - cbn [Str.lstrip squeeze]. by rewrite Ec.
Qed.

Lemma starts_word_in s :
  Str.starts_word s = true -> Str.starts_in Char.is_space s = false.
Proof. destruct s as [|c s]; [done|]. simpl. by intros ->%negb_true_iff. Qed.

Lemma split_starts_word s :
  Str.starts_word s = true -> exists w ws, Str.split s = String w.1 w.2 :: ws.
Proof.
  destruct s as [|c s]; [done|]. cbn [Str.starts_word Str.split].
  intros ->%negb_true_iff.
  destruct (Str.starts_word s).
  - destruct (Str.split s) as [|w ws]; [by exists (c, ""), []|by exists (c, w), ws].
  - by exists (c, ""), (Str.split s).
Qed.

Lemma join_cons_word c w ws :
  join " " (String c w :: ws) = String c (join " " (w :: ws)).
Proof. by destruct ws. Qed.

Lemma join_cons c (ws : list string) :
  join " " (String c "" :: ws) =
  String c (match ws with [] => "" | _ => String " " (join " " ws) end).
Proof. by destruct ws. Qed.

Lemma join_nonempty w ws : join " " (String w.1 w.2 :: ws) <> "".
Proof. by destruct ws. Qed.

Lemma not_starts_word s :
  Str.starts_word s = false -> s = "" \/ Str.starts_in Char.is_space s = true.
Proof. destruct s as [|c s]; [by left|]. simpl. intros ->%negb_false_iff. by right. Qed.

(** [rstrip] of a squeezed string, against the words of the string *)
Lemma rstrip_squeeze s :
  Str.rstrip (squeeze s) =
  if Str.starts_in Char.is_space s then
    match Str.split s with
    | [] => ""
    | ws => String " " (join " " ws)
    end
  else join " " (Str.split s).
Proof.
  induction s as [|c s IH]; [done|].
  cbn [squeeze Str.split Str.starts_in].
  destruct (Char.is_space c) eqn:Ec.
  - destruct (Str.starts_in Char.is_space s) eqn:Es; [exact IH|].
    cbn [Str.rstrip]. rewrite IH.
    destruct (Str.split s) as [|w ws] eqn:Esp; [done|].
    assert (Hw : exists a w', w = String a w').
    { destruct s as [|d s]; [done|]. cbn [Str.starts_in] in Es.
      destruct (split_starts_word (String d s)) as ([a w'] & ws' & E').
      - simpl. by rewrite Es.
      - rewrite Esp in E'. injection E' as -> _. by eexists _, _. }
    destruct Hw as (a & w' & ->).
    destruct (join " " (String a w' :: ws)) eqn:Ej; [|done].
    by destruct (join_nonempty (a, w') ws).
  - cbn [Str.rstrip]. rewrite IH.
    destruct (Str.starts_word s) eqn:Ew.
    + rewrite (starts_word_in s Ew).
      destruct (split_starts_word s Ew) as ([a w'] & ws & ->). cbn [fst snd].
      cbn [Str.cons_word]. by rewrite !join_cons_word.
    + rewrite join_cons. destruct (not_starts_word s Ew) as [->|Es].
      { simpl. by rewrite Ec. }
      rewrite Es. destruct (Str.split s); [by rewrite Ec|done].
Qed.

Lemma split_lstrip s : Str.split (Str.lstrip s) = Str.split s.
Proof.
  induction s as [|c s IH]; [done|]. cbn [Str.lstrip].
  destruct (Char.is_space c) eqn:Ec; [|done]. cbn [Str.split]. by rewrite Ec.
Qed.

Lemma no_lead_starts_in s :
  Str.no_lead s = true -> Str.starts_in Char.is_space s = false.
Proof. destruct s as [|c s]; [done|]. simpl. by intros ->%negb_true_iff. Qed.

Lemma norm_join t : norm t = join " " (Str.split t).
Proof.
  unfold norm, Str.strip. rewrite sub_squeeze, lstrip_squeeze, rstrip_squeeze.
  rewrite (no_lead_starts_in _ (StrFacts.lstrip_no_lead t)).
  by rewrite split_lstrip.
Qed.

End NormFacts.

Module WordFacts.

Lemma cons_word_wordlike c ws :
  Char.is_space c = false -> Forall wordlike ws ->
  Forall wordlike (Str.cons_word c ws).
Proof.
  intros Hc Hws. destruct Hws as [|w ws [Hne Hw] Hws]; simpl.
  - repeat constructor; [done|]. simpl. by rewrite Hc.
  - constructor; [|done]. split; [done|]. simpl. by rewrite Hc, Hw.
Qed.

Lemma split_wordlike s : Forall wordlike (Str.split s).
Proof.
  induction s as [|c s IH]; [constructor|]. cbn [Str.split].
  destruct (Char.is_space c) eqn:Ec; [done|].
  destruct (Str.starts_word s); [by apply cons_word_wordlike|].
  constructor; [|done]. split; [done|]. simpl. by rewrite Ec.
Qed.

Lemma split_word_then_space w s :
  wordlike w -> Str.split (w ++ String " " s) = w :: Str.split s.
Proof.
  intros [Hne Hw]. induction w as [|c w IH]; [done|].
  rewrite SplitFacts.app_cons. cbn [Str.any] in Hw.
  apply orb_false_iff in Hw as [Hc Hw]. cbn [Str.split]. rewrite Hc.
  destruct w as [|d w].
  - by cbn.
  - rewrite IH by done. rewrite SplitFacts.app_cons. cbn [Str.starts_word].
    cbn [Str.any] in Hw. apply orb_false_iff in Hw as [-> _]. done.
Qed.

Lemma split_word w : wordlike w -> Str.split w = [w].
Proof.
  intros [Hne Hw]. apply (StrFacts.split_all (fun c => negb (Char.is_space c))).
  - by intros c ->%negb_true_iff.
  - by apply EchoFacts.any_space_false_all.
  - done.
Qed.

Lemma split_join ws : Forall wordlike ws -> Str.split (join " " ws) = ws.
Proof.
  induction 1 as [|w ws Hw Hws IH]; [done|].
  destruct ws as [|w2 ws]; [by apply split_word|].
  change (join " " (w :: w2 :: ws)) with (w ++ " " ++ join " " (w2 :: ws)).
  change (" " ++ join " " (w2 :: ws)) with (String " " (join " " (w2 :: ws))).
  by rewrite split_word_then_space, IH.
Qed.

Lemma split_norm t : Str.split (norm t) = Str.split t.
Proof. rewrite NormFacts.norm_join. apply split_join, split_wordlike. Qed.

Lemma norm_idem t : norm (norm t) = norm t.
Proof. by rewrite (NormFacts.norm_join (norm t)), split_norm, NormFacts.norm_join. Qed.

End WordFacts.

(** X4. [norm] returns the words of its argument joined by single spaces.
    It keeps the words, and normalising twice changes nothing more. *)
Theorem norm_joins_the_words t :
  norm t = join " " (Str.split t)
  /\ Str.split (norm t) = Str.split t
  /\ norm (norm t) = norm t.
Proof.
  split; [apply NormFacts.norm_join|].
  split; [apply WordFacts.split_norm|apply WordFacts.norm_idem].
Qed.

(** ** The retry on split tokens, continued *)

(** X5. What the retry returns is empty, or strictly valid, or passes
    the loose heuristic and holds no separator; and the retry applied to
    its own result changes nothing. *)
Theorem sanitize_mpn_settles mpn rs_pn :
  mpn_sound (sanitize_mpn mpn rs_pn) rs_pn
  /\ sanitize_mpn (sanitize_mpn mpn rs_pn) rs_pn = sanitize_mpn mpn rs_pn.
Proof.
  assert (Hs : mpn_sound (sanitize_mpn mpn rs_pn) rs_pn).
  { unfold sanitize_mpn.
    destruct (Str.truthy mpn) eqn:Et; cbn [andb].
    - destruct (is_valid_mpn_from_field mpn (Some rs_pn)) eqn:Ev; cbn [negb].
      + by right; left.
      + pose proof (first_loose_token_spec mpn rs_pn) as Hf.
        destruct (first_loose_token mpn rs_pn) as [tok|]; [|by left].
        destruct Hf as (Ht & Hfree & _). by right; right.
    - left. by apply StrFacts.truthy_false. }
  split; [done|]. by apply sanitize_mpn_sound.
Qed.

(** ** The text window of the raw scan *)

Module WindowFacts.

Lemma length_take_le k s : String.length (Str.take k s) <= k.
Proof.
  revert s. induction k as [|k IH]; intros s; [by destruct s|].
  destruct s as [|c s]; [simpl; lia|]. cbn [Str.take String.length].
  specialize (IH s). lia.
Qed.

Lemma drop_take l r s : Str.drop l (Str.take r s) = Str.take (r - l) (Str.drop l s).
Proof.
  revert r s. induction l as [|l IH]; intros r s.
  - by rewrite Nat.sub_0_r.
  - destruct r as [|r]; [done|].
    destruct s as [|c s]; [by destruct (S r - S l)|]. apply IH.
Qed.

Lemma find_Some sub s i :
  Str.find sub s = Some i ->
  Str.startswith sub (Str.drop i s) = true /\ i <= String.length s.
Proof.
  revert i. induction s as [|c s IH]; intros i; cbn [Str.find].
  - destruct (Str.startswith sub "") eqn:E; [|done].
    intros [= <-]. split; [done|simpl; lia].
  - destruct (Str.startswith sub (String c s)) eqn:E.
    + intros [= <-]. split; [done|simpl; lia].
    + destruct (Str.find sub s) as [j|]; [|done].
      intros [= <-]. destruct (IH j eq_refl) as [H1 H2]. split; [done|simpl; lia].
Qed.

Lemma find_None sub s : Str.find sub s = None -> Str.contains sub s = false.
Proof.
  induction s as [|c s IH]; cbn [Str.find Str.contains].
  - destruct (Str.startswith sub ""); [done|]. done.
  - destruct (Str.startswith sub (String c s)); [done|].
    destruct (Str.find sub s); [done|]. intros _. by rewrite IH.
Qed.

Lemma contains_in_take sub j k s :
  Str.startswith sub (Str.drop j s) = true ->
  j <= String.length s ->
  j + String.length sub <= k ->
  Str.contains sub (Str.take k s) = true.
Proof.
  revert k s. induction j as [|j IH]; intros k s Hs Hj Hk.
  - cbn [Str.drop] in Hs. rewrite <- (ScanFacts.startswith_take sub k s) in Hs by lia.
    destruct (Str.take k s); simpl; by rewrite Hs.
  - destruct s as [|c s]; [simpl in Hj; lia|].
    destruct k as [|k]; [lia|]. cbn [Str.take Str.contains].
    rewrite (IH k s); [apply orb_true_r|done|simpl in Hj; lia|lia].
Qed.

Lemma window_found raw m i :
  Str.find m raw = Some i ->
  window raw m =
  Str.take (Nat.min (String.length raw) (i + 800) - (i - 800))
           (Str.drop (i - 800) raw).
Proof.
  intros E. unfold window. rewrite E, drop_take. f_equal; [|f_equal]; lia.
Qed.

Lemma take_min k s : Str.take (Nat.min (String.length s) k) s = Str.take k s.
Proof.
  revert k. induction s as [|c s IH]; intros k; [by destruct k|].
  destruct k as [|k]; [done|]. cbn [String.length Nat.min Str.take]. by rewrite IH.
Qed.

Lemma window_not_found raw m :
  Str.find m raw = None -> window raw m = Str.take 799 raw.
Proof.
  intros E. unfold window. rewrite E.
  replace (Z.to_nat (Z.max 0 (-1 - 800))) with 0 by lia. cbn [Str.drop].
  rewrite <- (take_min 799 raw). f_equal. lia.
Qed.

End WindowFacts.

(** X6. The window of the raw scan is a piece of the document of at most
    1600 characters; a match of at most 800 characters that occurs in the
    document lies within its window. *)
Theorem window_is_a_bounded_piece raw m :
  String.length (window raw m) <= 1600
  /\ Str.contains (window raw m) raw = true
  /\ (Str.contains m raw = true -> String.length m <= 800 ->
      Str.contains m (window raw m) = true).
Proof.
  destruct (Str.find m raw) as [i|] eqn:E.
  - rewrite (WindowFacts.window_found _ _ _ E).
    destruct (WindowFacts.find_Some _ _ _ E) as [Hs Hi].
    pose proof (ScanFacts.startswith_length _ _ Hs) as Hm.
    rewrite ScanFacts.length_drop in Hm.
    split_and!.
    + etrans; [apply WindowFacts.length_take_le|]. lia.
    + apply ScanFacts.contains_take_drop.
    + intros _ Hlen.
      apply (WindowFacts.contains_in_take m (i - (i - 800))).
      * rewrite ScanFacts.drop_drop. by replace (i - 800 + (i - (i - 800))) with i by lia.
      * rewrite ScanFacts.length_drop. lia.
      * lia.
  - rewrite (WindowFacts.window_not_found _ _ E). split_and!.
    + etrans; [apply WindowFacts.length_take_le|]. lia.
    + apply (ScanFacts.contains_take_drop 799 0).
    + intros Hc. by rewrite (WindowFacts.find_None _ _ E) in Hc.
Qed.

Lemma window_is_a_bounded_piece_witness :
  let raw := "<a href='/web/p/123-456/'>RS PRO</a>" in
  Str.contains "/web/p/123-456/" raw = true
  /\ String.length "/web/p/123-456/" <= 800
  /\ Str.contains "/web/p/123-456/" (window raw "/web/p/123-456/") = true.
Proof.
  intros raw.
  assert (H1 : Str.contains "/web/p/123-456/" raw = true) by reflexivity.
  assert (H2 : String.length "/web/p/123-456/" <= 800) by (simpl; lia).
  exact (conj H1 (conj H2
    (proj2 (proj2 (window_is_a_bounded_piece raw "/web/p/123-456/")) H1 H2))).
Defined.

(** ** What a group captures *)

Module CaptureFacts.
Import Re.

Lemma all_app p s t : Str.all p (s ++ t) = Str.all p s && Str.all p t.
Proof.
  induction s as [|c s IH]; [done|].
  rewrite SplitFacts.app_cons. simpl. by rewrite IH, andb_assoc.
Qed.

Lemma all_impl (p q : ascii -> bool) s :
  (forall c, p c = true -> q c = true) -> Str.all p s = true -> Str.all q s = true.
Proof.
  intros Hpq. induction s as [|c s IH]; [done|]. simpl.
  intros [Hc Hs]%andb_true_iff. by rewrite (Hpq c Hc), IH.
Qed.

Lemma take_add n m s :
  Str.take (n + m) s = Str.take n s ++ Str.take m (Str.drop n s).
Proof.
  revert s. induction n as [|n IH]; intros s; [done|].
  destruct s as [|c s]; [by destruct m|].
  cbn [Nat.add Str.take Str.drop]. by rewrite SplitFacts.app_cons, IH.
Qed.

(** a repetition that succeeds took some characters of its class, within
    its bounds, and the rest of the pattern succeeded after them *)
Lemma rep_greedy_took {R} cls (k : string -> option R) lo hi s r :
  rep_greedy cls k lo hi s = Some r ->
  exists n, n <= String.length s /\ Str.all cls (Str.take n s) = true
    /\ lo <= n /\ (forall h, hi = Some h -> n <= h)
    /\ k (Str.drop n s) = Some r.
Proof.
  revert lo hi. induction s as [|c s IH]; intros lo hi.
  - destruct lo; [|done]. simpl. intros E. exists 0.
    split_and!; try done; intros; lia.
  - assert (Hstop : stop k lo (String c s) = Some r ->
      exists n, n <= String.length (String c s)
        /\ Str.all cls (Str.take n (String c s)) = true
        /\ lo <= n /\ (forall h, hi = Some h -> n <= h)
        /\ k (Str.drop n (String c s)) = Some r).
    { destruct lo; [|done]. simpl. intros E. exists 0.
      split_and!; try done; intros; lia. }
    cbn [rep_greedy]. destruct (cls c && hi_ok hi) eqn:Ec; [|done].
    apply andb_true_iff in Ec as [Ec Eh].
    destruct (rep_greedy cls k (Nat.pred lo) (hi_pred hi) s) as [r'|] eqn:Er; [|done].
    intros [= ->]. destruct (IH _ _ Er) as (n & Hn & Ha & Hlo & Hhi & Hk).
    exists (S n). cbn [Str.take Str.all Str.drop String.length]. rewrite Ec, Ha.
    split_and!; try done; try lia.
    intros h ->. specialize (Hhi (Nat.pred h) eq_refl).
    destruct h; [done|]. simpl in Hhi. lia.
Qed.

Lemma rep_lazy_took {R} cls (k : string -> option R) lo hi s r :
  rep_lazy cls k lo hi s = Some r ->
  exists n, n <= String.length s /\ Str.all cls (Str.take n s) = true
    /\ lo <= n /\ (forall h, hi = Some h -> n <= h)
    /\ k (Str.drop n s) = Some r.
Proof.
  revert lo hi. induction s as [|c s IH]; intros lo hi.
  - destruct lo; simpl; [|done]. destruct (k "") eqn:E; [|done].
    intros [= ->]. exists 0. split_and!; try done; intros; lia.
  - cbn [rep_lazy]. destruct (stop k lo (String c s)) as [r0|] eqn:Es.
    { intros [= ->]. destruct lo; [|done]. simpl in Es. exists 0.
      split_and!; try done; intros; lia. }
    destruct (cls c && hi_ok hi) eqn:Ec; [|done].
    apply andb_true_iff in Ec as [Ec Eh].
    intros Er. destruct (IH _ _ Er) as (n & Hn & Ha & Hlo & Hhi & Hk).
    exists (S n). cbn [Str.take Str.all Str.drop String.length]. rewrite Ec, Ha.
    split_and!; try done; try lia.
    intros h ->. specialize (Hhi (Nat.pred h) eq_refl).
    destruct h; [done|]. simpl in Hhi. lia.
Qed.

(** A pattern without group marks that succeeds before a tail took some
    characters that its items accept, no more than its bound, and the
    tail succeeded after them, with the group state unchanged. *)
Lemma body_took body tail g cap s res :
  group_free body = true ->
  match_items (body ++ tail)%list g cap s = Some res ->
  exists n, n <= String.length s
    /\ Str.all (accepts body) (Str.take n s) = true
    /\ (forall b, span_bound body = Some b -> n <= b)
    /\ match_items tail g cap (Str.drop n s) = Some res.
Proof.
  revert s. induction body as [|i body IH]; intros s Hg E.
  - exists 0. split_and!; try done; [lia|intros; lia].
  - cbn [group_free forallb] in Hg. apply andb_true_iff in Hg as [Hi Hg].
    assert (Hstep : forall cls n1,
      (forall c, cls c = true -> accepts (i :: body) c = true) ->
      (forall c, accepts body c = true -> accepts (i :: body) c = true) ->
      n1 <= String.length s -> Str.all cls (Str.take n1 s) = true ->
      (forall b, span_bound (i :: body) = Some b ->
         exists b1 b2, b = b1 + b2 /\ n1 <= b1 /\ span_bound body = Some b2) ->
      match_items (body ++ tail)%list g cap (Str.drop n1 s) = Some res ->
      exists n, n <= String.length s
        /\ Str.all (accepts (i :: body)) (Str.take n s) = true
        /\ (forall b, span_bound (i :: body) = Some b -> n <= b)
        /\ match_items tail g cap (Str.drop n s) = Some res).
    { intros cls n1 Hcls Hbody Hn1 Ha Hb Ek.
      destruct (IH _ Hg Ek) as (n2 & Hn2 & Ha2 & Hb2 & Ek2).
      rewrite ScanFacts.length_drop in Hn2. rewrite ScanFacts.drop_drop in Ek2.
      exists (n1 + n2). split_and!.
      - lia.
      - rewrite take_add, all_app.
        by rewrite (all_impl _ _ _ Hcls Ha), (all_impl _ _ _ Hbody Ha2).
      - intros b (b1 & b2 & -> & H1 & H2)%Hb. specialize (Hb2 _ H2). lia.
      - done. }
    destruct i as [cls lo hi gr| | |]; try done.
    + assert (Hk : exists n1, n1 <= String.length s
        /\ Str.all cls (Str.take n1 s) = true
        /\ (forall h, hi = Some h -> n1 <= h)
        /\ match_items (body ++ tail)%list g cap (Str.drop n1 s) = Some res).
      { cbn [app match_items] in E. destruct gr.
        - destruct (rep_greedy_took _ _ _ _ _ _ E) as (n & ? & ? & ? & ? & ?). eauto.
        - destruct (rep_lazy_took _ _ _ _ _ _ E) as (n & ? & ? & ? & ? & ?). eauto. }
      destruct Hk as (n1 & Hn1 & Ha & Hh & Ek).
      apply (Hstep cls n1); [|  |done|done| |done].
      * intros c Hc. cbn [accepts existsb]. by rewrite Hc.
      * intros c Hc. cbn [accepts existsb]. unfold accepts in Hc. by rewrite Hc, orb_true_r.
      * intros b. cbn [span_bound]. destruct hi as [h|]; [|done].
        destruct (span_bound body) as [b2|]; [|done]. intros [= <-].
        exists h, b2. split_and!; [done|by apply Hh|done].
    + cbn [app match_items] in E. destruct s as [|c s]; [|done].
      apply (Hstep (fun _ => false) 0); [done| |simpl; lia|done| |done].
      * intros c Hc. cbn [accepts existsb]. unfold accepts in Hc. by rewrite Hc.
      * intros b Hb. exists 0, b. by cbn [span_bound] in Hb.
Qed.

(** The group of a successful match of [pre (body)], with [pre] and
    [body] free of group marks: its characters are accepted by the items
    of [body], and it is no longer than the bound of [body]. *)
Lemma group_took pre body g0 cap0 s cap rest :
  group_free pre = true -> group_free body = true ->
  match_items (pre ++ GOpen :: body ++ [GClose])%list g0 cap0 s = Some (cap, rest) ->
  Str.all (accepts body) cap = true
  /\ (forall b, span_bound body = Some b -> String.length cap <= b).
Proof.
  intros Hpre Hbody E.
  destruct (body_took _ _ _ _ _ _ Hpre E) as (n0 & _ & _ & _ & E1).
  cbn [match_items] in E1.
  destruct (body_took _ _ _ _ _ _ Hbody E1) as (n & Hn & Ha & Hb & E2).
  cbn [match_items] in E2. injection E2 as <- _.
  assert (String.length (Str.drop n0 s)
          - String.length (Str.drop n (Str.drop n0 s)) = n) as ->.
  { rewrite (ScanFacts.length_drop n). lia. }
  split; [done|]. intros b Hsb. rewrite ScanFacts.length_take by done. by apply Hb.
Qed.

Lemma search_match r s g :
  search r s = Some g -> exists n rest, match_here r (Str.drop n s) = Some (g, rest).
Proof.
  induction s as [|c s IH]; cbn [search].
  - destruct (match_here r "") as [[cap rest]|] eqn:E; [|done].
    intros [= <-]. by exists 0, rest.
  - destruct (match_here r (String c s)) as [[cap rest]|] eqn:E.
    + intros [= <-]. by exists 0, rest.
    + intros (n & rest & E')%IH. by exists (S n), rest.
Qed.

Lemma search_group pre body s g :
  group_free pre = true -> group_free body = true ->
  search (pre ++ GOpen :: body ++ [GClose])%list s = Some g ->
  Str.all (accepts body) g = true
  /\ (forall b, span_bound body = Some b -> String.length g <= b).
Proof.
  intros Hpre Hbody (n & rest & E)%search_match. unfold match_here in E.
  exact (group_took _ _ _ _ _ _ _ Hpre Hbody E).
Qed.

End CaptureFacts.

(** ** The fields of the raw scan *)

Module SnippetFacts.

Lemma all_lstrip p s : Str.all p s = true -> Str.all p (Str.lstrip s) = true.
Proof.
  induction s as [|c s IH]; [done|]. cbn [Str.lstrip].
  destruct (Char.is_space c); [|done]. simpl. by intros [_ ?]%andb_true_iff; apply IH.
Qed.

Lemma all_rstrip p s : Str.all p s = true -> Str.all p (Str.rstrip s) = true.
Proof.
  induction s as [|c s IH]; [done|]. cbn [Str.rstrip Str.all].
  intros [Hc Hs]%andb_true_iff. specialize (IH Hs).
  destruct (Str.rstrip s) as [|d r].
  - destruct (Char.is_space c); [done|]. simpl. by rewrite Hc.
  - cbn [Str.all]. by rewrite Hc.
Qed.

Lemma length_lstrip s : String.length (Str.lstrip s) <= String.length s.
Proof.
  induction s as [|c s IH]; [done|]. cbn [Str.lstrip].
  destruct (Char.is_space c); simpl; lia.
Qed.

Lemma length_rstrip s : String.length (Str.rstrip s) <= String.length s.
Proof.
  induction s as [|c s IH]; [done|]. cbn [Str.rstrip].
  destruct (Str.rstrip s) as [|d r].
  - destruct (Char.is_space c); simpl; lia.
  - simpl in *. lia.
Qed.

Lemma strip_short g :
  String.length g <= 80 -> Str.all not_lt g = true -> short_field (Str.strip g).
Proof.
  intros Hl Ha. split_and!.
  - unfold Str.strip. pose proof (length_rstrip (Str.lstrip g)).
    pose proof (length_lstrip g). lia.
  - by apply all_rstrip, all_lstrip.
  - apply StrFacts.strip_idem.
Qed.

Lemma empty_short : short_field "".
Proof. split_and!; [simpl; lia|done|done]. Qed.

Lemma fields_pieces cls p s :
  Str.all p s = true ->
  Forall (fun t => Str.all p t = true /\ String.length t <= String.length s)
         (Str.fields cls s).
Proof.
  induction s as [|c s IH]; [by repeat constructor|].
  cbn [Str.all Str.fields]. intros [Hc Hs]%andb_true_iff. specialize (IH Hs).
  assert (IH' : Forall (fun t => Str.all p t = true
                         /\ String.length t <= String.length (String c s))
                       (Str.fields cls s)).
  { eapply Forall_impl; [exact IH|]. intros t [? ?]. split; [done|simpl; lia]. }
  destruct (cls c).
  - destruct (Str.starts_in cls s); [done|]. constructor; [|done].
    split; [done|simpl; lia].
  - destruct (FieldsFacts.fields_cons cls s) as (t & ts & E). rewrite E in *.
    cbn [Str.cons_word]. apply Forall_cons in IH as [[Ht Hl] _].
    apply Forall_cons in IH' as [_ Hts]. constructor; [|done].
    split; [simpl; by rewrite Hc, Ht|simpl; lia].
Qed.

Lemma loose_token_short cand rs_pn tok :
  short_field cand -> first_loose_token cand rs_pn = Some tok -> short_field tok.
Proof.
  intros (Hl & Ha & _) E.
  pose proof (first_loose_token_spec cand rs_pn) as Hf. rewrite E in Hf.
  destruct Hf as (_ & Hfree & pre & post & Esp & _).
  unfold re_seps in Esp. rewrite FieldsFacts.split_fields in Esp.
  pose proof (fields_pieces Char.is_sep not_lt cand Ha) as Hp.
  rewrite Esp in Hp. apply Forall_app in Hp as [_ Hp].
  apply Forall_cons in Hp as [[Hat Hlt] _].
  split_and!; [lia|done|].
  apply EchoFacts.strip_id_no_space.
  clear -Hfree. induction tok as [|c t IH]; [done|]. simpl in *.
  apply orb_false_iff in Hfree as [Hc Ht]. rewrite (IH Ht), orb_false_r.
  unfold Char.is_sep in Hc. by destruct (Char.is_space c).
Qed.

Lemma not_lt_accepts c : accepts [Re.rep not_lt 1 80] c = true -> not_lt c = true.
Proof. simpl. by rewrite orb_false_r. Qed.

Lemma field_group pre s g :
  group_free pre = true ->
  Re.search (pre ++ [Re.GOpen; Re.rep not_lt 1 80; Re.GClose])%list s = Some g ->
  String.length g <= 80 /\ Str.all not_lt g = true.
Proof.
  intros Hpre E.
  destruct (CaptureFacts.search_group pre [Re.rep not_lt 1 80] s g Hpre eq_refl E)
    as [Ha Hb].
  split; [by apply Hb|]. eapply CaptureFacts.all_impl; [apply not_lt_accepts|done].
Qed.

Lemma brand_group s g :
  Re.search re_brand s = Some g -> String.length g <= 80 /\ Str.all not_lt g = true.
Proof. apply (field_group (take (List.length re_brand - 3) re_brand)). reflexivity. Qed.

Lemma mpn_dd_group s g :
  Re.search re_mpn_dd s = Some g -> String.length g <= 80 /\ Str.all not_lt g = true.
Proof. apply (field_group (take (List.length re_mpn_dd - 3) re_mpn_dd)). reflexivity. Qed.

Lemma mpn_dt_group s g :
  Re.search re_mpn_dt s = Some g -> String.length g <= 80 /\ Str.all not_lt g = true.
Proof. apply (field_group (take (List.length re_mpn_dt - 3) re_mpn_dt)). reflexivity. Qed.

Lemma dist_accepts c :
  accepts [Re.rep Char.is_digit 2 4; Re.one (Char.lit "-"); Re.rep Char.is_digit 2 4;
           Re.opt (Char.lit "-"); Re.rep Char.is_digit 0 4] c = true ->
  not_lt c = true.
Proof. destruct c as [[] [] [] [] [] [] [] []]; by vm_compute. Qed.

Lemma dist_group s g :
  Re.search re_dist s = Some g -> String.length g <= 14 /\ Str.all not_lt g = true.
Proof.
  intros E.
  destruct (CaptureFacts.search_group []
    [Re.rep Char.is_digit 2 4; Re.one (Char.lit "-"); Re.rep Char.is_digit 2 4;
     Re.opt (Char.lit "-"); Re.rep Char.is_digit 0 4] s g eq_refl eq_refl E)
    as [Ha Hb].
  split; [by apply Hb|]. eapply CaptureFacts.all_impl; [apply dist_accepts|done].
Qed.

Lemma snippet_fields_short raw rs_pn m :
  short_field (snippet_fields raw rs_pn m).1
  /\ short_field (snippet_fields raw rs_pn m).2.
Proof.
  unfold snippet_fields. cbn [fst snd]. set (snippet := window raw m). split.
  - unfold snippet_brand. destruct (Re.search re_brand snippet) as [g|] eqn:E.
    + destruct (brand_group _ _ E). by apply strip_short.
    + apply empty_short.
  - assert (Hm : short_field (snippet_mpn snippet rs_pn)).
    { unfold snippet_mpn.
      assert (Hg : forall g,
        match Re.search re_mpn_dd snippet with
        | Some g => Some g | None => Re.search re_mpn_dt snippet end = Some g ->
        String.length g <= 80 /\ Str.all not_lt g = true).
      { intros g. destruct (Re.search re_mpn_dd snippet) as [g'|] eqn:E.
        - intros [= <-]. by eapply mpn_dd_group.
        - by apply mpn_dt_group. }
      destruct (match Re.search re_mpn_dd snippet with
                | Some g => Some g | None => Re.search re_mpn_dt snippet end)
        as [g|]; [|apply empty_short].
      destruct (Hg g eq_refl) as [Hl Ha].
      pose proof (strip_short g Hl Ha) as Hc.
      destruct (is_valid_mpn_from_field _ _); [done|].
      destruct (first_loose_token _ _) as [tok|] eqn:Et; [|apply empty_short].
      by eapply loose_token_short. }
    unfold snippet_dist. destruct (negb _ && _); [|done].
    destruct (Re.search re_dist snippet) as [g|] eqn:E; [|done].
    destruct (is_valid_mpn_from_field _ _); [|done].
    destruct (dist_group _ _ E) as [Hl Ha]. apply strip_short; [lia|done].
Qed.

End SnippetFacts.

(** X7. The brand and the MPN that the raw scan returns are each at most
    80 characters long, hold no [<], and neither begin nor end with
    whitespace. *)
Theorem aggressive_search_scan_fields_are_short raw rs_pn :
  let r := aggressive_search_scan raw rs_pn in
  (String.length r.1.1.2 <= 80 /\ Str.all not_lt r.1.1.2 = true
   /\ Str.strip r.1.1.2 = r.1.1.2)
  /\ (String.length r.1.2 <= 80 /\ Str.all not_lt r.1.2 = true
      /\ Str.strip r.1.2 = r.1.2).
Proof.
  cbv zeta. unfold aggressive_search_scan.
  destruct (Re.findall re_product_link raw) as [|first rest].
  { split; apply SnippetFacts.empty_short. }
  pose proof (ScanFacts.scan_matches_spec raw rs_pn (first :: rest)) as Hs.
  destruct (scan_matches raw rs_pn (first :: rest)) as [r|].
  - destruct Hs as (pre & m & post & _ & _ & _ & ->). cbn [fst snd].
    apply SnippetFacts.snippet_fields_short.
  - split; apply SnippetFacts.empty_short.
Qed.

(** ** The structured extractors *)

Section SortFacts.
Context {node : Type}.
Implicit Types (x y : candidate (node := node)) (l : list (candidate (node := node))).

Lemma insert_by_score_perm x l : insert_by_score x l ≡ₚ x :: l.
Proof.
  induction l as [|y l IH]; [done|]. cbn [insert_by_score].
  destruct (Nat.ltb (x.1.1) (y.1.1)); [|done].
  by rewrite IH, Permutation_swap.
Qed.

Lemma insert_by_score_sorted x l :
  StronglySorted (fun a b => score b <= score a) l ->
  StronglySorted (fun a b => score b <= score a) (insert_by_score x l).
Proof.
  induction 1 as [|y l Hl IH Hy]; cbn [insert_by_score].
  - by repeat constructor.
  - destruct (Nat.ltb (x.1.1) (y.1.1)) eqn:E.
    + apply Nat.ltb_lt in E. constructor; [done|].
      rewrite insert_by_score_perm. constructor; [unfold score; lia|done].
    + apply Nat.ltb_ge in E. constructor; [by constructor|].
      constructor; [done|]. eapply Forall_impl; [exact Hy|].
      unfold score in *. intros z Hz. lia.
Qed.

Lemma insert_by_score_filter k x l :
  filter (fun c => score c = k) (insert_by_score x l)
  = filter (fun c => score c = k) (x :: l).
Proof.
  induction l as [|y l IH]; [done|]. cbn [insert_by_score].
  destruct (Nat.ltb (x.1.1) (y.1.1)) eqn:E; [|done].
  apply Nat.ltb_lt in E. rewrite filter_cons, IH, !filter_cons.
  unfold score in *. repeat case_decide; try done; lia.
Qed.
Lemma insert_by_score_perm_all l : sort_by_score l ≡ₚ l.
Proof.
  unfold sort_by_score. induction l as [|x l IH]; [done|]. cbn [foldr].
  by rewrite insert_by_score_perm, IH.
Qed.
End SortFacts.

(** X8. Sorting the candidate links keeps them all, puts them in
    descending order of score, and keeps the page order among the
    candidates of one score. *)
Theorem sort_by_score_is_stable {node : Type} (l : list (candidate (node := node))) :
  sort_by_score l ≡ₚ l
  /\ StronglySorted (fun a b => score b <= score a) (sort_by_score l)
  /\ forall k, filter (fun c => score c = k) (sort_by_score l)
               = filter (fun c => score c = k) l.
Proof.
  unfold sort_by_score. induction l as [|x l (IHp & IHs & IHf)]; cbn [foldr].
  - split_and!; [done|constructor|done].
  - split_and!.
    + apply (insert_by_score_perm_all (x :: l)).
    + by apply insert_by_score_sorted.
    + intros k. by rewrite insert_by_score_filter, !filter_cons, IHf.
Qed.

Section ExtractorFacts.
Context {node : Type} `{Soup node}.

Lemma field_text_norm (t : node) : norm (field_text t) = field_text t.
Proof. apply WordFacts.norm_idem. Qed.

Lemma span_or_own_text_norm (t : node) :
  norm (span_or_own_text t) = span_or_own_text t.
Proof. apply WordFacts.norm_idem. Qed.

Lemma next_dd_text_norm (dt : node) t : next_dd_text dt = Some t -> norm t = t.
Proof.
  unfold next_dd_text. destruct (find_next_sibling dt (Some "dd")) as [nxt|]; [|done].
  destruct (has_text nxt); [|done]. intros [= <-]. apply field_text_norm.
Qed.

Lemma distrelec_by_label_norm (dts : list node) :
  norm (distrelec_by_label dts) = distrelec_by_label dts.
Proof.
  induction dts as [|dt dts IH]; [done|]. cbn [distrelec_by_label].
  destruct (Str.contains _ _); [|done].
  destruct (next_dd_text dt) as [t|] eqn:E; [|done]. by eapply next_dd_text_norm.
Qed.

Lemma extract_distrelec_norm (c : node) :
  norm (extract_distrelec_from_container c) = extract_distrelec_from_container c.
Proof.
  unfold extract_distrelec_from_container.
  assert (Hrest :
    norm (match match find_testid c "dt" "distrelec-desktop" with
                | Some dt => next_dd_text dt | None => None end with
          | Some t => t
          | None => distrelec_by_label (find_all_tag c "dt")
          end)
    = match match find_testid c "dt" "distrelec-desktop" with
            | Some dt => next_dd_text dt | None => None end with
      | Some t => t
      | None => distrelec_by_label (find_all_tag c "dt")
      end).
  { destruct (find_testid c "dt" "distrelec-desktop") as [dt|];
      [|apply distrelec_by_label_norm].
    destruct (next_dd_text dt) as [t|] eqn:E;
      [by eapply next_dd_text_norm|apply distrelec_by_label_norm]. }
  destruct (find_testid c "dd" "distrelec-desktop") as [dd|]; [|done].
  destruct (has_text dd); [apply field_text_norm|done].
Qed.

Lemma strict_strict candidate h :
  norm candidate = candidate -> strict_mpn h (strict candidate h).
Proof.
  intros Hn. unfold strict.
  destruct (is_valid_mpn_from_field candidate h) eqn:E; split; auto.
Qed.

Lemma empty_strict h : strict_mpn h "".
Proof. split; auto. Qed.

Lemma with_distrelec_strict (c : node) brand mpn h :
  strict_mpn h mpn -> strict_mpn h (with_distrelec c brand mpn h).
Proof.
  intros Hm. unfold with_distrelec.
  destruct (negb (Str.truthy mpn) && is_rs_pro brand); [|done].
  destruct (Str.truthy _ && is_valid_mpn_from_field _ _) eqn:E; [|done].
  apply andb_true_iff in E as [_ E]. split; [apply extract_distrelec_norm|by right].
Qed.

Lemma mpn_by_dt_strict (c : node) rs_pn :
  strict_mpn (Some rs_pn)
    match find_mpn_dt c with
    | Some dtmpn =>
        match next_dd_text dtmpn with
        | Some candidate => strict candidate (Some rs_pn)
        | None => ""
        end
    | None => ""
    end.
Proof.
  destruct (find_mpn_dt c) as [dt|]; [|apply empty_strict].
  destruct (next_dd_text dt) as [t|] eqn:E; [|apply empty_strict].
  apply strict_strict. by eapply next_dd_text_norm.
Qed.

Lemma sanitize_strict mpn rs_pn :
  strict_mpn (Some rs_pn) mpn -> sanitize_mpn mpn rs_pn = mpn.
Proof.
  intros [_ Hm]. apply sanitize_mpn_sound.
  destruct Hm; [by left|by right; left].
Qed.

Lemma brand_link_norm (c : node) :
  norm match find_testid c "a" "brand-link" with
       | Some brand_a => span_or_own_text brand_a
       | None => ""
       end
  = match find_testid c "a" "brand-link" with
    | Some brand_a => span_or_own_text brand_a
    | None => ""
    end.
Proof.
  destruct (find_testid c "a" "brand-link"); [apply span_or_own_text_norm|done].
Qed.

Lemma card_fields_strict (c : node) rs_pn :
  norm (card_fields c rs_pn).1 = (card_fields c rs_pn).1
  /\ strict_mpn (Some rs_pn) (card_fields c rs_pn).2.
Proof.
  unfold card_fields. cbn [fst snd]. split; [apply brand_link_norm|].
  match goal with |- strict_mpn _ (sanitize_mpn ?m _) =>
    assert (Hm : strict_mpn (Some rs_pn) m) end.
  { apply with_distrelec_strict.
    destruct (find_testid c "dd" "mpn-desktop") as [dd|]; [|apply mpn_by_dt_strict].
    destruct (has_text dd); [|apply mpn_by_dt_strict].
    apply strict_strict, field_text_norm. }
  by rewrite sanitize_strict.
Qed.

Lemma sibling_fields_strict (c : node) rs_pn :
  norm (sibling_fields c rs_pn).1 = (sibling_fields c rs_pn).1
  /\ strict_mpn (Some rs_pn) (sibling_fields c rs_pn).2.
Proof.
  unfold sibling_fields. cbn [fst snd]. split; [apply brand_link_norm|].
  match goal with |- strict_mpn _ (sanitize_mpn ?m _) =>
    assert (Hm : strict_mpn (Some rs_pn) m) end.
  { apply with_distrelec_strict.
    destruct (find_testid c "dd" "mpn-desktop") as [dd|]; [|apply empty_strict].
    destruct (has_text dd); [|apply empty_strict].
    apply strict_strict, field_text_norm. }
  by rewrite sanitize_strict.
Qed.

Lemma walk_up_hit levels (c : option node) u rs_pn r :
  walk_up levels c u rs_pn = Some r -> card_hit rs_pn u r.
Proof.
  revert c. induction levels as [|n IH]; intros c; [done|].
  destruct c as [c|]; [|done]. cbn [walk_up].
  destruct (card_fields_strict c rs_pn) as [Hb Hm].
  destruct (existsb _ _); [|apply IH].
  destruct (card_fields c rs_pn) as [brand mpn]. cbn [fst snd] in *.
  destruct (fields_ok brand mpn rs_pn) eqn:Eok; [|apply IH].
  intros [= <-]. exists brand, mpn. auto.
Qed.

Lemma try_sibling_hit (a : node) u rs_pn r :
  try_sibling a u rs_pn = Some r -> card_hit rs_pn u r.
Proof.
  unfold try_sibling. destruct (find_next_sibling a None) as [s|]; [|done].
  destruct (sibling_fields_strict s rs_pn) as [Hb Hm].
  destruct (sibling_fields s rs_pn) as [brand mpn]. cbn [fst snd] in *.
  destruct (fields_ok brand mpn rs_pn) eqn:Eok; [|done].
  intros [= <-]. exists brand, mpn. auto.
Qed.

Lemma try_candidates_hit (cs : list candidate) rs_pn r :
  try_candidates cs rs_pn = Some r -> exists c, c ∈ cs /\ card_hit rs_pn c.2 r.
Proof.
  induction cs as [|[[sc a] u] cs IH]; [done|]. cbn [try_candidates].
  destruct (walk_up 4 (Some a) u rs_pn) eqn:Ew.
  { intros [= <-]. exists (sc, a, u). split; [left|]. by eapply walk_up_hit. }
  destruct (try_sibling a u rs_pn) eqn:Es.
  { intros [= <-]. exists (sc, a, u). split; [left|]. by eapply try_sibling_hit. }
  intros (c & Hc & Hr)%IH. exists c. split; [by right|done].
Qed.

Lemma omap_candidates_nil rs_pn (anchors : list node) :
  omap (candidate_of rs_pn) anchors = [] <->
  Forall (fun a => Str.contains "/web/p/" (href a) = false) anchors.
Proof.
  induction anchors as [|a l IH]; [split; [constructor|done]|].
  cbn [omap list_omap]. unfold candidate_of at 1.
  destruct (Str.contains "/web/p/" (href a)) eqn:E.
  - split; [done|]. intros [? _]%Forall_cons. congruence.
  - rewrite IH. split; [by constructor|by intros [_ ?]%Forall_cons].
Qed.

Lemma product_mpn_cases html rs_pn :
  let mpn := (parse_product_page_for_fields html (Some rs_pn)).1 in
  norm mpn = mpn
  /\ (mpn = "" \/ is_valid_mpn_from_field mpn (Some rs_pn) = true
      \/ (Str.isdigit mpn = true /\ mpn <> rs_pn)).
Proof.
  cbv zeta. unfold parse_product_page_for_fields. cbn [fst].
  set (soup := parse html).
  assert (Hd : forall candidate, norm candidate = candidate ->
    norm (strict_or_digits candidate (Some rs_pn)) = strict_or_digits candidate (Some rs_pn)
    /\ (strict_or_digits candidate (Some rs_pn) = ""
        \/ is_valid_mpn_from_field (strict_or_digits candidate (Some rs_pn)) (Some rs_pn)
           = true
        \/ (Str.isdigit (strict_or_digits candidate (Some rs_pn)) = true
            /\ strict_or_digits candidate (Some rs_pn) <> rs_pn))).
  { intros candidate Hn. unfold strict_or_digits.
    destruct (is_valid_mpn_from_field candidate (Some rs_pn)) eqn:Ev; [auto|].
    destruct (Str.isdigit candidate) eqn:Ed; cbn [andb]; [|auto].
    cbn [hint_truthy hint_str].
    destruct (Str.truthy rs_pn) eqn:Et; cbn [negb orb].
    - destruct (String.eqb candidate rs_pn) eqn:Ee; cbn [negb]; [auto|].
      apply String.eqb_neq in Ee. auto.
    - apply StrFacts.truthy_false in Et as ->. split; [done|].
      right; right. split; [done|]. intros ->. done. }
  match goal with |- norm (with_distrelec _ _ ?m _) = _ /\ _ =>
    assert (Hm : norm m = m
      /\ (m = "" \/ is_valid_mpn_from_field m (Some rs_pn) = true
          \/ (Str.isdigit m = true /\ m <> rs_pn))) end.
  { assert (Hdt : forall dtm : option node,
      norm match dtm with
           | Some dtmpn => match next_dd_text dtmpn with
                           | Some candidate => strict_or_digits candidate (Some rs_pn)
                           | None => "" end
           | None => "" end
      = match dtm with
        | Some dtmpn => match next_dd_text dtmpn with
                        | Some candidate => strict_or_digits candidate (Some rs_pn)
                        | None => "" end
        | None => "" end
      /\ (match dtm with
          | Some dtmpn => match next_dd_text dtmpn with
                          | Some candidate => strict_or_digits candidate (Some rs_pn)
                          | None => "" end
          | None => "" end = ""
          \/ is_valid_mpn_from_field
               match dtm with
               | Some dtmpn => match next_dd_text dtmpn with
                               | Some candidate => strict_or_digits candidate (Some rs_pn)
                               | None => "" end
               | None => "" end (Some rs_pn) = true
          \/ (Str.isdigit
                match dtm with
                | Some dtmpn => match next_dd_text dtmpn with
                                | Some candidate => strict_or_digits candidate (Some rs_pn)
                                | None => "" end
                | None => "" end = true
              /\ match dtm with
                 | Some dtmpn => match next_dd_text dtmpn with
                                 | Some candidate => strict_or_digits candidate (Some rs_pn)
                                 | None => "" end
                 | None => "" end <> rs_pn))).
    { intros [dt|]; [|auto]. destruct (next_dd_text dt) as [t|] eqn:E; [|auto].
      apply Hd. by eapply next_dd_text_norm. }
    destruct (find_testid soup "dd" "mpn-desktop") as [dd|]; [|apply Hdt].
    destruct (has_text dd); [|apply Hdt]. apply Hd, field_text_norm. }
  unfold with_distrelec.
  destruct (negb _ && is_rs_pro _); [|done].
  destruct (Str.truthy _ && is_valid_mpn_from_field _ _) eqn:E; [|done].
  apply andb_true_iff in E as [_ E]. split; [apply extract_distrelec_norm|auto].
Qed.

Lemma product_brand_norm html h :
  norm (parse_product_page_for_fields html h).2
  = (parse_product_page_for_fields html h).2.
Proof.
  unfold parse_product_page_for_fields. cbn [snd]. set (soup := parse html).
  assert (Hb : norm match find_testid soup "a" "brand-link" with
                    | Some a_brand =>
                        if has_text a_brand then span_or_own_text a_brand else ""
                    | None => "" end
               = match find_testid soup "a" "brand-link" with
                 | Some a_brand =>
                     if has_text a_brand then span_or_own_text a_brand else ""
                 | None => "" end).
  { destruct (find_testid soup "a" "brand-link") as [a|]; [|done].
    destruct (has_text a); [apply span_or_own_text_norm|done]. }
  destruct (negb _); [|done].
  destruct (find_testid soup "dd" "brand-desktop"); [apply span_or_own_text_norm|done].
Qed.

Lemma product_mpn_norm html h :
  norm (parse_product_page_for_fields html h).1
  = (parse_product_page_for_fields html h).1.
Proof.
  unfold parse_product_page_for_fields. cbn [fst]. set (soup := parse html).
  assert (Hd : forall candidate, norm candidate = candidate ->
    norm (strict_or_digits candidate h) = strict_or_digits candidate h).
  { intros candidate Hn. unfold strict_or_digits.
    destruct (is_valid_mpn_from_field candidate h); [done|].
    by destruct (Str.isdigit candidate && _). }
  match goal with |- norm (with_distrelec _ _ ?m _) = _ =>
    assert (Hm : norm m = m) end.
  { assert (Hdt : forall dtm : option node,
      norm match dtm with
           | Some dtmpn => match next_dd_text dtmpn with
                           | Some candidate => strict_or_digits candidate h
                           | None => "" end
           | None => "" end
      = match dtm with
        | Some dtmpn => match next_dd_text dtmpn with
                        | Some candidate => strict_or_digits candidate h
                        | None => "" end
        | None => "" end).
    { intros [dt|]; [|done]. destruct (next_dd_text dt) as [t|] eqn:E; [|done].
      apply Hd. by eapply next_dd_text_norm. }
    destruct (find_testid soup "dd" "mpn-desktop") as [dd|]; [|apply Hdt].
    destruct (has_text dd); [|apply Hdt]. apply Hd, field_text_norm. }
  unfold with_distrelec.
  destruct (negb _ && is_rs_pro _); [|done].
  destruct (Str.truthy _ && is_valid_mpn_from_field _ _); [|done].
  apply extract_distrelec_norm.
Qed.

End ExtractorFacts.

(** X9. The search-page extractor returns no link exactly when no anchor
    of the page has /web/p/ in its href. Otherwise it returns either the
    link of a candidate with the fields of its card, tagged
    OK(search-card) or OK(search-sibling), and then the fields pass the
    success test and the MPN is empty or strictly valid; or the link of
    the first candidate in sorted order, without fields, tagged
    OK_FOUND_anchor_no_card_fields. *)
Theorem parse_search_page_outcomes {node : Type} `{Soup node} html rs_pn :
  let anchors := find_all_links (parse html) in
  let cs := sort_by_score (omap (candidate_of rs_pn) anchors) in
  let r := parse_search_page_for_fields html rs_pn in
  (r.1.1.1 = None <->
   Forall (fun a => Str.contains "/web/p/" (href a) = false) anchors)
  /\ match cs with
     | [] => r = (None, "", "", "SEARCH_NO_PRODUCT_LINK")
     | top :: _ =>
         r = (Some top.2, "", "", "OK_FOUND_anchor_no_card_fields")
         \/ exists c brand mpn,
              c ∈ cs
              /\ fields_ok brand mpn rs_pn = true
              /\ (mpn = "" \/ is_valid_mpn_from_field mpn (Some rs_pn) = true)
              /\ (r = (Some c.2, brand, mpn, "OK(search-card)")
                  \/ r = (Some c.2, brand, mpn, "OK(search-sibling)"))
     end.
Proof.
  intros anchors cs r.
  assert (Hcases :
    match cs with
    | [] => r = (None, "", "", "SEARCH_NO_PRODUCT_LINK")
    | top :: _ =>
        r = (Some top.2, "", "", "OK_FOUND_anchor_no_card_fields")
        \/ exists c brand mpn,
             c ∈ cs
             /\ fields_ok brand mpn rs_pn = true
             /\ (mpn = "" \/ is_valid_mpn_from_field mpn (Some rs_pn) = true)
             /\ (r = (Some c.2, brand, mpn, "OK(search-card)")
                 \/ r = (Some c.2, brand, mpn, "OK(search-sibling)"))
    end).
  { unfold r, parse_search_page_for_fields. fold anchors. fold cs.
    destruct cs as [|[[sc a] top] cs'] eqn:Ecs; [done|].
    destruct (try_candidates _ rs_pn) as [r'|] eqn:Et; [|by left].
    right. destruct (try_candidates_hit _ _ _ Et)
      as (c & Hc & brand & mpn & Hok & _ & [_ Hm] & Hr).
    exists c, brand, mpn. split_and!; assumption. }
  split; [|exact Hcases].
  rewrite <- omap_candidates_nil.
  assert (Hnil : cs = [] <-> omap (candidate_of rs_pn) anchors = []).
  { unfold cs. split; [|by intros ->].
    intros E. apply Permutation_nil_r. rewrite <- E.
    symmetry. apply insert_by_score_perm_all. }
  rewrite <- Hnil. destruct cs as [|top cs'].
  - rewrite Hcases. done.
  - split; [|done]. destruct Hcases as [->|(c & b & m & _ & _ & _ & [->| ->])]; done.
Qed.

(** X10. The fields that the structured extractors return are
    normalised: [norm] leaves unchanged the MPN and the brand of the
    product page, the brand and the MPN of the search page, and the value
    of the cross-reference field. *)
Theorem structured_fields_are_normalised {node : Type} `{Soup node}
    html rs_pn_hint rs_pn (container : node) :
  (norm (parse_product_page_for_fields html rs_pn_hint).1
     = (parse_product_page_for_fields html rs_pn_hint).1
   /\ norm (parse_product_page_for_fields html rs_pn_hint).2
      = (parse_product_page_for_fields html rs_pn_hint).2)
  /\ (norm (parse_search_page_for_fields html rs_pn).1.1.2
        = (parse_search_page_for_fields html rs_pn).1.1.2
      /\ norm (parse_search_page_for_fields html rs_pn).1.2
         = (parse_search_page_for_fields html rs_pn).1.2)
  /\ norm (extract_distrelec_from_container container)
     = extract_distrelec_from_container container.
Proof.
  split_and!.
  - apply product_mpn_norm.
  - apply product_brand_norm.
  - unfold parse_search_page_for_fields.
    destruct (sort_by_score _) as [|[[sc a] top] cs']; [done|].
    destruct (try_candidates _ rs_pn) as [r'|] eqn:Et; [|done].
    destruct (try_candidates_hit _ _ _ Et)
      as (c & Hc & brand & mpn & Hok & Hb & [Hn _] & [->| ->]); done.
  - unfold parse_search_page_for_fields.
    destruct (sort_by_score _) as [|[[sc a] top] cs']; [done|].
    destruct (try_candidates _ rs_pn) as [r'|] eqn:Et; [|done].
    destruct (try_candidates_hit _ _ _ Et)
      as (c & Hc & brand & mpn & Hok & Hb & [Hn _] & [->| ->]); done.
  - apply extract_distrelec_norm.
Qed.

(** X11. Against an RS_PN that is not empty and holds no whitespace, the
    structured extractors never return the RS_PN itself as the MPN. *)
Theorem structured_extractors_never_echo {node : Type} `{Soup node} html rs_pn :
  rs_pn <> "" ->
  Str.any Char.is_space rs_pn = false ->
  (parse_product_page_for_fields html (Some rs_pn)).1 <> rs_pn
  /\ (parse_search_page_for_fields html rs_pn).1.2 <> rs_pn.
Proof.
  intros Hne Hns.
  assert (Hecho : is_valid_mpn_from_field rs_pn (Some rs_pn) = false).
  { apply is_valid_mpn_rejects_echo; [done|].
    by rewrite (EchoFacts.strip_id_no_space _ Hns), (EchoFacts.remove_spaces_id _ Hns). }
  split.
  - destruct (product_mpn_cases html rs_pn) as [_ [E|[E|[_ E]]]]; [| |done].
    + rewrite E. by intros <-.
    + intros E'. rewrite E' in E. congruence.
  - unfold parse_search_page_for_fields.
    destruct (sort_by_score _) as [|[[sc a] top] cs']; [by intros <-|].
    destruct (try_candidates _ rs_pn) as [r'|] eqn:Et; [|by intros <-].
    destruct (try_candidates_hit _ _ _ Et)
      as (c & Hc & brand & mpn & Hok & Hb & [_ [E|E]] & [->| ->]);
      cbn [fst snd]; intros E'; subst; congruence.
Qed.

Lemma structured_extractors_never_echo_witness :
  "123-456" <> ""
  /\ Str.any Char.is_space "123-456" = false
  /\ (parse_product_page_for_fields (H := plain_text) "RS PRO 123-456" (Some "123-456")).1
     <> "123-456"
  /\ (parse_search_page_for_fields (H := plain_text) "RS PRO 123-456" "123-456").1.2
     <> "123-456".
Proof.
  assert (H1 : "123-456" <> "") by discriminate.
  assert (H2 : Str.any Char.is_space "123-456" = false) by reflexivity.
  exact (conj H1 (conj H2
    (structured_extractors_never_echo (H := plain_text) "RS PRO 123-456" "123-456" H1 H2))).
Defined.

Section EffectFacts.
Context {node : Type} `{Soup node}.
Variable requests_get : nat -> url -> reply.

Lemma effect_ret {A} (a : A) (P : A -> nat -> list (string * string) -> Prop) :
  P a 0 [] -> effect (ret a) P.
Proof.
  intros Ha w. exists 0, []. cbn. by rewrite Nat.add_0_r, app_nil_r.
Qed.

Lemma effect_bind {A B} (m : M A) (f : A -> M B) P
    (Q : B -> nat -> list (string * string) -> Prop) :
  effect m P ->
  (forall a n new, P a n new ->
     effect (f a) (fun b n' new' => Q b (n + n') (new ++ new')%list)) ->
  effect (bind m f) Q.
Proof.
  intros Hm Hf w. unfold bind.
  destruct (Hm w) as (n & new & Hg & Hp & HP).
  destruct (m w) as [a w1]. cbn [fst snd] in *.
  destruct (Hf a n new HP w1) as (n' & new' & Hg' & Hp' & HQ).
  exists (n + n'), (new ++ new')%list. split_and!; [lia| |done].
  by rewrite Hp', Hp, app_assoc.
Qed.

Lemma effect_weaken {A} (m : M A) (P Q : A -> nat -> list (string * string) -> Prop) :
  effect m P -> (forall a n new, P a n new -> Q a n new) -> effect m Q.
Proof.
  intros Hm HPQ w. destruct (Hm w) as (n & new & ? & ? & ?).
  exists n, new. auto.
Qed.

Lemma safe_get_from_spec attempts_left u w :
  let r := safe_get_from requests_get attempts_left u w in
  exists n,
    1 <= n <= S attempts_left
    /\ gets r.2 = gets w + n
    /\ failed_pages r.2 = failed_pages w
    /\ r.1 = requests_get (gets w + n - 1) u
    /\ (forall k, k < n - 1 -> exists e, requests_get (gets w + k) u = Raised e)
    /\ (forall e, r.1 = Raised e -> n = S attempts_left).
Proof.
  revert w. induction attempts_left as [|a IH]; intros w; cbv zeta;
    cbn [safe_get_from]; unfold bind, get.
  - exists 1. replace (gets w + 1 - 1) with (gets w) by lia.
    destruct (requests_get (gets w) u) as [e|code text] eqn:E;
      cbn [ret fst snd gets failed_pages].
    all: split_and!; [lia|lia|lia|done|done|intros k Hk; lia|done].
  - destruct (requests_get (gets w) u) as [e|code text] eqn:E.
    + destruct (IH (World (S (gets w)) (failed_pages w)))
        as (n & Hn & Hg & Hp & Hr & Hk & He).
      cbn [gets failed_pages] in *. exists (S n).
      split_and!; [lia|lia|lia|done| | |].
      * rewrite Hr. f_equal. lia.
      * intros k Hlt. destruct k as [|k].
        -- exists e. by rewrite Nat.add_0_r.
        -- destruct (Hk k) as [e' He']; [lia|]. exists e'. rewrite <- He'.
           f_equal. lia.
      * intros e' He'. by rewrite (He e' He').
    + exists 1. replace (gets w + 1 - 1) with (gets w) by lia.
      cbn [ret fst snd gets failed_pages].
      split_and!; [lia|lia|lia|done|done|intros k Hk; lia|done].
Qed.

Lemma effect_safe_get u :
  effect (safe_get requests_get u)
         (fun _ n new => 1 <= n <= MAX_RETRIES /\ new = []).
Proof.
  intros w. destruct (safe_get_from_spec (MAX_RETRIES - 1) u w)
    as (n & Hn & Hg & Hp & _).
  exists n, []. unfold safe_get. rewrite Hg, Hp, app_nil_r.
  split_and!; try done; unfold MAX_RETRIES in *; simpl in *; lia.
Qed.

Lemma startswith_self p s : Str.startswith p (p ++ s) = true.
Proof.
  induction p as [|a p IH]; [by destruct s|].
  rewrite SplitFacts.app_cons. cbn [Str.startswith].
  by rewrite Ascii.eqb_refl, IH.
Qed.

Lemma startswith_self_app p q s : Str.startswith (p ++ q) (p ++ q ++ s) = true.
Proof.
  induction p as [|a p IH]; [apply (startswith_self q s)|].
  rewrite !SplitFacts.app_cons. cbn [Str.startswith].
  by rewrite Ascii.eqb_refl, IH.
Qed.

Lemma effect_save {A} rs_pn html suffix (k : M A) Q :
  (forall p, Str.startswith (rs_pn ++ "_") p.1 = true ->
     effect k (fun a n new => Q a n (p :: new))) ->
  effect (bind (save_failed_html rs_pn html suffix) (fun _ => k)) Q.
Proof.
  intros Hk. eapply effect_bind with
    (P := fun _ n new => n = 0 /\ exists p, new = [p]
                         /\ Str.startswith (rs_pn ++ "_") p.1 = true).
  - intros w. exists 0, [(rs_pn ++ "_" ++ suffix ++ ".html", html)].
    cbn. split_and!; [lia|done|done|]. eexists. split; [done|]. cbn [fst].
    apply startswith_self_app.
  - intros _ n new (-> & p & -> & Hp). cbn. by apply Hk.
Qed.
End EffectFacts.

Section StageFacts.
Context {node : Type} `{Soup node}.
Variable requests_get : nat -> url -> reply.

Lemma one_fetch_nil rs_pn n : 1 <= n <= MAX_RETRIES -> one_fetch rs_pn (n + 0) ([] ++ []).
Proof. intros ?. split_and!; [lia|lia|simpl; lia|constructor]. Qed.

Lemma one_fetch_one rs_pn n p :
  1 <= n <= MAX_RETRIES -> Str.startswith (rs_pn ++ "_") p.1 = true ->
  one_fetch rs_pn (n + 0) ([] ++ [p]).
Proof.
  intros ? Hp. split_and!; [lia|lia|simpl; lia|]. by constructor.
Qed.

Lemma effect_search rs_pn :
  effect (search_rs_for_part_combined requests_get rs_pn)
         (fun r n new => one_fetch rs_pn n new
                         /\ (link_truthy r.1.1.1 = true -> new = [])).
Proof.
  unfold search_rs_for_part_combined.
  eapply effect_bind; [apply effect_safe_get|].
  intros [e|code text] n ? [Hn ->].
  { apply effect_ret. split; [by apply one_fetch_nil|done]. }
  destruct (negb (N.eqb code 200)).
  { apply effect_save. intros p Hp. apply effect_ret.
    split; [by apply one_fetch_one|done]. }
  destruct (parse_search_page_for_fields text rs_pn) as [[[pl b] m] st].
  destruct (link_truthy pl && _).
  { apply effect_ret. split; [by apply one_fetch_nil|done]. }
  destruct (aggressive_search_scan text rs_pn) as [[[pl2 b2] m2] st2].
  destruct (link_truthy pl2) eqn:El.
  - destruct (Str.truthy b2 || Str.truthy m2);
      apply effect_ret; (split; [by apply one_fetch_nil|done]).
  - apply effect_save. intros p Hp. apply effect_ret.
    split; [by apply one_fetch_one|done].
Qed.

Lemma effect_follow rs_pn link :
  effect (follow_link requests_get rs_pn link)
         (fun r n new => one_fetch rs_pn n new).
Proof.
  unfold follow_link.
  eapply effect_bind; [apply effect_safe_get|].
  intros [e|code text] n ? [Hn ->].
  { apply effect_ret. by apply one_fetch_nil. }
  destruct (negb (N.eqb code 200)).
  { apply effect_save. intros p Hp. apply effect_ret.
    by apply one_fetch_one. }
  destruct (parse_product_page_for_fields text (Some rs_pn)) as [mpn2 brand2].
  destruct (fields_ok brand2 mpn2 rs_pn).
  - apply effect_ret. by apply one_fetch_nil.
  - apply effect_save. intros p Hp. apply effect_ret.
    by apply one_fetch_one.
Qed.

Lemma effect_search_stage rs_pn :
  effect (search_stage requests_get rs_pn)
         (fun r n new => 1 <= n <= 2 * MAX_RETRIES
                         /\ List.length new <= 1 /\ named_after rs_pn new).
Proof.
  unfold search_stage.
  eapply effect_bind; [apply effect_search|].
  intros [[[pl b] m] st] n new [(Hn & Hl & Hnew) Hlink]. cbn [fst snd] in Hlink.
  destruct pl as [link|].
  2:{ apply effect_ret. rewrite Nat.add_0_r, app_nil_r. split_and!; [lia|lia|done|done]. }
  destruct (link_truthy (Some link)) eqn:El; cbn [negb].
  2:{ apply effect_ret. rewrite Nat.add_0_r, app_nil_r. split_and!; [lia|lia|done|done]. }
  rewrite (Hlink eq_refl).
  destruct (fields_ok b m rs_pn).
  - apply effect_ret. split_and!; [lia|lia|simpl; lia|constructor].
  - eapply effect_weaken; [apply effect_follow|].
    intros a n' new' (? & ? & ?). split_and!; [lia|lia|done|done].
Qed.

Lemma effect_fetch_rs_info rs_pn :
  effect (fetch_rs_info requests_get rs_pn)
         (fun r n new => 1 <= n <= 3 * MAX_RETRIES
                         /\ List.length new <= 2 /\ named_after rs_pn new).
Proof.
  unfold fetch_rs_info.
  eapply effect_bind; [apply effect_safe_get|].
  intros [e|code text] n ? [Hn ->].
  { apply effect_ret. split_and!; [lia|lia|simpl; lia|constructor]. }
  assert (Hs : effect (search_stage requests_get rs_pn)
    (fun _ n' new' => 1 <= n + n' <= 3 * MAX_RETRIES
                      /\ List.length ([] ++ new') <= 2 /\ named_after rs_pn ([] ++ new'))).
  { eapply effect_weaken; [apply effect_search_stage|].
    intros a n' new' (? & ? & ?). split_and!; [lia|lia|simpl; lia|done]. }
  destruct (N.eqb code 200); [|exact Hs].
  destruct (parse_product_page_for_fields text (Some rs_pn)) as [mpn brand].
  destruct (fields_ok brand mpn rs_pn).
  - apply effect_ret. split_and!; [lia|lia|simpl; lia|constructor].
  - apply effect_save. intros p Hp.
    eapply effect_weaken; [apply effect_search_stage|].
    intros a n' new' (? & ? & ?). split_and!; [lia|lia|simpl; lia|by constructor].
Qed.

Lemma follow_link_outcome rs_pn link :
  link_truthy (Some link) = true ->
  post (follow_link requests_get rs_pn link) bare_or_linked.
Proof.
  intros El. unfold follow_link. apply post_bind. intros [e|code text].
  { apply post_ret. by split. }
  destruct (negb (N.eqb code 200)).
  { apply post_bind. intros _. apply post_ret. by split. }
  destruct (parse_product_page_for_fields text (Some rs_pn)) as [mpn2 brand2].
  destruct (fields_ok brand2 mpn2 rs_pn).
  - apply post_ret. by split.
  - apply post_bind. intros _. apply post_ret. by split.
Qed.

Lemma search_stage_outcome rs_pn :
  post (search_stage requests_get rs_pn) bare_or_linked.
Proof.
  unfold search_stage. intros w. unfold bind.
  pose proof (search_rs_for_part_combined_sound requests_get rs_pn w) as [_ Hl].
  destruct (search_rs_for_part_combined requests_get rs_pn w)
    as [[[[pl b] m] st] w'].
  cbn [fst snd] in Hl. destruct pl as [link|].
  2:{ split; [done|]. cbn [ret fst snd]. intros E. rewrite Hl in E; done. }
  destruct (link_truthy (Some link)) eqn:El; cbn [negb].
  2:{ split; [done|]. cbn [ret fst snd]. intros E. rewrite Hl in E; done. }
  destruct (fields_ok b m rs_pn).
  - split; cbn [ret fst snd]; [|done]. intros E.
    unfold is_success in E. rewrite startswith_app in E by (simpl; lia). done.
  - by apply follow_link_outcome.
Qed.

Lemma fetch_rs_info_outcome rs_pn :
  post (fetch_rs_info requests_get rs_pn) bare_or_linked.
Proof.
  unfold fetch_rs_info. apply post_bind. intros [e|code text].
  { apply post_ret. by split. }
  destruct (N.eqb code 200); [|apply search_stage_outcome].
  destruct (parse_product_page_for_fields text (Some rs_pn)) as [mpn brand].
  destruct (fields_ok brand mpn rs_pn).
  - apply post_ret. by split.
  - apply post_bind. intros _. apply search_stage_outcome.
Qed.
End StageFacts.

(** X12. The fetcher makes between one and MAX_RETRIES calls of
    requests.get, all to the same URL, and writes no page. It returns the
    outcome of its last call; every call before the last raised; and it
    returns an exception, which the source raises again, only when all
    MAX_RETRIES calls raised. *)
Theorem safe_get_returns_first_response requests_get u w :
  let r := safe_get requests_get u w in
  exists n,
    1 <= n <= MAX_RETRIES
    /\ gets r.2 = gets w + n
    /\ failed_pages r.2 = failed_pages w
    /\ r.1 = requests_get (gets w + n - 1) u
    /\ (forall k, k < n - 1 -> exists e, requests_get (gets w + k) u = Raised e)
    /\ (forall e, r.1 = Raised e -> n = MAX_RETRIES).
Proof. apply (safe_get_from_spec requests_get (MAX_RETRIES - 1) u w). Qed.

(** X13. One lookup makes at least one and at most nine calls of
    requests.get (three fetches of at most MAX_RETRIES attempts each) and
    at most two calls of write_text, each on a file name that begins with
    the identifier and an underscore. *)
Theorem fetch_rs_info_is_bounded {node : Type} `{Soup node} requests_get rs_pn w :
  let w' := (fetch_rs_info requests_get rs_pn w).2 in
  exists n new,
    gets w' = gets w + n /\ 1 <= n <= 9
    /\ failed_pages w' = (failed_pages w ++ new)%list
    /\ List.length new <= 2
    /\ Forall (fun p => Str.startswith (rs_pn ++ "_") p.1 = true) new.
Proof.
  destruct (effect_fetch_rs_info requests_get rs_pn w) as (n & new & Hg & Hp & Hn & Hl & Hnew).
  exists n, new. unfold MAX_RETRIES in Hn. split_and!; try done; lia.
Qed.

(** X14. A lookup ends in one of two ways: with a status tagged as a
    success and a URL that is not empty, or with a status that is not
    tagged as a success, an empty MPN and an empty brand. *)
Theorem fetch_rs_info_failure_is_bare {node : Type} `{Soup node} requests_get rs_pn w :
  let r := (fetch_rs_info requests_get rs_pn w).1 in
  (is_success r.2 = true /\ link_truthy (Some r.1.2) = true)
  \/ (is_success r.2 = false /\ r.1.1.1 = "" /\ r.1.1.2 = "").
Proof.
  cbv zeta. destruct (fetch_rs_info_outcome requests_get rs_pn w) as [Hf Hs].
  destruct (is_success _); [left|right]; auto.
Qed.

Section RunFacts.
Context {node : Type} `{Soup node}.
Variable requests_get : nat -> url -> reply.

Lemma lookup_row_run rs_pn w :
  lookup_row (fetch_of requests_get) rs_pn w =
  (let r := (fetch_rs_info requests_get rs_pn w).1 in
   Row rs_pn r.1.1.1 r.1.1.2 r.1.2 r.2,
   (fetch_rs_info requests_get rs_pn w).2).
Proof.
  unfold lookup_row, fetch_of, bind, ret.
  by destruct (fetch_rs_info requests_get rs_pn w) as [[[[mpn brand] u] status] w'].
Qed.

Lemma lookup_row_settled rs_pn w :
  row_settled (lookup_row (fetch_of requests_get) rs_pn w).1.
Proof.
  rewrite lookup_row_run. cbn [fst]. unfold row_settled.
  cbn [Status Product_URL Brand Manufacturer_PN RS_PN].
  pose proof (fetch_rs_info_ok requests_get rs_pn w) as Hok.
  destruct (fetch_rs_info_outcome requests_get rs_pn w) as [Hf Hs].
  unfold info_ok in Hok.
  destruct (is_success _); [left|right]; auto.
Qed.

Lemma lookups_settled w ids rows w' :
  lookups (fetch_of requests_get) w ids rows w' -> Forall row_settled rows.
Proof.
  induction 1 as [|w rs_pn ids r rows w1 w2 El _ IH]; constructor; [|done].
  pose proof (lookup_row_settled rs_pn w) as Hr. by rewrite El in Hr.
Qed.

Lemma lookups_bounded w ids rows w' :
  lookups (fetch_of requests_get) w ids rows w' ->
  exists effects : list (nat * list (string * string)),
    Forall2 (fun rs_pn e =>
               1 <= e.1 <= 9 /\ List.length e.2 <= 2
               /\ Forall (fun p => Str.startswith (rs_pn ++ "_") p.1 = true) e.2)
            ids effects
    /\ gets w' = gets w + sum_list (fst <$> effects)
    /\ failed_pages w' = (failed_pages w ++ concat (snd <$> effects))%list.
Proof.
  induction 1 as [w|w rs_pn ids r rows w1 w2 El _ IH].
  - exists []. split; [constructor|]. cbn. by rewrite Nat.add_0_r, app_nil_r.
  - rewrite lookup_row_run in El. injection El as _ <-.
    destruct (effect_fetch_rs_info requests_get rs_pn w)
      as (n1 & new1 & Hg1 & Hp1 & Hn1 & Hl1 & Hnew1).
    destruct IH as (effects & Hall & Hg2 & Hp2).
    exists ((n1, new1) :: effects). unfold MAX_RETRIES in Hn1. split_and!.
    + constructor; [|done]. cbn [fst snd]. split_and!; [lia|lia|done|done].
    + rewrite fmap_cons. cbn [fst]. change (sum_list (n1 :: (fst <$> effects)))
        with (n1 + sum_list (fst <$> effects)). rewrite Hg2, Hg1. lia.
    + rewrite fmap_cons. cbn [snd concat]. by rewrite Hp2, Hp1, app_assoc.
Qed.
End RunFacts.

Lemma elem_of_bool_filter {A} (p : A -> bool) (l : list A) x :
  x ∈ List.filter p l <-> x ∈ l /\ p x = true.
Proof. by rewrite !list_elem_of_In, List.filter_In. Qed.

(** X15. Let the output file be absent or under the header when a run
    starts, and let pandas read back as written the rows the output holds
    after the run. Then the resume set read from the output after the run
    is the resume set the run started from together with the identifiers
    of the input, stripped, that are not blank: whatever the lookups
    did. *)
Theorem main_completes_the_resume_set {pd : Pandas} (plain : row -> Prop)
    fetch cells f w :
  reads_back plain ->
  under_header f ->
  Forall plain (rows_of (main fetch (Some cells) f w).1) ->
  load_already_done (main fetch (Some cells) f w).1 =
  load_already_done f
  ∪ list_to_set (List.filter Str.truthy (Str.strip <$> cells)).
Proof.
  intros Hread Hf Hplain1.
  assert (Hf1 : under_header (main fetch (Some cells) f w).1).
  { cbn [main].
    destruct (batch_loop_spec fetch (load_already_done f) (Str.strip <$> cells) f w)
      as (rows & -> & _).
    by apply under_header_append_rows. }
  assert (Hplain : Forall plain (rows_of f)).
  { revert Hplain1. cbn [main].
    destruct (batch_loop_spec fetch (load_already_done f) (Str.strip <$> cells) f w)
      as (rows & -> & _).
    rewrite rows_of_append_rows. by intros [? _]%Forall_app. }
  rewrite (load_already_done_rows plain _ Hread Hf1 Hplain1).
  cbn [main]. rewrite batch_loop_column, fmap_app, list_to_set_app_L.
  rewrite <- (load_already_done_rows plain f Hread Hf Hplain).
  set (done := load_already_done f). set (ids := Str.strip <$> cells).
  assert (Hs : Str.strip <$> List.filter (todo done) ids = List.filter (todo done) ids).
  { unfold ids. clear. induction cells as [|c l IH]; [done|].
    cbn [fmap list_fmap List.filter]. fold (Str.strip <$> l).
    destruct (todo done (Str.strip c)); [|exact IH].
    cbn [fmap list_fmap]. fold (Str.strip <$> List.filter (todo done) (Str.strip <$> l)).
    by rewrite IH, StrFacts.strip_idem. }
  rewrite Hs. apply set_eq. intros x.
  rewrite !elem_of_union, !elem_of_list_to_set, !elem_of_bool_filter.
  unfold todo. rewrite andb_true_iff, negb_true_iff, bool_decide_eq_false.
  destruct (decide (x ∈ done)); tauto.
Qed.

Lemma main_completes_the_resume_set_witness :
  let cells := ["123-456"; " 666-666 "; ""] in
  let f1 := (main (pd := pandas_fixed) fetch_fixed (Some cells) None world0).1 in
  reads_back (pd := pandas_fixed) (fun _ => True)
  /\ under_header None
  /\ Forall (fun _ => True) (rows_of f1)
  /\ load_already_done (pd := pandas_fixed) f1 =
     load_already_done (pd := pandas_fixed) None
     ∪ list_to_set (List.filter Str.truthy (Str.strip <$> cells)).
Proof.
  intros cells f1.
  assert (Hplain : Forall (fun _ : row => True) (rows_of f1)).
  { apply Forall_forall. done. }
  exact (conj pandas_fixed_reads_back (conj I (conj Hplain
    (main_completes_the_resume_set (pd := pandas_fixed) (fun _ => True)
       fetch_fixed cells None world0 pandas_fixed_reads_back I Hplain)))).
Defined.

(** X16. The calls and the writes of a run are those of its lookups, one
    after the other in the order of the input: for each identifier it
    looks up, between one and nine calls of requests.get and at most two
    calls of write_text, each on a file name that begins with that
    identifier and an underscore. It makes no other, so none for an
    identifier it skips. *)
Theorem run_is_bounded {node : Type} `{Soup node} {pd : Pandas}
    requests_get cells f w :
  let ids := List.filter (todo (load_already_done f)) (Str.strip <$> cells) in
  let w' := (run requests_get (Some cells) f w).2 in
  exists effects : list (nat * list (string * string)),
    Forall2 (fun rs_pn e =>
               1 <= e.1 <= 9 /\ List.length e.2 <= 2
               /\ Forall (fun p => Str.startswith (rs_pn ++ "_") p.1 = true) e.2)
            ids effects
    /\ gets w' = gets w + sum_list (fst <$> effects)
    /\ failed_pages w' = (failed_pages w ++ concat (snd <$> effects))%list.
Proof.
  cbv zeta. unfold run. cbn [main].
  destruct (batch_loop_spec (fetch_of requests_get) (load_already_done f)
              (Str.strip <$> cells) f w) as (rows & _ & Hl).
  exact (lookups_bounded requests_get _ _ _ _ Hl).
Qed.

(** X17. A run keeps the rows of the output file and appends, in the
    order of the input, one row for each identifier it looks up. Each row
    appended either has a status tagged as a success, a URL that is not
    empty and a brand or an MPN that passes its validation, or has a
    status not tagged as a success and an empty MPN and brand. *)
Theorem run_appends_settled_rows {node : Type} `{Soup node} {pd : Pandas}
    requests_get cells f w :
  exists rows,
    rows_of (run requests_get (Some cells) f w).1 = (rows_of f ++ rows)%list
    /\ RS_PN <$> rows
       = List.filter (todo (load_already_done f)) (Str.strip <$> cells)
    /\ Forall row_settled rows.
Proof.
  unfold run. cbn [main].
  destruct (batch_loop_spec (fetch_of requests_get) (load_already_done f)
              (Str.strip <$> cells) f w) as (rows & E & Hl).
  exists rows. split_and!.
  - fold (fetch_of requests_get). by rewrite E, rows_of_append_rows.
  - by eapply lookups_column.
  - by eapply lookups_settled.
Qed.

Section SearchFacts.
Context {node : Type} `{Soup node}.
Variable requests_get : nat -> url -> reply.

Lemma search_bare_without_link rs_pn :
  post (search_rs_for_part_combined requests_get rs_pn)
       (fun r => link_truthy r.1.1.1 = true
                 \/ (r.1.1.1 = None /\ r.1.1.2 = "" /\ r.1.2 = "")).
Proof.
  unfold search_rs_for_part_combined. apply post_bind. intros [e|code text].
  { apply post_ret. by right. }
  destruct (negb (N.eqb code 200)).
  { apply post_bind. intros _. apply post_ret. by right. }
  destruct (parse_search_page_for_fields text rs_pn) as [[[pl b] m] st].
  destruct (link_truthy pl && _) eqn:Eg.
  { apply post_ret. left. cbn. by apply andb_true_iff in Eg as [? _]. }
  destruct (aggressive_search_scan text rs_pn) as [[[pl2 b2] m2] st2].
  destruct (link_truthy pl2) eqn:El.
  - destruct (Str.truthy b2 || Str.truthy m2); apply post_ret; by left.
  - apply post_bind. intros _. apply post_ret. by right.
Qed.
End SearchFacts.

(** X18. The search makes between one and MAX_RETRIES calls of
    requests.get. It ends in one of two ways: with a link that is not
    empty, and then it writes no page; or with no link, an empty brand, an
    empty MPN and a status that is not tagged as a success, having written
    at most one page. *)
Theorem search_returns_link_or_nothing {node : Type} `{Soup node} requests_get rs_pn w :
  let r := (search_rs_for_part_combined requests_get rs_pn w).1 in
  let w' := (search_rs_for_part_combined requests_get rs_pn w).2 in
  gets w + 1 <= gets w' <= gets w + MAX_RETRIES
  /\ ((link_truthy r.1.1.1 = true /\ failed_pages w' = failed_pages w)
      \/ (r.1.1.1 = None /\ r.1.1.2 = "" /\ r.1.2 = "" /\ is_success r.2 = false
          /\ exists new, failed_pages w' = (failed_pages w ++ new)%list
                         /\ List.length new <= 1)).
Proof.
  cbv zeta.
  destruct (effect_search requests_get rs_pn w)
    as (n & new & Hg & Hp & (Hn & Hl & _) & Hnew).
  pose proof (search_rs_for_part_combined_sound requests_get rs_pn w) as [_ Hs].
  pose proof (search_bare_without_link requests_get rs_pn w) as Hb.
  split; [lia|].
  destruct (link_truthy _) eqn:El.
  - left. split; [done|]. by rewrite Hp, (Hnew eq_refl), app_nil_r.
  - right. destruct Hb as [Hb|(? & ? & ?)]; [cbv beta in Hb; congruence|].
    split_and!; try done; [by apply Hs|]. by exists new.
Qed.
